(** * Catálogo de productos: validation schemas, CRUD repository and routes

    A shallow embedding of [app/schemas/producto.py], [app/models/producto.py],
    [app/crud/producto.py], [app/database.py] and [app/routes/productos.py],
    with the properties of the validation layer and of the catalog repository.

    Modelling conventions.
    - A Python [str] is the sequence of its code points; [len] counts code
      points.  ASCII letters change case as they do everywhere.  What
      [str.upper] makes of a character outside ASCII, and what the locale of
      the database makes of one in [lower], are the two tables of
      [CaseTables]; the properties are stated for every pair of tables.
      [latin1] gives both tables on the Latin-1 block, for the examples.
    - Python [int] is [Z].  A [Decimal] is its signed coefficient and its
      exponent, as [Decimal.as_tuple()] exposes them (finite values only).
    - Time stamps are [Z]; the value of the store's [now()] is passed to the
      operations that write.
    - A [Session] is bound to PostgreSQL, the engine of [DATABASE_URL], or to
      SQLite, the engine of the tests.  The table [productos] is the list of
      its rows in the scan order of the engine, with the value from which the
      next key is taken.  The engines differ in what the column types
      refuse, in where an UPDATE leaves the row, in the key given after a
      DELETE, in LIMIT and OFFSET below zero and in LIKE; each is modelled
      per engine.
    - Outside the model: an integer that does not fit the 64 bits of the
      drivers (the properties that depend on it carry the bound), a key that
      is beyond the type of its column or that a row already has when the
      sequence gives it, a text with a NUL character, a price of more than
      the 15 digits that SQLite, which keeps a Numeric as a float, returns
      exactly, the excess spaces that PostgreSQL cuts off an over-long text
      instead of refusing it, and failures of the connection. *)

From Stdlib Require Import ZArith NArith List Bool Lia Permutation.
From Stdlib.Strings Require Import Byte.
Import ListNotations.

(** ** Results *)

Inductive result (E A : Type) : Type :=
| Ok (a : A)
| Err (e : E).
Arguments Ok {E A} a.
Arguments Err {E A} e.

Definition is_ok {E A} (r : result E A) : bool :=
  match r with Ok _ => true | Err _ => false end.

(** ** Text *)

(** A character is its code point, [ord(c)]; a [str] is a sequence of
    characters. *)
Inductive char : Type := Char (code_point : N).

Inductive str : Type :=
| EmptyString
| String (c : char) (s : str).

Definition ord (c : char) : N := match c with Char n => n end.

(** Literals are written in UTF-8, as the sources are. *)
Definition continuation (b : N) : bool := ((128 <=? b) && (b <? 192))%N.

Fixpoint utf8_decode (bytes : list N) : option (list N) :=
  match bytes with
  | [] => Some []
  | b :: rest =>
      if (b <? 128)%N then option_map (cons b) (utf8_decode rest)
      else if (b <? 192)%N then None
      else if (b <? 224)%N then
        match rest with
        | c1 :: rest' =>
            if continuation c1
            then option_map (cons ((b - 192) * 64 + (c1 - 128))%N) (utf8_decode rest')
            else None
        | _ => None
        end
      else if (b <? 240)%N then
        match rest with
        | c1 :: c2 :: rest' =>
            if continuation c1 && continuation c2
            then option_map (cons ((b - 224) * 4096 + (c1 - 128) * 64 + (c2 - 128))%N)
                            (utf8_decode rest')
            else None
        | _ => None
        end
      else if (b <? 248)%N then
        match rest with
        | c1 :: c2 :: c3 :: rest' =>
            if continuation c1 && continuation c2 && continuation c3
            then option_map
                   (cons ((b - 240) * 262144 + (c1 - 128) * 4096 + (c2 - 128) * 64
                          + (c3 - 128))%N)
                   (utf8_decode rest')
            else None
        | _ => None
        end
      else None
  end.

Definition utf8_encode (n : N) : list N :=
  (if n <? 128 then [n]
   else if n <? 2048 then [192 + n / 64; 128 + n mod 64]
   else if n <? 65536 then [224 + n / 4096; 128 + (n / 64) mod 64; 128 + n mod 64]
   else [240 + n / 262144; 128 + (n / 4096) mod 64; 128 + (n / 64) mod 64;
         128 + n mod 64])%N.

Fixpoint of_code_points (l : list N) : str :=
  match l with
  | [] => EmptyString
  | n :: l' => String (Char n) (of_code_points l')
  end.

Fixpoint code_points (s : str) : list N :=
  match s with
  | EmptyString => []
  | String c s' => ord c :: code_points s'
  end.

Definition byte_of_N (n : N) : Byte.byte :=
  match Byte.of_N n with Some b => b | None => Byte.x00 end.

Definition str_of_bytes (bytes : list Byte.byte) : option str :=
  option_map of_code_points (utf8_decode (List.map Byte.to_N bytes)).

Definition bytes_of_str (s : str) : list Byte.byte :=
  List.map byte_of_N (List.flat_map utf8_encode (code_points s)).

Definition char_of_bytes (bytes : list Byte.byte) : option char :=
  match utf8_decode (List.map Byte.to_N bytes) with
  | Some [n] => Some (Char n)
  | _ => None
  end.

Definition bytes_of_char (c : char) : list Byte.byte :=
  List.map byte_of_N (utf8_encode (ord c)).

Declare Scope str_scope.
Delimit Scope str_scope with str.
Bind Scope str_scope with str.
Declare Scope chr_scope.
Delimit Scope chr_scope with chr.
Bind Scope chr_scope with char.
String Notation str str_of_bytes bytes_of_str : str_scope.
String Notation char char_of_bytes bytes_of_char : chr_scope.

Open Scope str_scope.
Open Scope Z_scope.

(** The case mappings outside ASCII.  [py_upper c] is [c.upper()] in
    Python, which can be more than one character ('ß' gives 'SS').
    [pg_lower c] is the lower case of [c] in the locale of the PostgreSQL
    database, taken character by character. *)
Class CaseTables : Type := {
  py_upper : char -> str;
  pg_lower : char -> char
}.

Module Str.

Definition eqb_char (a b : char) : bool := (ord a =? ord b)%N.

(** [a == b] *)
Fixpoint eqb (a b : str) : bool :=
  match a, b with
  | EmptyString, EmptyString => true
  | String c a', String d b' => eqb_char c d && eqb a' b'
  | _, _ => false
  end.

(** [len(v)] *)
Fixpoint len (s : str) : nat :=
  match s with
  | EmptyString => O
  | String _ s' => S (len s')
  end.

(** [not v] on a [str] *)
Definition is_empty (s : str) : bool :=
  match s with EmptyString => true | String _ _ => false end.

(** [a + b] *)
Fixpoint append (a b : str) : str :=
  match a with
  | EmptyString => b
  | String c a' => String c (append a' b)
  end.

Definition is_ascii (c : char) : bool := (ord c <? 128)%N.

(** [v.isascii()] *)
Fixpoint isascii (s : str) : bool :=
  match s with
  | EmptyString => true
  | String c s' => is_ascii c && isascii s'
  end.

Definition ascii_upper (c : char) : char :=
  if ((97 <=? ord c) && (ord c <=? 122))%N then Char (ord c - 32) else c.

Definition ascii_lower (c : char) : char :=
  if ((65 <=? ord c) && (ord c <=? 90))%N then Char (ord c + 32) else c.

Definition upper_char `{CaseTables} (c : char) : str :=
  if is_ascii c then String (ascii_upper c) EmptyString else py_upper c.

(** [v.upper()] *)
Fixpoint upper `{CaseTables} (s : str) : str :=
  match s with
  | EmptyString => EmptyString
  | String c s' => append (upper_char c) (upper s')
  end.

Fixpoint map (f : char -> char) (s : str) : str :=
  match s with
  | EmptyString => EmptyString
  | String c s' => String (f c) (map f s')
  end.

Definition lower_char `{CaseTables} (c : char) : char :=
  if is_ascii c then ascii_lower c else pg_lower c.

(** [lower(v)] on PostgreSQL *)
Definition lower `{CaseTables} (s : str) : str := map lower_char s.

(** [lower(v)] on SQLite, which knows the letters of ASCII only *)
Definition lower_ascii (s : str) : str := map ascii_lower s.

(** [v.split(sep)] for a one-character separator: the pieces between the
    occurrences of [sep], empty pieces included; [''.split('-')] is
    [['']]. *)
Fixpoint split (sep : char) (s : str) : list str :=
  match s with
  | EmptyString => [EmptyString]
  | String c s' =>
      if eqb_char c sep then EmptyString :: split sep s'
      else match split sep s' with
           | [] => [String c EmptyString]
           | piece :: pieces => String c piece :: pieces
           end
  end.

(** [v.count(c)] *)
Fixpoint count (c : char) (s : str) : nat :=
  match s with
  | EmptyString => O
  | String d s' => ((if eqb_char d c then 1 else 0) + count c s')%nat
  end.

End Str.

Infix "++" := Str.append : str_scope.

(** The two tables on the Latin-1 block, U+0080 to U+00FF; the characters
    of other blocks are left as they are. *)
Definition latin1_upper (c : char) : str :=
  let n := ord c in
  (if n =? 223 then "SS"                                    (* ß *)
   else if n =? 181 then String (Char 924) EmptyString      (* µ *)
   else if n =? 255 then String (Char 376) EmptyString      (* ÿ *)
   else if (224 <=? n) && (n <=? 254) && negb (n =? 247)
        then String (Char (n - 32)) EmptyString
   else String c EmptyString)%N.

Definition latin1_lower (c : char) : char :=
  let n := ord c in
  (if (192 <=? n) && (n <=? 222) && negb (n =? 215) then Char (n + 32) else c)%N.

Definition latin1 : CaseTables :=
  {| py_upper := latin1_upper; pg_lower := latin1_lower |}.

(** ** Decimal *)

(** [Decimal]: the value is [coefficient * 10 ^ exponent]. *)
Record Decimal : Type := mkDecimal {
  coefficient : Z;
  exponent : Z
}.

Module Dec.

(** [v <= 0] *)
Definition le_zero (v : Decimal) : bool := coefficient v <=? 0.

(** [v > 0] *)
Definition gt_zero (v : Decimal) : bool := 0 <? coefficient v.

(** [a == b]: numeric comparison, whatever the exponents. *)
Definition eqb (a b : Decimal) : bool :=
  let m := Z.min (exponent a) (exponent b) in
  (coefficient a * 10 ^ (exponent a - m) =? coefficient b * 10 ^ (exponent b - m)).

(** Digits written after the decimal point. *)
Definition fractional_digits (v : Decimal) : Z := Z.max 0 (- exponent v).

(** The value is a whole number of hundredths: [value = k / 100]. *)
Definition is_hundredths (v : Decimal) (k : Z) : Prop :=
  if 0 <=? exponent v + 2
  then k = coefficient v * 10 ^ (exponent v + 2)
  else k * 10 ^ (- (exponent v + 2)) = coefficient v.

(** The value written with two digits after the point, as a column
    [Numeric(10, 2)] gives it back: 1.5 comes back as 1.50.  A value with
    more digits after the point, which the schemas let through to no column,
    is left as it is written. *)
Definition quantize (v : Decimal) : Decimal :=
  if -2 <=? exponent v
  then mkDecimal (coefficient v * 10 ^ (exponent v + 2)) (-2)
  else v.

(** [abs(v) < 10 ** 8]: the value has no more than the eight digits before
    the point that [Numeric(10, 2)] holds. *)
Definition fits_10_2 (v : Decimal) : bool :=
  if -2 <=? exponent v
  then Z.abs (coefficient v) * 10 ^ (exponent v + 2) <? 10 ^ 10
  else Z.abs (coefficient v) <? 10 ^ (8 - exponent v).

End Dec.

(** ** app/models/producto.py *)

Inductive CategoriaProducto : Type := PAN | PASTELERIA | BEBIDAS | OTROS.

(** The [str] value of each member of the enumeration. *)
Definition categoria_value (c : CategoriaProducto) : str :=
  match c with
  | PAN => "Pan"
  | PASTELERIA => "Pastelería"
  | BEBIDAS => "Bebidas"
  | OTROS => "Otros"
  end.

(** [CategoriaProducto(value)] *)
Definition categoria_of_value (s : str) : option CategoriaProducto :=
  if Str.eqb s (categoria_value PAN) then Some PAN
  else if Str.eqb s (categoria_value PASTELERIA) then Some PASTELERIA
  else if Str.eqb s (categoria_value BEBIDAS) then Some BEBIDAS
  else if Str.eqb s (categoria_value OTROS) then Some OTROS
  else None.

(** A row of the table [productos]. *)
Record Producto : Type := mkProducto {
  id : Z;
  nombre : str;
  sku : str;
  categoria : str;
  precio_unitario : Decimal;
  stock : Z;
  disponible : bool;
  fecha_registro : Z;
  fecha_actualizacion : Z
}.

(** ** app/schemas/producto.py *)

(** What a field can fail with: the constraints declared with [Field], the
    enumeration check, and the [ValueError]s the validators raise. *)
Inductive field_error : Type :=
| string_too_short (min_length : nat)
| string_too_long (max_length : nat)
| greater_than_0          (* Field(gt=0) *)
| greater_than_equal_0    (* Field(ge=0) *)
| enum_error
| sku_vacio               (* 'El SKU no puede estar vacío' *)
| sku_formato             (* 'El SKU debe tener formato XXX-NNNN (ej: PAN-0001)' *)
| precio_no_positivo      (* 'El precio unitario debe ser mayor a 0' *)
| precio_decimales        (* 'El precio unitario no puede tener más de 2 decimales' *)
| stock_negativo.         (* 'El stock no puede ser negativo' *)

Definition checked (A : Type) : Type := result field_error A.

(** A [ValidationError]: the fields that failed, each with its error. *)
Definition ValidationError : Type := list (str * field_error).

Definition and_then {A B} (r : checked A) (f : A -> checked B) : checked B :=
  match r with Ok a => f a | Err e => Err e end.

Definition failures {A} (field : str) (r : checked A) : ValidationError :=
  match r with Ok _ => [] | Err e => [(field, e)] end.

(** [Field(min_length=.., max_length=..)] on a [str]: the lengths are
    counted in characters. *)
Definition str_constraints (min_length max_length : nat) (v : str)
  : checked str :=
  if (Str.len v <? min_length)%nat then Err (string_too_short min_length)
  else if (max_length <? Str.len v)%nat then Err (string_too_long max_length)
  else Ok v.

(** [Field(gt=0)] on a [Decimal]. *)
Definition gt_0 (v : Decimal) : checked Decimal :=
  if Dec.gt_zero v then Ok v else Err greater_than_0.

(** [Field(ge=0)] on an [int]. *)
Definition ge_0 (v : Z) : checked Z :=
  if 0 <=? v then Ok v else Err greater_than_equal_0.

(** The enumeration check of a [CategoriaProducto] field. *)
Definition enum_member (v : str) : checked CategoriaProducto :=
  match categoria_of_value v with
  | Some c => Ok c
  | None => Err enum_error
  end.

Module ProductoBase.

(** [ProductoBase.validate_sku] *)
Definition validate_sku `{CaseTables} (v : str) : checked str :=
  if Str.is_empty v then Err sku_vacio
  else if negb (List.length (Str.split "-" v) =? 2)%nat then Err sku_formato
  else Ok (Str.upper v).

(** [ProductoBase.validate_precio] *)
Definition validate_precio (v : Decimal) : checked Decimal :=
  if Dec.le_zero v then Err precio_no_positivo
  else if exponent v <? -2 then Err precio_decimales
  else Ok v.

(** [ProductoBase.validate_stock] *)
Definition validate_stock (v : Z) : checked Z :=
  if v <? 0 then Err stock_negativo else Ok v.

(** The fields of the schema: the constraints declared with [Field] run
    first, the field validator runs on what they let through. *)
Definition field_nombre (v : str) : checked str :=
  str_constraints 1 150 v.

Definition field_sku `{CaseTables} (v : str) : checked str :=
  and_then (str_constraints 3 20 v) validate_sku.

Definition field_categoria (v : str) : checked CategoriaProducto :=
  enum_member v.

Definition field_precio_unitario (v : Decimal) : checked Decimal :=
  and_then (gt_0 v) validate_precio.

Definition field_stock (v : Z) : checked Z :=
  and_then (ge_0 v) validate_stock.

End ProductoBase.

Module ProductoCreate.

(** A decoded request body: the required fields are present and of the
    declared type; [disponible] may be left out. *)
Record payload : Type := mkPayload {
  raw_nombre : str;
  raw_sku : str;
  raw_categoria : str;
  raw_precio_unitario : Decimal;
  raw_stock : Z;
  raw_disponible : option bool
}.

(** A validated [ProductoCreate]. *)
Record t : Type := mk {
  nombre : str;
  sku : str;
  categoria : CategoriaProducto;
  precio_unitario : Decimal;
  stock : Z;
  disponible : bool
}.

(** [ProductoCreate] built from the body: every field is checked and every failure is
    reported; [disponible] defaults to [True]. *)
Definition validate `{CaseTables} (raw : payload) : result ValidationError t :=
  let r_nombre := ProductoBase.field_nombre (raw_nombre raw) in
  let r_sku := ProductoBase.field_sku (raw_sku raw) in
  let r_categoria := ProductoBase.field_categoria (raw_categoria raw) in
  let r_precio := ProductoBase.field_precio_unitario (raw_precio_unitario raw) in
  let r_stock := ProductoBase.field_stock (raw_stock raw) in
  match r_nombre, r_sku, r_categoria, r_precio, r_stock with
  | Ok n, Ok s, Ok c, Ok p, Ok k =>
      Ok (mk n s c p k
            (match raw_disponible raw with Some b => b | None => true end))
  | _, _, _, _, _ =>
      Err (failures "nombre" r_nombre ++ failures "sku" r_sku
           ++ failures "categoria" r_categoria
           ++ failures "precio_unitario" r_precio
           ++ failures "stock" r_stock)%list
  end.

End ProductoCreate.

(** A field of an update: left out of the body ([Unset]), or given, as
    [null] ([Given None]) or with a value. *)
Inductive supplied (A : Type) : Type :=
| Unset
| Given (v : option A).
Arguments Unset {A}.
Arguments Given {A} v.

(** Reading the attribute of the schema object: an unset field reads as its
    default, [None]. *)
Definition attr {A} (f : supplied A) : option A :=
  match f with Unset => None | Given v => v end.

Module ProductoUpdate.

Record payload : Type := mkPayload {
  raw_nombre : supplied str;
  raw_sku : supplied str;
  raw_categoria : supplied str;
  raw_precio_unitario : supplied Decimal;
  raw_stock : supplied Z;
  raw_disponible : supplied bool
}.

(** A validated [ProductoUpdate]; [Given] marks the fields of
    [model_fields_set]. *)
Record t : Type := mk {
  nombre : supplied str;
  sku : supplied str;
  categoria : supplied CategoriaProducto;
  precio_unitario : supplied Decimal;
  stock : supplied Z;
  disponible : supplied bool
}.

(** [ProductoUpdate.validate_sku] *)
Definition validate_sku `{CaseTables} (v : option str) : checked (option str) :=
  match v with
  | Some s =>
      if Str.is_empty s then Err sku_vacio
      else if negb (List.length (Str.split "-" s) =? 2)%nat then Err sku_formato
      else Ok (Some (Str.upper s))
  | None => Ok v
  end.

(** [ProductoUpdate.validate_precio] *)
Definition validate_precio (v : option Decimal) : checked (option Decimal) :=
  match v with
  | Some d =>
      if Dec.le_zero d then Err precio_no_positivo
      else if exponent d <? -2 then Err precio_decimales
      else Ok v
  | None => Ok v
  end.

(** [ProductoUpdate.validate_stock] *)
Definition validate_stock (v : option Z) : checked (option Z) :=
  match v with
  | Some k => if k <? 0 then Err stock_negativo else Ok v
  | None => Ok v
  end.

(** An [Optional] field: [None] passes the declared constraints. *)
Definition nullable {A B} (inner : A -> checked B) (v : option A)
  : checked (option B) :=
  match v with
  | Some a => and_then (inner a) (fun b => Ok (Some b))
  | None => Ok None
  end.

(** A field that is left out keeps its default and no validator runs on
    it; a field that is given goes through its constraints, then through
    its validator. *)
Definition field {A B} (inner : A -> checked B)
           (validator : option B -> checked (option B)) (f : supplied A)
  : checked (supplied B) :=
  match f with
  | Unset => Ok Unset
  | Given v =>
      and_then (and_then (nullable inner v) validator) (fun w => Ok (Given w))
  end.

Definition no_validator {B} (v : option B) : checked (option B) := Ok v.

Definition field_nombre := field (str_constraints 1 150) no_validator.
Definition field_sku `{CaseTables} := field (str_constraints 3 20) validate_sku.
Definition field_categoria := field enum_member no_validator.
Definition field_precio_unitario := field gt_0 validate_precio.
Definition field_stock := field ge_0 validate_stock.
Definition field_disponible := field (fun b : bool => Ok b) no_validator.

(** [ProductoUpdate] built from the body *)
Definition validate `{CaseTables} (raw : payload) : result ValidationError t :=
  let r_nombre := field_nombre (raw_nombre raw) in
  let r_sku := field_sku (raw_sku raw) in
  let r_categoria := field_categoria (raw_categoria raw) in
  let r_precio := field_precio_unitario (raw_precio_unitario raw) in
  let r_stock := field_stock (raw_stock raw) in
  let r_disponible := field_disponible (raw_disponible raw) in
  match r_nombre, r_sku, r_categoria, r_precio, r_stock, r_disponible with
  | Ok n, Ok s, Ok c, Ok p, Ok k, Ok d => Ok (mk n s c p k d)
  | _, _, _, _, _, _ =>
      Err (failures "nombre" r_nombre ++ failures "sku" r_sku
           ++ failures "categoria" r_categoria
           ++ failures "precio_unitario" r_precio
           ++ failures "stock" r_stock
           ++ failures "disponible" r_disponible)%list
  end.

End ProductoUpdate.

(** ** The backing store *)

(** The engine a [Session] is bound to. *)
Inductive dialect : Type := postgresql | sqlite.

(** What a [Session] reaches: the engine, the table [productos] with its
    rows in the scan order of the engine, and the value the next key is
    taken from: on PostgreSQL the sequence behind the autoincrement column,
    on SQLite the rowid that follows the largest one in use. *)
Record Session : Type := mkSession {
  bind : dialect;
  productos : list Producto;
  productos_id_seq : Z
}.

(** The same store with other rows. *)
Definition with_productos (db : Session) (rows : list Producto) : Session :=
  {| bind := bind db;
     productos := rows;
     productos_id_seq := productos_id_seq db |}.

Inductive crud_error : Type :=
| ValueError (sku : str)  (* ValueError(f"El SKU {sku} ya existe") *)
| IntegrityError          (* [uq_producto_sku] or a NOT NULL column refused the statement *)
| DataError.              (* a value outside the type of its column, or of LIMIT and OFFSET *)

(** [db.query(Producto).filter(criterion).first()] *)
Definition first (criterion : Producto -> bool) (db : Session) : option Producto :=
  List.find criterion (productos db).

(** [query.offset(skip).limit(limit).all()].  PostgreSQL refuses a negative
    OFFSET or LIMIT; SQLite reads a negative OFFSET as none and a negative
    LIMIT as no limit. *)
Definition offset_limit (engine : dialect) (skip limit : Z) (query : list Producto)
  : result crud_error (list Producto) :=
  match engine with
  | postgresql =>
      if (skip <? 0) || (limit <? 0) then Err DataError
      else Ok (firstn (Z.to_nat limit) (skipn (Z.to_nat skip) query))
  | sqlite =>
      let rest := skipn (Z.to_nat skip) query in
      Ok (if limit <? 0 then rest else firstn (Z.to_nat limit) rest)
  end.

(** *** The types of the columns *)

(** [Integer]: four bytes on PostgreSQL; SQLite takes what the driver
    sends. *)
Definition integer (engine : dialect) (v : Z) : result crud_error Z :=
  match engine with
  | postgresql =>
      if (-2147483648 <=? v) && (v <=? 2147483647) then Ok v else Err DataError
  | sqlite => Ok v
  end.

(** [Numeric(10, 2)]: both engines give the value back with two digits
    after the point; PostgreSQL refuses one of more than eight digits before
    it. *)
Definition numeric_10_2 (engine : dialect) (v : Decimal) : result crud_error Decimal :=
  match engine with
  | postgresql => if Dec.fits_10_2 v then Ok (Dec.quantize v) else Err DataError
  | sqlite => Ok (Dec.quantize v)
  end.

(** [String(n)]: PostgreSQL refuses a text of more than [n] characters;
    SQLite does not look at the length. *)
Definition varchar (n : nat) (engine : dialect) (v : str) : result crud_error str :=
  match engine with
  | postgresql => if (Str.len v <=? n)%nat then Ok v else Err DataError
  | sqlite => Ok v
  end.

(** [db.add(Producto(... producto.model_dump())); db.commit(); db.refresh(..)]:
    the INSERT is refused when a value is outside the type of its column, and
    by the constraint [uq_producto_sku] when a row already has the SKU;
    otherwise the row takes the next key and both time stamps from
    [server_default=func.now()], and the object is read back from it. *)
Definition insert (db : Session) (now : Z) (producto : ProductoCreate.t)
  : result crud_error Producto * Session :=
  match varchar 150 (bind db) (ProductoCreate.nombre producto),
        varchar 20 (bind db) (ProductoCreate.sku producto),
        varchar 20 (bind db) (categoria_value (ProductoCreate.categoria producto)),
        numeric_10_2 (bind db) (ProductoCreate.precio_unitario producto),
        integer (bind db) (ProductoCreate.stock producto) with
  | Ok n, Ok s, Ok c, Ok p, Ok k =>
      if existsb (fun r => Str.eqb (sku r) s) (productos db)
      then (Err IntegrityError, db)
      else
        let db_producto :=
          {| id := productos_id_seq db;
             nombre := n;
             sku := s;
             categoria := c;
             precio_unitario := p;
             stock := k;
             disponible := ProductoCreate.disponible producto;
             fecha_registro := now;
             fecha_actualizacion := now |} in
        (Ok db_producto,
         {| bind := bind db;
            productos := productos db ++ [db_producto];
            productos_id_seq := productos_id_seq db + 1 |})
  | _, _, _, _, _ => (Err DataError, db)
  end.

(** *** The loaded object of an update *)

(** The column attributes of a loaded [Producto] that [setattr] can reach
    from a [ProductoUpdate]; [None] is Python's [None]. *)
Record attrs : Type := mkAttrs {
  a_nombre : option str;
  a_sku : option str;
  a_categoria : option str;
  a_precio_unitario : option Decimal;
  a_stock : option Z;
  a_disponible : option bool
}.

Definition loaded (r : Producto) : attrs :=
  {| a_nombre := Some (nombre r);
     a_sku := Some (sku r);
     a_categoria := Some (categoria r);
     a_precio_unitario := Some (precio_unitario r);
     a_stock := Some (stock r);
     a_disponible := Some (disponible r) |}.

(** One entry of [model_dump(exclude_unset=True)]. *)
Inductive item : Type :=
| item_nombre (value : option str)
| item_sku (value : option str)
| item_categoria (value : option CategoriaProducto)
| item_precio_unitario (value : option Decimal)
| item_stock (value : option Z)
| item_disponible (value : option bool).

Definition dump {A} (key : option A -> item) (f : supplied A) : list item :=
  match f with Unset => [] | Given v => [key v] end.

(** [producto_update.model_dump(exclude_unset=True)]: the fields of
    [model_fields_set], in declaration order. *)
Definition model_dump_exclude_unset (u : ProductoUpdate.t) : list item :=
  (dump item_nombre (ProductoUpdate.nombre u)
   ++ dump item_sku (ProductoUpdate.sku u)
   ++ dump item_categoria (ProductoUpdate.categoria u)
   ++ dump item_precio_unitario (ProductoUpdate.precio_unitario u)
   ++ dump item_stock (ProductoUpdate.stock u)
   ++ dump item_disponible (ProductoUpdate.disponible u))%list.

(** [setattr(db_producto, field, value)] *)
Definition setattr (o : attrs) (i : item) : attrs :=
  match i with
  | item_nombre v =>
      mkAttrs v (a_sku o) (a_categoria o) (a_precio_unitario o) (a_stock o) (a_disponible o)
  | item_sku v =>
      mkAttrs (a_nombre o) v (a_categoria o) (a_precio_unitario o) (a_stock o) (a_disponible o)
  | item_categoria v =>
      mkAttrs (a_nombre o) (a_sku o) (option_map categoria_value v)
              (a_precio_unitario o) (a_stock o) (a_disponible o)
  | item_precio_unitario v =>
      mkAttrs (a_nombre o) (a_sku o) (a_categoria o) v (a_stock o) (a_disponible o)
  | item_stock v =>
      mkAttrs (a_nombre o) (a_sku o) (a_categoria o) (a_precio_unitario o) v (a_disponible o)
  | item_disponible v =>
      mkAttrs (a_nombre o) (a_sku o) (a_categoria o) (a_precio_unitario o) (a_stock o) v
  end.

(** The SET clause of the UPDATE that a flush emits: a column is in it
    ([Some]) when the attribute differs from the value that was loaded. *)
Record set_clause : Type := mkSet {
  set_nombre : option str;
  set_sku : option str;
  set_categoria : option str;
  set_precio_unitario : option Decimal;
  set_stock : option Z;
  set_disponible : option bool
}.

(** One column at flush time.  An attribute equal to the loaded value is
    left out of the statement; [None] in a NOT NULL column is refused. *)
Definition column {A} (is_equal : A -> A -> bool) (current : option A) (committed : A)
  : result crud_error (option A) :=
  match current with
  | Some v => if is_equal v committed then Ok None else Ok (Some v)
  | None => Err IntegrityError
  end.

Definition collect_update (o : attrs) (committed : Producto)
  : result crud_error set_clause :=
  match column Str.eqb (a_nombre o) (nombre committed),
        column Str.eqb (a_sku o) (sku committed),
        column Str.eqb (a_categoria o) (categoria committed),
        column Dec.eqb (a_precio_unitario o) (precio_unitario committed),
        column Z.eqb (a_stock o) (stock committed),
        column Bool.eqb (a_disponible o) (disponible committed) with
  | Ok n, Ok s, Ok c, Ok p, Ok k, Ok d => Ok (mkSet n s c p k d)
  | _, _, _, _, _, _ => Err IntegrityError
  end.

Definition no_columns (s : set_clause) : bool :=
  match s with
  | mkSet None None None None None None => true
  | _ => false
  end.

(** A column of the SET clause, as the type of the column holds it. *)
Definition held {A} (type_ : A -> result crud_error A) (v : option A)
  : result crud_error (option A) :=
  match v with
  | Some a => match type_ a with Ok b => Ok (Some b) | Err e => Err e end
  | None => Ok None
  end.

(** The SET clause as the types of the columns hold it. *)
Definition coerce (engine : dialect) (s : set_clause) : result crud_error set_clause :=
  match held (varchar 150 engine) (set_nombre s),
        held (varchar 20 engine) (set_sku s),
        held (varchar 20 engine) (set_categoria s),
        held (numeric_10_2 engine) (set_precio_unitario s),
        held (integer engine) (set_stock s) with
  | Ok n, Ok k, Ok c, Ok p, Ok q => Ok (mkSet n k c p q (set_disponible s))
  | _, _, _, _, _ => Err DataError
  end.

Definition or_keep {A} (new : option A) (old : A) : A :=
  match new with Some v => v | None => old end.

(** The effect of the UPDATE on a row it addresses: the columns of the SET
    clause, and [fecha_actualizacion] from [onupdate=func.now()]. *)
Definition apply_update (now : Z) (s : set_clause) (r : Producto) : Producto :=
  {| id := id r;
     nombre := or_keep (set_nombre s) (nombre r);
     sku := or_keep (set_sku s) (sku r);
     categoria := or_keep (set_categoria s) (categoria r);
     precio_unitario := or_keep (set_precio_unitario s) (precio_unitario r);
     stock := or_keep (set_stock s) (stock r);
     disponible := or_keep (set_disponible s) (disponible r);
     fecha_registro := fecha_registro r;
     fecha_actualizacion := now |}.

(** Where an UPDATE leaves the row with the key: SQLite rewrites it where
    it is; PostgreSQL writes a new version of it, which a scan of the table
    meets after the rows that were there. *)
Definition rewrite (engine : dialect) (key : Z) (f : Producto -> Producto)
           (rows : list Producto) : list Producto :=
  match engine with
  | sqlite => List.map (fun r => if id r =? key then f r else r) rows
  | postgresql =>
      (List.filter (fun r => negb (id r =? key)) rows
       ++ List.map f (List.filter (fun r => id r =? key) rows))%list
  end.

(** [db.commit()] with a modified loaded object: nothing is sent when no
    attribute has a net change; otherwise the UPDATE addresses the row by
    its key.  It is refused for a [None] in a NOT NULL column, for a value
    outside the type of its column, and by [uq_producto_sku] for a SKU that
    another row has.  (Of a [None] and a value outside its type in one
    statement, the model reports the [None].) *)
Definition commit_update (db : Session) (now : Z) (committed : Producto) (o : attrs)
  : result crud_error unit * Session :=
  match collect_update o committed with
  | Err e => (Err e, db)
  | Ok s =>
      if no_columns s then (Ok tt, db)
      else
        match coerce (bind db) s with
        | Err e => (Err e, db)
        | Ok s' =>
            if match set_sku s' with
               | Some v =>
                   existsb (fun r => Str.eqb (sku r) v && negb (id r =? id committed))
                           (productos db)
               | None => false
               end
            then (Err IntegrityError, db)
            else
              (Ok tt,
               with_productos db
                 (rewrite (bind db) (id committed) (apply_update now s') (productos db)))
        end
  end.

(** [db.refresh(db_producto)]: the row that now has the key of the object. *)
Definition refresh (db : Session) (db_producto : Producto) : Producto :=
  or_keep (first (fun r => id r =? id db_producto) db) db_producto.

(** The rowid that SQLite gives to the next row: one more than the largest
    in use, 1 in a table without rows. *)
Definition next_rowid (rows : list Producto) : Z :=
  List.fold_right (fun r m => Z.max (id r + 1) m) 1 rows.

(** [db.delete(db_producto); db.commit()]: the rows with the key go.  The
    sequence of PostgreSQL does not go back; on SQLite the next key follows
    the largest that is left. *)
Definition delete_from (db : Session) (key : Z) : Session :=
  let rows := List.filter (fun r => negb (id r =? key)) (productos db) in
  {| bind := bind db;
     productos := rows;
     productos_id_seq :=
       match bind db with
       | postgresql => productos_id_seq db
       | sqlite => next_rowid rows
       end |}.

(** *** LIKE patterns *)

Inductive like_token : Type :=
| any_string          (* % *)
| any_char            (* _ *)
| literal (c : char).

(** The escape character of LIKE: a backslash on PostgreSQL, none on
    SQLite. *)
Definition like_escape (engine : dialect) : option char :=
  match engine with
  | postgresql => Some "\"%chr
  | sqlite => None
  end.

Definition is_escape (escape : option char) (c : char) : bool :=
  match escape with Some e => Str.eqb_char c e | None => false end.

Definition wildcard (c : char) : like_token :=
  if Str.eqb_char c "%" then any_string
  else if Str.eqb_char c "_" then any_char
  else literal c.

(** Reading a pattern: the escape character makes the character after it
    a literal; a pattern that ends in the escape character is refused. *)
Fixpoint like_tokens (escape : option char) (pattern : str)
  : option (list like_token) :=
  match pattern with
  | EmptyString => Some []
  | String c rest =>
      if is_escape escape c then
        match rest with
        | EmptyString => None
        | String d rest' => option_map (cons (literal d)) (like_tokens escape rest')
        end
      else option_map (cons (wildcard c)) (like_tokens escape rest)
  end.

(** [s LIKE pattern], on the tokens of the pattern: [_] stands for one
    character, [%] for any number of them. *)
Fixpoint like_match (pattern : list like_token) (s : str) {struct pattern} : bool :=
  match pattern with
  | [] => Str.is_empty s
  | literal c :: pattern' =>
      match s with
      | String d s' => Str.eqb_char d c && like_match pattern' s'
      | EmptyString => false
      end
  | any_char :: pattern' =>
      match s with
      | String _ s' => like_match pattern' s'
      | EmptyString => false
      end
  | any_string :: pattern' =>
      (fix from (s : str) : bool :=
         like_match pattern' s
         || match s with
            | String _ s' => from s'
            | EmptyString => false
            end) s
  end.

(** The case folding of [ilike]: PostgreSQL's ILIKE puts both operands in
    the lower case of the locale; for SQLite the operator is written
    [lower(a) LIKE lower(b)], with the [lower] of SQLite. *)
Definition ilike_fold `{CaseTables} (engine : dialect) (s : str) : str :=
  match engine with
  | postgresql => Str.lower s
  | sqlite => Str.lower_ascii s
  end.

(** ** app/crud/producto.py *)

Module ProductoCRUD.

(** [ProductoCRUD.create] *)
Definition create (db : Session) (now : Z) (producto : ProductoCreate.t)
  : result crud_error Producto * Session :=
  let existing_product :=
    first (fun r => Str.eqb (sku r) (ProductoCreate.sku producto)) db in
  match existing_product with
  | Some _ => (Err (ValueError (ProductoCreate.sku producto)), db)
  | None => insert db now producto
  end.

(** [ProductoCRUD.get_by_id] *)
Definition get_by_id (db : Session) (producto_id : Z) : option Producto :=
  first (fun r => id r =? producto_id) db.

(** [ProductoCRUD.get_by_sku] *)
Definition get_by_sku `{CaseTables} (db : Session) (sku_ : str) : option Producto :=
  first (fun r => Str.eqb (sku r) (Str.upper sku_)) db.

(** The truth value of a [str]: [if categoria:], [producto_update.sku and ..] *)
Definition truthy (s : str) : bool := negb (Str.is_empty s).

(** [ProductoCRUD.get_all] *)
Definition get_all (db : Session) (skip limit : Z)
           (categoria_ : option str) (disponible_ : option bool)
  : result crud_error (list Producto) :=
  let query := productos db in
  let query :=
    match categoria_ with
    | Some c =>
        if truthy c
        then List.filter (fun r => Str.eqb (categoria r) c) query
        else query
    | None => query
    end in
  let query :=
    match disponible_ with
    | Some d => List.filter (fun r => Bool.eqb (disponible r) d) query
    | None => query
    end in
  offset_limit (bind db) skip limit query.

(** [ProductoCRUD.count_all] *)
Definition count_all (db : Session)
           (categoria_ : option str) (disponible_ : option bool) : Z :=
  let query := productos db in
  let query :=
    match categoria_ with
    | Some c =>
        if truthy c
        then List.filter (fun r => Str.eqb (categoria r) c) query
        else query
    | None => query
    end in
  let query :=
    match disponible_ with
    | Some d => List.filter (fun r => Bool.eqb (disponible r) d) query
    | None => query
    end in
  Z.of_nat (List.length query).

(** [producto_update.sku and producto_update.sku != db_producto.sku] *)
Definition sku_changes (producto_update : ProductoUpdate.t) (db_producto : Producto)
  : option str :=
  match attr (ProductoUpdate.sku producto_update) with
  | Some s =>
      if truthy s && negb (Str.eqb s (sku db_producto))
      then Some s else None
  | None => None
  end.

(** [ProductoCRUD.update] *)
Definition update (db : Session) (now : Z) (producto_id : Z)
           (producto_update : ProductoUpdate.t)
  : result crud_error (option Producto) * Session :=
  match first (fun r => id r =? producto_id) db with
  | None => (Ok None, db)
  | Some db_producto =>
      let duplicate :=
        match sku_changes producto_update db_producto with
        | Some s =>
            match first (fun r => Str.eqb (sku r) s
                                  && negb (id r =? producto_id)) db with
            | Some existing_product => Some s
            | None => None
            end
        | None => None
        end in
      match duplicate with
      | Some s => (Err (ValueError s), db)
      | None =>
          let update_data := model_dump_exclude_unset producto_update in
          let modified := List.fold_left setattr update_data (loaded db_producto) in
          match commit_update db now db_producto modified with
          | (Err e, db') => (Err e, db')
          | (Ok _, db') => (Ok (Some (refresh db' db_producto)), db')
          end
      end
  end.

(** [ProductoCRUD.delete] *)
Definition delete (db : Session) (producto_id : Z) : bool * Session :=
  match first (fun r => id r =? producto_id) db with
  | None => (false, db)
  | Some db_producto => (true, delete_from db (id db_producto))
  end.

(** [ProductoCRUD.search_by_nombre]: the pattern is the search term
    between two [%]. *)
Definition search_by_nombre `{CaseTables} (db : Session) (nombre_ : str) (skip limit : Z)
  : result crud_error (list Producto) :=
  let pattern := "%" ++ nombre_ ++ "%" in
  match like_tokens (like_escape (bind db)) (ilike_fold (bind db) pattern) with
  | None => Err DataError
  | Some tokens =>
      offset_limit (bind db) skip limit
        (List.filter (fun r => like_match tokens (ilike_fold (bind db) (nombre r)))
                     (productos db))
  end.

End ProductoCRUD.

(** ** The response schemas of app/schemas/producto.py *)

Module ProductoResponse.

(** [ProductoResponse]: the fields of [ProductoBase], with the key and the
    two time stamps. *)
Record t : Type := mk {
  id : Z;
  nombre : str;
  sku : str;
  categoria : CategoriaProducto;
  precio_unitario : Decimal;
  stock : Z;
  disponible : bool;
  fecha_registro : Z;
  fecha_actualizacion : Z
}.

(** [ProductoResponse.model_validate(o)] with [from_attributes]: the
    attributes of the row go through the fields of [ProductoBase], its
    validators included. *)
Definition validate `{CaseTables} (o : Producto) : result ValidationError t :=
  match o with
  | mkProducto o_id o_nombre o_sku o_categoria o_precio o_stock o_disponible
               o_registro o_actualizacion =>
      let r_nombre := ProductoBase.field_nombre o_nombre in
      let r_sku := ProductoBase.field_sku o_sku in
      let r_categoria := ProductoBase.field_categoria o_categoria in
      let r_precio := ProductoBase.field_precio_unitario o_precio in
      let r_stock := ProductoBase.field_stock o_stock in
      match r_nombre, r_sku, r_categoria, r_precio, r_stock with
      | Ok n, Ok s, Ok c, Ok p, Ok k =>
          Ok (mk o_id n s c p k o_disponible o_registro o_actualizacion)
      | _, _, _, _, _ =>
          Err (failures "nombre" r_nombre ++ failures "sku" r_sku
               ++ failures "categoria" r_categoria
               ++ failures "precio_unitario" r_precio
               ++ failures "stock" r_stock)%list
      end
  end.

(** A list of rows as [list[ProductoResponse]]: every row is validated and
    every failure reported. *)
Fixpoint validate_all `{CaseTables} (rows : list Producto)
  : result ValidationError (list t) :=
  match rows with
  | [] => Ok []
  | o :: rows' =>
      match validate o, validate_all rows' with
      | Ok b, Ok bs => Ok (b :: bs)
      | Ok _, Err es => Err es
      | Err e, Ok _ => Err e
      | Err e, Err es => Err (e ++ es)%list
      end
  end.

End ProductoResponse.

Module ProductoListResponse.

Record t : Type := mk {
  items : list ProductoResponse.t;
  total : Z;
  page : Z;
  size : Z
}.

End ProductoListResponse.

(** ** app/database.py *)

(** The rows of [productos_prueba]; the prices, given as floats that two
    decimals write exactly, are what the column [Numeric(10, 2)] holds. *)
Definition productos_prueba : list ProductoCreate.t :=
  [ ProductoCreate.mk "Pan Francés" "PAN-0001" PAN (mkDecimal 125 (-2)) 120 true;
    ProductoCreate.mk "Croissant" "PAS-0101" PASTELERIA (mkDecimal 275 (-2)) 60 true;
    ProductoCreate.mk "Café Americano" "BEB-0201" BEBIDAS (mkDecimal 150 (-2)) 200 true;
    ProductoCreate.mk "Empanada de Pollo" "EMP-0301" OTROS (mkDecimal 300 (-2)) 50 true ].

(** [db.add(producto)] for each row, up to the first that the table
    refuses. *)
Fixpoint insert_all (db : Session) (now : Z) (rows : list ProductoCreate.t)
  : result crud_error Session :=
  match rows with
  | [] => Ok db
  | producto :: rows' =>
      match insert db now producto with
      | (Ok _, db') => insert_all db' now rows'
      | (Err e, _) => Err e
      end
  end.

(** [seed_database]: nothing is done when the table has a row; otherwise
    the four rows are inserted in one transaction, which is rolled back if a
    row is refused. *)
Definition seed_database (db : Session) (now : Z) : Session :=
  match first (fun _ => true) db with
  | Some existing_products => db
  | None =>
      match insert_all db now productos_prueba with
      | Ok db' => db'
      | Err _ => db
      end
  end.

(** ** app/routes/productos.py *)

(** The [detail] of an [HTTPException]. *)
Inductive detail : Type :=
| ya_existe (sku : str)             (* str(e): "El SKU {sku} ya existe" *)
| no_encontrado (producto_id : Z).  (* "Producto con ID {producto_id} no encontrado" *)

(** A query parameter outside the bounds declared with [Query]. *)
Inductive query_error : Type :=
| greater_than_equal (param : str) (ge : Z)
| less_than_equal (param : str) (le : Z).

(** What escapes a handler without being caught. *)
Inductive server_error : Type :=
| from_store (e : crud_error)
| ResponseValidationError (errors : ValidationError).

(** What a route answers: the declared status with a body, the
    [HTTPException] the handler raises, 422 when the body or the query
    parameters are refused before the handler runs, or an uncaught error
    (500). *)
Inductive outcome (A : Type) : Type :=
| Respond (status_code : Z) (body : A)
| HTTPException (status_code : Z) (d : detail)
| Unprocessable (body_errors : ValidationError) (query_errors : list query_error)
| Unhandled (e : server_error).
Arguments Respond {A} status_code body.
Arguments HTTPException {A} status_code d.
Arguments Unprocessable {A} body_errors query_errors.
Arguments Unhandled {A} e.

Definition status_code_of {A} (o : outcome A) : Z :=
  match o with
  | Respond status_code _ => status_code
  | HTTPException status_code _ => status_code
  | Unprocessable _ _ => 422
  | Unhandled _ => 500
  end.

Module Routes.

(** [skip: int = Query(0, ge=0)] *)
Definition query_skip (skip : Z) : list query_error :=
  if skip <? 0 then [greater_than_equal "skip" 0] else [].

(** [limit: int = Query(100, ge=1, le=1000)] *)
Definition query_limit (limit : Z) : list query_error :=
  if limit <? 1 then [greater_than_equal "limit" 1]
  else if 1000 <? limit then [less_than_equal "limit" 1000]
  else [].

(** [response_model=ProductoResponse] *)
Definition respond `{CaseTables} (status_code : Z) (producto : Producto)
  : outcome ProductoResponse.t :=
  match ProductoResponse.validate producto with
  | Ok body => Respond status_code body
  | Err errors => Unhandled (ResponseValidationError errors)
  end.

(** [crear_producto] *)
Definition crear_producto `{CaseTables} (db : Session) (now : Z)
           (body : ProductoCreate.payload)
  : outcome ProductoResponse.t * Session :=
  match ProductoCreate.validate body with
  | Err errors => (Unprocessable errors [], db)
  | Ok producto =>
      match ProductoCRUD.create db now producto with
      | (Ok db_producto, db') => (respond 201 db_producto, db')
      | (Err (ValueError s), db') => (HTTPException 400 (ya_existe s), db')
      | (Err e, db') => (Unhandled (from_store e), db')
      end
  end.

(** [listar_productos] *)
Definition listar_productos `{CaseTables} (db : Session) (skip limit : Z)
           (categoria_ : option str) (disponible_ : option bool)
  : outcome ProductoListResponse.t :=
  match (query_skip skip ++ query_limit limit)%list with
  | (_ :: _) as errors => Unprocessable [] errors
  | [] =>
      match ProductoCRUD.get_all db skip limit categoria_ disponible_ with
      | Err e => Unhandled (from_store e)
      | Ok productos_ =>
          let total := ProductoCRUD.count_all db categoria_ disponible_ in
          match ProductoResponse.validate_all productos_ with
          | Err errors => Unhandled (ResponseValidationError errors)
          | Ok items => Respond 200 (ProductoListResponse.mk items total (skip / limit + 1) limit)
          end
      end
  end.

(** [obtener_producto] *)
Definition obtener_producto `{CaseTables} (db : Session) (producto_id : Z)
  : outcome ProductoResponse.t :=
  match ProductoCRUD.get_by_id db producto_id with
  | None => HTTPException 404 (no_encontrado producto_id)
  | Some producto => respond 200 producto
  end.

(** [actualizar_producto] *)
Definition actualizar_producto `{CaseTables} (db : Session) (now : Z) (producto_id : Z)
           (body : ProductoUpdate.payload)
  : outcome ProductoResponse.t * Session :=
  match ProductoUpdate.validate body with
  | Err errors => (Unprocessable errors [], db)
  | Ok producto_update =>
      match ProductoCRUD.update db now producto_id producto_update with
      | (Ok None, db') => (HTTPException 404 (no_encontrado producto_id), db')
      | (Ok (Some producto), db') => (respond 200 producto, db')
      | (Err (ValueError s), db') => (HTTPException 400 (ya_existe s), db')
      | (Err e, db') => (Unhandled (from_store e), db')
      end
  end.

(** [eliminar_producto] *)
Definition eliminar_producto (db : Session) (producto_id : Z)
  : outcome unit * Session :=
  match ProductoCRUD.delete db producto_id with
  | (false, db') => (HTTPException 404 (no_encontrado producto_id), db')
  | (true, db') => (Respond 204 tt, db')
  end.

(** [buscar_productos] *)
Definition buscar_productos `{CaseTables} (db : Session) (nombre_ : str) (skip limit : Z)
  : outcome (list ProductoResponse.t) :=
  match (query_skip skip ++ query_limit limit)%list with
  | (_ :: _) as errors => Unprocessable [] errors
  | [] =>
      match ProductoCRUD.search_by_nombre db nombre_ skip limit with
      | Err e => Unhandled (from_store e)
      | Ok productos_ =>
          match ProductoResponse.validate_all productos_ with
          | Err errors => Unhandled (ResponseValidationError errors)
          | Ok items => Respond 200 items
          end
      end
  end.

End Routes.

(** * Vocabulary of the properties *)

(** Both schemas give the same verdict on a price and on a stock. *)
Definition precio_accepted (v : Decimal) : bool :=
  is_ok (ProductoBase.field_precio_unitario v)
  && is_ok (ProductoUpdate.field_precio_unitario (Given (Some v))).

Definition precio_rejected (v : Decimal) : bool :=
  negb (is_ok (ProductoBase.field_precio_unitario v))
  && negb (is_ok (ProductoUpdate.field_precio_unitario (Given (Some v)))).

Definition stock_accepted (v : Z) : bool :=
  is_ok (ProductoBase.field_stock v)
  && is_ok (ProductoUpdate.field_stock (Given (Some v))).

Definition stock_rejected (v : Z) : bool :=
  negb (is_ok (ProductoBase.field_stock v))
  && negb (is_ok (ProductoUpdate.field_stock (Given (Some v)))).

Definition is_some {A} (o : option A) : bool :=
  match o with Some _ => true | None => false end.

(** The filters of [get_all] and [count_all] on one row, as the code
    applies them: a category filter that is absent or empty selects every
    row. *)
Definition selects (categoria_ : option str) (disponible_ : option bool)
           (r : Producto) : bool :=
  match categoria_ with
  | Some c => if ProductoCRUD.truthy c then Str.eqb (categoria r) c else true
  | None => true
  end
  && match disponible_ with
     | Some d => Bool.eqb (disponible r) d
     | None => true
     end.

(** A row meets the filters: the category that is given and not empty, and
    the availability that is given. *)
Definition meets (categoria_ : option str) (disponible_ : option bool)
           (r : Producto) : Prop :=
  (forall c, categoria_ = Some c -> c <> "" -> categoria r = c)
  /\ (forall d, disponible_ = Some d -> disponible r = d).

(** [items] are the rows of [all] that satisfy [P], each as often as it is
    in [all] and in the order of [all]. *)
Inductive matching (P : Producto -> Prop) : list Producto -> list Producto -> Prop :=
| matching_nil : matching P [] []
| matching_keep (r : Producto) (all items : list Producto) :
    P r -> matching P all items -> matching P (r :: all) (r :: items)
| matching_skip (r : Producto) (all items : list Producto) :
    ~ P r -> matching P all items -> matching P (r :: all) items.

(** A page of a sequence: [items] comes after the first [skip] elements
    (or after all of them, when there are fewer) and holds the next [limit]
    elements (or all that remain). *)
Definition page_of (skip limit : Z) (all items : list Producto) : Prop :=
  exists before after : list Producto,
    all = (before ++ items ++ after)%list
    /\ List.length before = Nat.min (Z.to_nat skip) (List.length all)
    /\ List.length items =
       Nat.min (Z.to_nat limit) (List.length all - Z.to_nat skip)%nat.

(** A store with one row, a loaf of bread. *)
Definition pan_frances : Producto :=
  {| id := 1; nombre := "Pan Frances"; sku := "PAN-0001"; categoria := "Pan";
     precio_unitario := mkDecimal 125 (-2); stock := 120; disponible := true;
     fecha_registro := 100; fecha_actualizacion := 100 |}.

Definition panaderia : Session :=
  {| bind := postgresql; productos := [pan_frances]; productos_id_seq := 2 |}.

(** Two request bodies for the same loaf, the SKU in two letter cases. *)
Definition body_lower : ProductoCreate.payload :=
  ProductoCreate.mkPayload "Pan Frances" "pan-0001" "Pan" (mkDecimal 125 (-2)) 120 (Some true).

Definition body_upper : ProductoCreate.payload :=
  ProductoCreate.mkPayload "Pan de Agua" "PAN-0001" "Pan" (mkDecimal 150 (-2)) 10 None.

Definition empty_store : Session :=
  {| bind := sqlite; productos := []; productos_id_seq := 1 |}.

(** The attribute of the loaded object after the [setattr] loop: the
    value that the update gives, or the loaded value when the field is left
    out. *)
Definition current {A} (f : supplied A) (loaded_value : A) : option A :=
  match f with Unset => Some loaded_value | Given v => v end.

Definition supplied_map {A B} (g : A -> B) (f : supplied A) : supplied B :=
  match f with Unset => Unset | Given v => Given (option_map g v) end.

(** The update gives the field a value other than the stored one. *)
Definition changes {A} (is_equal : A -> A -> bool) (f : supplied A) (stored : A) : bool :=
  match f with
  | Unset => false
  | Given None => true
  | Given (Some v) => negb (is_equal v stored)
  end.

(** The update gives some field a value other than the stored one. *)
Definition supplies_change (u : ProductoUpdate.t) (r : Producto) : bool :=
  changes Str.eqb (ProductoUpdate.nombre u) (nombre r)
  || changes Str.eqb (ProductoUpdate.sku u) (sku r)
  || changes Str.eqb (supplied_map categoria_value (ProductoUpdate.categoria u))
             (categoria r)
  || changes Dec.eqb (ProductoUpdate.precio_unitario u) (precio_unitario r)
  || changes Z.eqb (ProductoUpdate.stock u) (stock r)
  || changes Bool.eqb (ProductoUpdate.disponible u) (disponible r).

(** The SET clause with the price as the column gives it back. *)
Definition at_scale (s : set_clause) : set_clause :=
  mkSet (set_nombre s) (set_sku s) (set_categoria s)
        (option_map Dec.quantize (set_precio_unitario s))
        (set_stock s) (set_disponible s).

(** A field that the update leaves out keeps its value. *)
Definition retained {A B} (f : supplied A) (before after : B) : Prop :=
  f = Unset -> after = before.

(** An update that supplies nothing, and one that supplies the stock. *)
Definition nothing_supplied : ProductoUpdate.t :=
  ProductoUpdate.mk Unset Unset Unset Unset Unset Unset.

Definition stock_supplied (k : Z) : ProductoUpdate.t :=
  ProductoUpdate.mk Unset Unset Unset Unset (Given (Some k)) Unset.

(** [needle] is at the start of [s]. *)
Fixpoint starts_with (needle s : str) : bool :=
  match needle, s with
  | EmptyString, _ => true
  | String c needle', String d s' => Str.eqb_char d c && starts_with needle' s'
  | String _ _, EmptyString => false
  end.

(** [needle] occurs in [s], character for character. *)
Fixpoint contains (needle s : str) : bool :=
  starts_with needle s
  || match s with
     | String _ s' => contains needle s'
     | EmptyString => false
     end.

(** [needle] occurs in [s], letter case aside. *)
Definition contains_ignoring_case `{CaseTables} (needle s : str) : bool :=
  contains (Str.lower needle) (Str.lower s).

(** [needle] occurs in [s], the letter case that the engine folds aside. *)
Definition contains_folded `{CaseTables} (engine : dialect) (needle s : str) : bool :=
  contains (ilike_fold engine needle) (ilike_fold engine s).

(** A text without the characters that a LIKE pattern reads specially. *)
Fixpoint plain (escape : option char) (s : str) : bool :=
  match s with
  | EmptyString => true
  | String c s' =>
      negb (is_escape escape c) && negb (Str.eqb_char c "%") && negb (Str.eqb_char c "_")
      && plain escape s'
  end.

Fixpoint literals (s : str) : list like_token :=
  match s with
  | EmptyString => []
  | String c s' => literal c :: literals s'
  end.

(** The one-row store on SQLite. *)
Definition panaderia_sqlite : Session :=
  {| bind := sqlite; productos := [pan_frances]; productos_id_seq := 2 |}.

(** Every row was last updated at or after its creation. *)
Definition stamps_ordered (db : Session) : Prop :=
  Forall (fun r => fecha_registro r <= fecha_actualizacion r) (productos db).

(** *** Vocabulary of the further properties *)

(** [disponible: bool = Field(default=True)] *)
Definition disponible_default (v : option bool) : bool :=
  match v with Some b => b | None => true end.

(** The body that spells out a validated create payload. *)
Definition body_of (p : ProductoCreate.t) : ProductoCreate.payload :=
  ProductoCreate.mkPayload
    (ProductoCreate.nombre p) (ProductoCreate.sku p)
    (categoria_value (ProductoCreate.categoria p))
    (ProductoCreate.precio_unitario p) (ProductoCreate.stock p)
    (Some (ProductoCreate.disponible p)).

(** The update body that supplies every field of a create body. *)
Definition full_update_body (raw : ProductoCreate.payload) : ProductoUpdate.payload :=
  ProductoUpdate.mkPayload
    (Given (Some (ProductoCreate.raw_nombre raw)))
    (Given (Some (ProductoCreate.raw_sku raw)))
    (Given (Some (ProductoCreate.raw_categoria raw)))
    (Given (Some (ProductoCreate.raw_precio_unitario raw)))
    (Given (Some (ProductoCreate.raw_stock raw)))
    (Given (Some (disponible_default (ProductoCreate.raw_disponible raw)))).

(** The update that supplies every field of a validated create payload. *)
Definition full_update (p : ProductoCreate.t) : ProductoUpdate.t :=
  ProductoUpdate.mk
    (Given (Some (ProductoCreate.nombre p)))
    (Given (Some (ProductoCreate.sku p)))
    (Given (Some (ProductoCreate.categoria p)))
    (Given (Some (ProductoCreate.precio_unitario p)))
    (Given (Some (ProductoCreate.stock p)))
    (Given (Some (ProductoCreate.disponible p))).

(** The constraints of the schemas, on the columns of a row. *)
Definition sku_valid `{CaseTables} (s : str) : Prop :=
  (3 <= Str.len s <= 20)%nat /\ Str.count "-" s = 1%nat /\ Str.upper s = s.

Definition precio_valid (d : Decimal) : Prop :=
  0 < coefficient d /\ -2 <= exponent d.

Definition row_valid `{CaseTables} (r : Producto) : Prop :=
  (1 <= Str.len (nombre r) <= 150)%nat
  /\ sku_valid (sku r)
  /\ (exists c, categoria r = categoria_value c)
  /\ precio_valid (precio_unitario r)
  /\ 0 <= stock r.

(** A table in order: keys and SKUs without repetition, keys below the
    value the next key is taken from, rows within the constraints of the
    schemas. *)
Definition catalog_ok `{CaseTables} (db : Session) : Prop :=
  NoDup (List.map id (productos db))
  /\ Forall (fun r => id r < productos_id_seq db) (productos db)
  /\ NoDup (List.map sku (productos db))
  /\ Forall row_valid (productos db).

(** What the service writes into the columns of a row.  The SKU is the
    upper case of a text that the schemas let through, of 3 to 20 characters
    with one hyphen; the upper case itself can be longer.  The price has two
    digits after the point. *)
Definition sku_stored `{CaseTables} (s : str) : Prop :=
  exists v, (3 <= Str.len v <= 20)%nat /\ Str.count "-" v = 1%nat /\ s = Str.upper v.

Definition precio_stored (d : Decimal) : Prop :=
  0 < coefficient d /\ exponent d = -2.

Definition row_stored `{CaseTables} (r : Producto) : Prop :=
  (1 <= Str.len (nombre r) <= 150)%nat
  /\ sku_stored (sku r)
  /\ (exists c, categoria r = categoria_value c)
  /\ precio_stored (precio_unitario r)
  /\ 0 <= stock r.

(** What the column types of PostgreSQL add to it. *)
Definition row_in_range (engine : dialect) (r : Producto) : Prop :=
  engine = postgresql ->
  (Str.len (sku r) <= 20)%nat
  /\ coefficient (precio_unitario r) < 10 ^ 10
  /\ stock r <= 2147483647.

(** The table as the service keeps it: keys and SKUs without repetition,
    keys below the value the next key is taken from, and in every row what
    the service writes. *)
Definition catalog_kept `{CaseTables} (db : Session) : Prop :=
  NoDup (List.map id (productos db))
  /\ Forall (fun r => id r < productos_id_seq db) (productos db)
  /\ NoDup (List.map sku (productos db))
  /\ Forall (fun r => row_stored r /\ row_in_range (bind db) r) (productos db).

(** The update gives [null] to some field. *)
Definition is_null {A} (f : supplied A) : bool :=
  match f with Given None => true | _ => false end.

Definition has_null (u : ProductoUpdate.t) : bool :=
  is_null (ProductoUpdate.nombre u) || is_null (ProductoUpdate.sku u)
  || is_null (ProductoUpdate.categoria u) || is_null (ProductoUpdate.precio_unitario u)
  || is_null (ProductoUpdate.stock u) || is_null (ProductoUpdate.disponible u).

(** The values that an update gives are values that the update schema
    returns. *)
Definition update_checked `{CaseTables} (u : ProductoUpdate.t) : Prop :=
  (forall v, ProductoUpdate.nombre u = Given (Some v) -> (1 <= Str.len v <= 150)%nat)
  /\ (forall v, ProductoUpdate.sku u = Given (Some v) -> sku_stored v)
  /\ (forall v, ProductoUpdate.precio_unitario u = Given (Some v) -> precio_valid v)
  /\ (forall v, ProductoUpdate.stock u = Given (Some v) -> 0 <= v).

(** The requests that write, and the service as a machine over the store:
    each request comes with the time of the store when it is served. *)
Inductive request : Type :=
| POST (body : ProductoCreate.payload)
| PUT (producto_id : Z) (body : ProductoUpdate.payload)
| DELETE (producto_id : Z).

Definition serve `{CaseTables} (db : Session) (timed : Z * request) : Session :=
  match timed with
  | (now, POST body) => snd (Routes.crear_producto db now body)
  | (now, PUT producto_id body) => snd (Routes.actualizar_producto db now producto_id body)
  | (_, DELETE producto_id) => snd (Routes.eliminar_producto db producto_id)
  end.

Definition serve_all `{CaseTables} (db : Session) (requests : list (Z * request))
  : Session :=
  List.fold_left serve requests db.

(** The times of the requests do not go back, from [start] on. *)
Fixpoint clock_monotone (start : Z) (requests : list (Z * request)) : Prop :=
  match requests with
  | [] => True
  | (now, _) :: rest => start <= now /\ clock_monotone now rest
  end.

(** Every row was created, and last updated, no later than [now], in this
    order. *)
Definition stamps_until (now : Z) (db : Session) : Prop :=
  Forall (fun r => fecha_registro r <= fecha_actualizacion r <= now) (productos db).

(** A store without rows. *)
Definition no_rows (seq : Z) (engine : dialect) : Session :=
  {| bind := engine; productos := []; productos_id_seq := seq |}.

(** Two update bodies: one that renames a SKU, one that gives [null]. *)
Definition sku_supplied (s : str) : ProductoUpdate.t :=
  ProductoUpdate.mk Unset (Given (Some s)) Unset Unset Unset Unset.

Definition stock_null : ProductoUpdate.t :=
  ProductoUpdate.mk Unset Unset Unset Unset (Given None) Unset.

(** A second row, and a store with both, on either engine. *)
Definition croissant : Producto :=
  {| id := 2; nombre := "Croissant"; sku := "PAS-0101"; categoria := "Otros";
     precio_unitario := mkDecimal 275 (-2); stock := 60; disponible := true;
     fecha_registro := 100; fecha_actualizacion := 100 |}.

Definition dos_productos : Session :=
  {| bind := sqlite; productos := [pan_frances; croissant]; productos_id_seq := 3 |}.

Definition dos_productos_pg : Session :=
  {| bind := postgresql; productos := [pan_frances; croissant]; productos_id_seq := 3 |}.

(** A store with one row whose name has an accent, on either engine. *)
Definition cafe : Producto :=
  {| id := 3; nombre := "Café Americano"; sku := "BEB-0201"; categoria := "Bebidas";
     precio_unitario := mkDecimal 150 (-2); stock := 200; disponible := true;
     fecha_registro := 100; fecha_actualizacion := 100 |}.

Definition cafeteria (engine : dialect) : Session :=
  {| bind := engine; productos := [cafe]; productos_id_seq := 4 |}.

(** Two bodies with one SKU in two letter cases, outside ASCII. *)
Definition body_enie_lower : ProductoCreate.payload :=
  ProductoCreate.mkPayload "Pan de Ñame" "ñam-0001" "Pan" (mkDecimal 15 (-1)) 12 None.

Definition body_enie_upper : ProductoCreate.payload :=
  ProductoCreate.mkPayload "Pan de Yuca" "ÑAM-0001" "Pan" (mkDecimal 2 0) 7 None.

(** * Properties *)

Section Properties.

Context `{tables : CaseTables}.

(** ** Text *)

Lemma eqb_char_refl (c : char) : Str.eqb_char c c = true.
Proof. apply N.eqb_refl. Qed.

Lemma eqb_char_eq (c d : char) : Str.eqb_char c d = true <-> c = d.
Proof.
  unfold Str.eqb_char. rewrite N.eqb_eq. destruct c as [n], d as [m]. simpl.
  split; [intros ->; reflexivity | intros H; now injection H].
Qed.

Lemma eqb_refl (s : str) : Str.eqb s s = true.
Proof. induction s as [|c s IH]; simpl; [reflexivity|]. now rewrite eqb_char_refl. Qed.

Lemma eqb_eq (a b : str) : Str.eqb a b = true <-> a = b.
Proof.
  revert b. induction a as [|c a IH]; intros [|d b]; simpl;
    try (split; [discriminate | discriminate]); [tauto|].
  rewrite andb_true_iff, eqb_char_eq, IH. split.
  - intros [-> ->]. reflexivity.
  - intros H. injection H as -> ->. now split.
Qed.

Lemma eqb_neq (a b : str) : Str.eqb a b = false <-> a <> b.
Proof.
  rewrite <- eqb_eq. destruct (Str.eqb a b); split; congruence.
Qed.

Lemma append_empty (a : str) : a ++ "" = a.
Proof. induction a as [|c a IH]; simpl; congruence. Qed.

Lemma append_assoc (a b c : str) : (a ++ b) ++ c = a ++ b ++ c.
Proof. induction a as [|d a IH]; simpl; congruence. Qed.

Lemma len_append (a b : str) : Str.len (a ++ b) = (Str.len a + Str.len b)%nat.
Proof. induction a as [|c a IH]; simpl; congruence. Qed.

Lemma count_append (c : char) (a b : str) :
  Str.count c (a ++ b) = (Str.count c a + Str.count c b)%nat.
Proof. induction a as [|d a IH]; simpl; [reflexivity|]. rewrite IH. lia. Qed.

Lemma is_empty_append (a b : str) :
  Str.is_empty (a ++ b) = Str.is_empty a && Str.is_empty b.
Proof. now destruct a. Qed.

Lemma split_not_nil (sep : char) (s : str) : Str.split sep s <> [].
Proof.
  destruct s as [|c s]; simpl; [discriminate|].
  destruct (Str.eqb_char c sep); [discriminate|].
  destruct (Str.split sep s); discriminate.
Qed.

(** [split] cuts at every separator: one piece more than separators. *)
Lemma split_length (sep : char) (s : str) :
  List.length (Str.split sep s) = S (Str.count sep s).
Proof.
  induction s as [|c s IH]; simpl; [reflexivity|].
  destruct (Str.eqb_char c sep); simpl.
  - now rewrite IH.
  - destruct (Str.split sep s) eqn:E; simpl in *; [discriminate | exact IH].
Qed.

(** The upper case of an ASCII character is one ASCII character, and a
    hyphen only if the character is one. *)
Lemma upper_char_ascii (c : char) :
  Str.is_ascii c = true ->
  Str.upper_char c = String (Str.ascii_upper c) ""
  /\ Str.is_ascii (Str.ascii_upper c) = true
  /\ Str.ascii_upper (Str.ascii_upper c) = Str.ascii_upper c
  /\ Str.eqb_char (Str.ascii_upper c) "-" = Str.eqb_char c "-".
Proof.
  intros H. unfold Str.upper_char. rewrite H. split; [reflexivity|].
  destruct c as [n]. unfold Str.is_ascii, Str.ascii_upper, Str.eqb_char in *. simpl in *.
  apply N.ltb_lt in H.
  destruct ((97 <=? n)%N && (n <=? 122)%N) eqn:E; simpl.
  - apply andb_true_iff in E. destruct E as [E1 E2].
    apply N.leb_le in E1, E2.
    replace ((97 <=? n - 32)%N) with false by (symmetry; apply N.leb_gt; lia).
    simpl. split; [apply N.ltb_lt; lia|]. split; [reflexivity|].
    replace ((n - 32 =? 45)%N) with false by (symmetry; apply N.eqb_neq; lia).
    symmetry. apply N.eqb_neq. lia.
  - rewrite E. split; [now apply N.ltb_lt|]. split; reflexivity.
Qed.

(** The hyphen is its own upper case, whatever the tables. *)
Lemma upper_char_hyphen : Str.upper_char "-" = "-".
Proof. reflexivity. Qed.

(** On ASCII text [upper] keeps the length and the hyphens, and changes
    nothing when applied again. *)
Lemma upper_isascii (s : str) :
  Str.isascii s = true ->
  Str.isascii (Str.upper s) = true
  /\ Str.len (Str.upper s) = Str.len s
  /\ Str.count "-" (Str.upper s) = Str.count "-" s
  /\ Str.upper (Str.upper s) = Str.upper s.
Proof.
  induction s as [|c s IH]; simpl; [intros _; repeat split|].
  rewrite andb_true_iff. intros [Hc Hs].
  destruct (IH Hs) as (IH1 & IH2 & IH3 & IH4).
  destruct (upper_char_ascii c Hc) as (-> & H1 & H2 & H3).
  simpl. rewrite H1, IH1, IH2, IH3, H3.
  repeat split.
  destruct (upper_char_ascii _ H1) as (-> & _). simpl. now rewrite H2, IH4.
Qed.

(** A text with a hyphen has an upper case that is not empty. *)
Lemma upper_not_empty (s : str) :
  Str.count "-" s <> 0%nat -> Str.is_empty (Str.upper s) = false.
Proof.
  induction s as [|c s IH]; simpl; [congruence|].
  rewrite is_empty_append.
  destruct (Str.eqb_char c "-") eqn:E.
  - apply eqb_char_eq in E. subst c. intros _. reflexivity.
  - simpl. intros H. rewrite (IH H). apply andb_false_r.
Qed.

(** ** The validation layer *)

(** What the SKU check of the schemas lets through: a text of 3 to 20
    characters with exactly one hyphen, returned in upper case. *)
Lemma field_sku_spec (v u : str) :
  ProductoBase.field_sku v = Ok u <->
  (3 <= Str.len v <= 20)%nat /\ Str.count "-" v = 1%nat /\ u = Str.upper v.
Proof.
  unfold ProductoBase.field_sku, str_constraints, and_then.
  destruct (Str.len v <? 3)%nat eqn:Hmin.
  { apply Nat.ltb_lt in Hmin. split; [discriminate | lia]. }
  apply Nat.ltb_ge in Hmin.
  destruct (20 <? Str.len v)%nat eqn:Hmax.
  { apply Nat.ltb_lt in Hmax. split; [discriminate | lia]. }
  apply Nat.ltb_ge in Hmax.
  unfold ProductoBase.validate_sku. rewrite split_length.
  destruct v as [|c v]; [simpl in Hmin; lia|]. cbn [Str.is_empty].
  destruct (S (Str.count "-" (String c v)) =? 2)%nat eqn:Hn; cbn [negb].
  - apply Nat.eqb_eq in Hn. split.
    + intros H. injection H as <-. repeat split; lia.
    + intros (_ & _ & ->). reflexivity.
  - apply Nat.eqb_neq in Hn. split; [discriminate | lia].
Qed.

(** The update schema checks a supplied SKU as the create schema does. *)
Lemma update_field_sku_value (v : str) :
  ProductoUpdate.field_sku (Given (Some v)) =
  match ProductoBase.field_sku v with
  | Ok u => Ok (Given (Some u))
  | Err e => Err e
  end.
Proof.
  unfold ProductoUpdate.field_sku, ProductoUpdate.field, ProductoUpdate.nullable,
    ProductoBase.field_sku, and_then.
  destruct (str_constraints 3 20 v) as [w|e]; [|reflexivity].
  unfold ProductoUpdate.validate_sku, ProductoBase.validate_sku.
  destruct (Str.is_empty w); [reflexivity|].
  destruct (negb _); reflexivity.
Qed.

(** C1 (the code departs from the claim): a SKU whose split on the hyphen
    has an empty piece passes the SKU check of both schemas, in upper case,
    where the claim has it refused: ["-AB"] and ["AB-"] are accepted on
    create and on update. *)
Theorem sku_empty_segment_accepted :
  ProductoBase.field_sku "-AB" = Ok "-AB"
  /\ ProductoBase.field_sku "AB-" = Ok "AB-"
  /\ ProductoUpdate.field_sku (Given (Some "-ab")) = Ok (Given (Some "-AB"))
  /\ ProductoUpdate.field_sku (Given (Some "ab-")) = Ok (Given (Some "AB-"))
  /\ Str.split "-" "-AB" = [""; "AB"]
  /\ Str.split "-" "AB-" = ["AB"; ""].
Proof. repeat split; reflexivity. Qed.

(** The price check of the create schema: a positive coefficient and an
    exponent of -2 or more. *)
Lemma field_precio_unitario_spec (v : Decimal) :
  ProductoBase.field_precio_unitario v =
  if 0 <? coefficient v
  then if exponent v <? -2 then Err precio_decimales else Ok v
  else Err greater_than_0.
Proof.
  unfold ProductoBase.field_precio_unitario, gt_0, Dec.gt_zero, and_then,
    ProductoBase.validate_precio, Dec.le_zero.
  destruct (0 <? coefficient v) eqn:Hpos; [|reflexivity].
  apply Z.ltb_lt in Hpos.
  destruct (coefficient v <=? 0) eqn:Hle; [apply Z.leb_le in Hle; lia | reflexivity].
Qed.

Lemma update_field_precio_unitario_value (v : Decimal) :
  ProductoUpdate.field_precio_unitario (Given (Some v)) =
  match ProductoBase.field_precio_unitario v with
  | Ok w => Ok (Given (Some w))
  | Err e => Err e
  end.
Proof.
  unfold ProductoUpdate.field_precio_unitario, ProductoUpdate.field,
    ProductoUpdate.nullable, ProductoBase.field_precio_unitario, and_then.
  destruct (gt_0 v) as [w|e]; [|reflexivity].
  unfold ProductoUpdate.validate_precio, ProductoBase.validate_precio.
  destruct (Dec.le_zero w); [reflexivity|].
  destruct (exponent w <? -2); reflexivity.
Qed.

Lemma field_stock_spec (v : Z) :
  ProductoBase.field_stock v = if 0 <=? v then Ok v else Err greater_than_equal_0.
Proof.
  unfold ProductoBase.field_stock, ge_0, and_then, ProductoBase.validate_stock.
  destruct (0 <=? v) eqn:H; [|reflexivity].
  apply Z.leb_le in H. destruct (v <? 0) eqn:H'; [apply Z.ltb_lt in H'; lia | reflexivity].
Qed.

Lemma update_field_stock_value (v : Z) :
  ProductoUpdate.field_stock (Given (Some v)) =
  match ProductoBase.field_stock v with
  | Ok w => Ok (Given (Some w))
  | Err e => Err e
  end.
Proof.
  unfold ProductoUpdate.field_stock, ProductoUpdate.field,
    ProductoUpdate.nullable, ProductoBase.field_stock, and_then.
  destruct (ge_0 v) as [w|e]; [|reflexivity].
  unfold ProductoUpdate.validate_stock, ProductoBase.validate_stock.
  destruct (w <? 0); reflexivity.
Qed.

(** A decimal written with at most two digits after the point is a whole
    number of hundredths. *)
Lemma hundredths_of_short_exponent (v : Decimal) :
  -2 <= exponent v -> Dec.is_hundredths v (coefficient v * 10 ^ (exponent v + 2)).
Proof.
  intros H. unfold Dec.is_hundredths.
  destruct (0 <=? exponent v + 2) eqn:E; [reflexivity | apply Z.leb_gt in E; lia].
Qed.

(** C4: the price is checked on the exact decimal (coefficient and
    exponent).  Zero and every value at or below zero are refused, 0.01 is
    accepted; every value with more than two digits after the point is
    refused, whether the digits are counted as written or as the value
    needs them, so 1.255 is refused and 1.25 accepted; a stock of -1 is
    refused and a stock of 0 accepted.  The create and the update schema
    agree on each. *)
Theorem precio_stock_boundaries :
  (forall v, coefficient v <= 0 -> precio_rejected v = true)
  /\ precio_rejected (mkDecimal 0 0) = true
  /\ precio_rejected (mkDecimal 0 (-2)) = true
  /\ precio_accepted (mkDecimal 1 (-2)) = true
  /\ (forall v, 2 < Dec.fractional_digits v -> precio_rejected v = true)
  /\ (forall v, (forall k, ~ Dec.is_hundredths v k) -> precio_rejected v = true)
  /\ precio_rejected (mkDecimal 1255 (-3)) = true
  /\ precio_accepted (mkDecimal 125 (-2)) = true
  /\ stock_rejected (-1) = true
  /\ stock_accepted 0 = true.
Proof.
  assert (Hexp : forall v, exponent v < -2 -> precio_rejected v = true).
  { intros v H. unfold precio_rejected.
    rewrite update_field_precio_unitario_value, field_precio_unitario_spec.
    destruct (0 <? coefficient v); [|reflexivity].
    apply Z.ltb_lt in H. now rewrite H. }
  repeat split; try reflexivity.
  - intros v H. unfold precio_rejected.
    rewrite update_field_precio_unitario_value, field_precio_unitario_spec.
    destruct (0 <? coefficient v) eqn:E; [apply Z.ltb_lt in E; lia | reflexivity].
  - intros v H. apply Hexp. unfold Dec.fractional_digits in H. lia.
  - intros v H. apply Hexp.
    destruct (Z_lt_le_dec (exponent v) (-2)) as [Hlt|Hge]; [exact Hlt|].
    exfalso. exact (H _ (hundredths_of_short_exponent v Hge)).
Qed.

Lemma precio_stock_boundaries_witness :
  precio_rejected (mkDecimal (-5) 0) = true
  /\ precio_rejected (mkDecimal 12345 (-4)) = true.
Proof.
  split.
  - apply (proj1 precio_stock_boundaries). simpl. lia.
  - apply (proj1 (proj2 (proj2 (proj2 (proj2 precio_stock_boundaries))))).
    vm_compute. reflexivity.
Defined.

(** ** The repository: reading *)

Lemma first_some (criterion : Producto -> bool) (db : Session) (r : Producto) :
  first criterion db = Some r -> In r (productos db) /\ criterion r = true.
Proof. apply List.find_some. Qed.

Lemma first_none (criterion : Producto -> bool) (db : Session) :
  first criterion db = None ->
  forall r, In r (productos db) -> criterion r = false.
Proof. apply List.find_none. Qed.

Lemma filter_both {A} (f g : A -> bool) (l : list A) :
  List.filter g (List.filter f l) = List.filter (fun x => f x && g x) l.
Proof.
  induction l as [|x l IH]; simpl; [reflexivity|].
  destruct (f x); simpl; [destruct (g x)|]; now rewrite IH.
Qed.

Lemma filter_all {A} (l : list A) : List.filter (fun _ => true) l = l.
Proof. induction l; simpl; congruence. Qed.

Lemma filter_ext' {A} (f g : A -> bool) (l : list A) :
  (forall x, f x = g x) -> List.filter f l = List.filter g l.
Proof.
  intros H. induction l as [|x l IH]; simpl; [reflexivity|].
  now rewrite H, IH.
Qed.

(** The two filters that [get_all] and [count_all] put on the query, one
    after the other, select the rows one by one and keep the scan order. *)
Lemma filters_select (rows : list Producto) (categoria_ : option str)
      (disponible_ : option bool) :
  match disponible_ with
  | Some d =>
      List.filter (fun r => Bool.eqb (disponible r) d)
        match categoria_ with
        | Some c =>
            if ProductoCRUD.truthy c
            then List.filter (fun r => Str.eqb (categoria r) c) rows
            else rows
        | None => rows
        end
  | None =>
      match categoria_ with
      | Some c =>
          if ProductoCRUD.truthy c
          then List.filter (fun r => Str.eqb (categoria r) c) rows
          else rows
      | None => rows
      end
  end
  = List.filter (selects categoria_ disponible_) rows.
Proof.
  unfold selects.
  destruct categoria_ as [c|]; [destruct (ProductoCRUD.truthy c)|];
    destruct disponible_ as [d|];
    rewrite ?filter_both; try reflexivity;
    try (apply filter_ext'; intros x; now rewrite ?andb_true_r);
    try (symmetry; apply filter_all).
Qed.

Lemma get_all_selects (db : Session) (skip limit : Z) (categoria_ : option str)
      (disponible_ : option bool) :
  ProductoCRUD.get_all db skip limit categoria_ disponible_ =
  offset_limit (bind db) skip limit
    (List.filter (selects categoria_ disponible_) (productos db)).
Proof.
  unfold ProductoCRUD.get_all. cbv zeta. f_equal. apply filters_select.
Qed.

Lemma count_all_selects (db : Session) (categoria_ : option str)
      (disponible_ : option bool) :
  ProductoCRUD.count_all db categoria_ disponible_ =
  Z.of_nat (List.length (List.filter (selects categoria_ disponible_) (productos db))).
Proof.
  unfold ProductoCRUD.count_all. cbv zeta. do 2 f_equal. apply filters_select.
Qed.

Lemma selects_meets (categoria_ : option str) (disponible_ : option bool)
      (r : Producto) :
  selects categoria_ disponible_ r = true <-> meets categoria_ disponible_ r.
Proof.
  unfold selects, meets, ProductoCRUD.truthy. rewrite andb_true_iff. split.
  - intros [Hc Hd]. split.
    + intros c -> Hne. destruct c as [|a c]; [congruence|].
      simpl in Hc. now apply eqb_eq in Hc.
    + intros d ->. now apply Bool.eqb_prop in Hd.
  - intros [Hc Hd]. split.
    + destruct categoria_ as [c|]; [|reflexivity].
      destruct c as [|a c]; [reflexivity|]. cbn [Str.is_empty negb].
      apply eqb_eq. apply Hc; [reflexivity | discriminate].
    + destruct disponible_ as [d|]; [|reflexivity].
      rewrite (Hd d eq_refl). apply Bool.eqb_reflx.
Qed.

(** What the filters select is what meets them, row by row. *)
Lemma filter_matching (categoria_ : option str) (disponible_ : option bool)
      (rows : list Producto) :
  matching (meets categoria_ disponible_) rows
           (List.filter (selects categoria_ disponible_) rows).
Proof.
  induction rows as [|r rows IH]; simpl; [constructor|].
  destruct (selects categoria_ disponible_ r) eqn:E.
  - apply matching_keep; [now apply selects_meets | exact IH].
  - apply matching_skip; [|exact IH].
    intros H. apply selects_meets in H. congruence.
Qed.

Lemma offset_limit_page (engine : dialect) (skip limit : Z) (query : list Producto) :
  0 <= skip -> 0 <= limit ->
  exists items,
    offset_limit engine skip limit query = Ok items /\ page_of skip limit query items.
Proof.
  intros Hs Hl.
  assert (Hpage : page_of skip limit query
                    (firstn (Z.to_nat limit) (skipn (Z.to_nat skip) query))).
  { exists (firstn (Z.to_nat skip) query),
           (skipn (Z.to_nat limit) (skipn (Z.to_nat skip) query)).
    repeat split.
    - now rewrite (firstn_skipn (Z.to_nat limit)), firstn_skipn.
    - apply List.length_firstn.
    - now rewrite List.length_firstn, List.length_skipn. }
  unfold offset_limit.
  destruct (skip <? 0) eqn:E1; [apply Z.ltb_lt in E1; lia|].
  destruct (limit <? 0) eqn:E2; [apply Z.ltb_lt in E2; lia|].
  destruct engine; simpl; eauto.
Qed.

(** From the start and with a limit that leaves nothing out, the whole
    query comes back. *)
Lemma offset_limit_whole (engine : dialect) (limit : Z) (query : list Producto) :
  Z.of_nat (List.length query) <= limit ->
  offset_limit engine 0 limit query = Ok query.
Proof.
  intros H. unfold offset_limit.
  destruct (limit <? 0) eqn:E; [apply Z.ltb_lt in E; lia|].
  destruct engine; simpl; (rewrite firstn_all2; [reflexivity | lia]).
Qed.

(** C7: [count_all] is the number of rows of the table that meet the
    filters, with the filter semantics of [get_all]: from the start and with
    a limit, within 64 bits, that leaves nothing out, [get_all] returns
    exactly the rows of the table that meet the filters, each once for each
    time it is in the table and in the order of the table, and [count_all]
    is their number. *)
Theorem count_all_is_length_of_list (db : Session) (categoria_ : option str)
        (disponible_ : option bool) (limit : Z) :
  ProductoCRUD.count_all db categoria_ disponible_ <= limit < 2 ^ 63 ->
  exists items,
    ProductoCRUD.get_all db 0 limit categoria_ disponible_ = Ok items
    /\ matching (meets categoria_ disponible_) (productos db) items
    /\ (forall r, In r items <-> In r (productos db) /\ meets categoria_ disponible_ r)
    /\ ProductoCRUD.count_all db categoria_ disponible_ = Z.of_nat (List.length items).
Proof.
  rewrite count_all_selects, get_all_selects. intros [H _].
  exists (List.filter (selects categoria_ disponible_) (productos db)).
  split; [now apply offset_limit_whole|].
  split; [apply filter_matching|].
  split; [|reflexivity].
  intros r. now rewrite filter_In, selects_meets.
Qed.



(** C10: the empty text as category filter is no category filter.
    [get_all] and [count_all] answer as they do without one; with no
    availability filter [count_all] is the number of rows of the table and
    [get_all] pages the whole table, so that, with a limit within 64 bits,
    it returns the whole table when the limit leaves nothing out, and the
    first row of a table that has one whatever the category of that row: it
    does not look for the rows whose category is the empty text. *)
Theorem empty_categoria_is_no_filter (db : Session) (skip limit : Z)
        (disponible_ : option bool) :
  ProductoCRUD.get_all db skip limit (Some "") disponible_
  = ProductoCRUD.get_all db skip limit None disponible_
  /\ ProductoCRUD.count_all db (Some "") disponible_
     = ProductoCRUD.count_all db None disponible_
  /\ ProductoCRUD.count_all db (Some "") None = Z.of_nat (List.length (productos db))
  /\ ProductoCRUD.get_all db skip limit (Some "") None
     = offset_limit (bind db) skip limit (productos db)
  /\ (Z.of_nat (List.length (productos db)) <= limit < 2 ^ 63 ->
      ProductoCRUD.get_all db 0 limit (Some "") None = Ok (productos db))
  /\ (forall r rows, productos db = r :: rows -> 1 <= limit < 2 ^ 63 ->
      exists items, ProductoCRUD.get_all db 0 limit (Some "") None = Ok (r :: items)).
Proof.
  split; [reflexivity|]. split; [reflexivity|]. split; [reflexivity|].
  split; [reflexivity|]. split.
  - intros [H _]. now apply offset_limit_whole.
  - intros r rows Hrows [Hl _]. unfold ProductoCRUD.get_all. cbn. rewrite Hrows.
    unfold offset_limit.
    destruct (limit <? 0) eqn:E; [apply Z.ltb_lt in E; lia|].
    destruct (Z.to_nat limit) as [|n] eqn:En; [lia|].
    destruct (bind db); simpl; eauto.
Qed.

Lemma count_all_is_length_of_list_witness :
  exists items,
    ProductoCRUD.get_all dos_productos_pg 0 100 (Some "Pan") (Some true) = Ok items
    /\ matching (meets (Some "Pan") (Some true)) (productos dos_productos_pg) items
    /\ (forall r, In r items <->
                  In r (productos dos_productos_pg) /\ meets (Some "Pan") (Some true) r)
    /\ ProductoCRUD.count_all dos_productos_pg (Some "Pan") (Some true)
       = Z.of_nat (List.length items).
Proof.
  apply (count_all_is_length_of_list dos_productos_pg (Some "Pan") (Some true) 100).
  split; [vm_compute; intros H; discriminate H | reflexivity].
Defined.


Lemma empty_categoria_is_no_filter_witness :
  ProductoCRUD.get_all dos_productos 0 10 (Some "") None = Ok [pan_frances; croissant]
  /\ ProductoCRUD.count_all dos_productos (Some "") None = 2
  /\ ProductoCRUD.get_all dos_productos 0 10 (Some "") (Some true)
     = ProductoCRUD.get_all dos_productos 0 10 None (Some true).
Proof.
  destruct (empty_categoria_is_no_filter dos_productos 0 10 (Some true))
    as (H1 & _ & H3 & _ & H5 & _).
  split; [apply H5; split; [simpl; lia | reflexivity]|]. split; [exact H3 | exact H1].
Defined.

(** ** The repository: writing *)

Lemma find_filter_none {A} (f : A -> bool) (l : list A) :
  List.find f (List.filter (fun x => negb (f x)) l) = None.
Proof.
  induction l as [|x l IH]; simpl; [reflexivity|].
  destruct (f x) eqn:E; simpl; [exact IH | now rewrite E].
Qed.

Lemma filter_none_found {A} (f : A -> bool) (l : list A) :
  List.find f l = None -> List.filter (fun x => negb (f x)) l = l.
Proof.
  induction l as [|x l IH]; simpl; [reflexivity|].
  destruct (f x); [discriminate|]. simpl. intros H. now rewrite IH.
Qed.

(** What [delete] leaves in the table: the rows with another key. *)
Lemma delete_productos (db : Session) (producto_id : Z) :
  productos (snd (ProductoCRUD.delete db producto_id)) =
  List.filter (fun r => negb (id r =? producto_id)) (productos db).
Proof.
  unfold ProductoCRUD.delete.
  destruct (first _ db) as [r|] eqn:E; simpl.
  - apply first_some in E. destruct E as [_ E]. apply Z.eqb_eq in E. now rewrite E.
  - symmetry. now apply (filter_none_found (fun r => id r =? producto_id)).
Qed.


Lemma find_app_last {A} (f : A -> bool) (l : list A) (x : A) :
  List.find f l = None ->
  List.find f (l ++ [x]) = if f x then Some x else None.
Proof.
  induction l as [|y l IH]; simpl; [reflexivity|].
  destruct (f y); [discriminate | exact IH].
Qed.

Lemma find_none_existsb {A} (f : A -> bool) (l : list A) :
  List.find f l = None -> existsb f l = false.
Proof.
  induction l as [|y l IH]; simpl; [reflexivity|].
  destruct (f y); [discriminate | exact IH].
Qed.

(** *** The types of the columns *)

(** A text that its column takes is held as it is. *)
Lemma varchar_ok (n : nat) (engine : dialect) (v s : str) :
  varchar n engine v = Ok s ->
  s = v /\ (engine = postgresql -> (Str.len v <= n)%nat).
Proof.
  unfold varchar. destruct engine.
  - destruct (Str.len v <=? n)%nat eqn:E; [|discriminate].
    apply Nat.leb_le in E. intros H. injection H as <-. now split.
  - intros H. injection H as <-. split; [reflexivity | discriminate].
Qed.

Lemma varchar_fits (n : nat) (engine : dialect) (v : str) :
  (Str.len v <= n)%nat -> varchar n engine v = Ok v.
Proof.
  intros H. unfold varchar. destruct engine; [|reflexivity].
  apply Nat.leb_le in H. now rewrite H.
Qed.

Lemma integer_ok (engine : dialect) (v k : Z) :
  integer engine v = Ok k ->
  k = v /\ (engine = postgresql -> -2147483648 <= v <= 2147483647).
Proof.
  unfold integer. destruct engine.
  - destruct ((-2147483648 <=? v) && (v <=? 2147483647)) eqn:E; [|discriminate].
    apply andb_true_iff in E. destruct E as [E1 E2]. apply Z.leb_le in E1, E2.
    intros H. injection H as <-. split; [reflexivity | lia].
  - intros H. injection H as <-. split; [reflexivity | discriminate].
Qed.

(** A price that its column takes comes back with two digits after the
    point. *)
Lemma numeric_10_2_ok (engine : dialect) (v p : Decimal) :
  numeric_10_2 engine v = Ok p ->
  p = Dec.quantize v /\ (engine = postgresql -> Dec.fits_10_2 v = true).
Proof.
  unfold numeric_10_2. destruct engine.
  - destruct (Dec.fits_10_2 v); [|discriminate].
    intros H. injection H as <-. now split.
  - intros H. injection H as <-. split; [reflexivity | discriminate].
Qed.

Lemma categoria_value_len (c : CategoriaProducto) :
  (Str.len (categoria_value c) <= 20)%nat.
Proof. destruct c; simpl; lia. Qed.

(** The price at scale 2 is the same number. *)
Lemma dec_eqb_quantize (v : Decimal) : Dec.eqb v (Dec.quantize v) = true.
Proof.
  unfold Dec.quantize, Dec.eqb.
  destruct (-2 <=? exponent v) eqn:E; cbn [coefficient exponent]; [|apply Z.eqb_refl].
  apply Z.leb_le in E. rewrite Z.min_r by lia.
  replace (exponent v - -2) with (exponent v + 2) by lia.
  replace (-2 - -2) with 0 by lia.
  rewrite Z.pow_0_r. apply Z.eqb_eq. lia.
Qed.

Lemma quantize_valid (v : Decimal) :
  0 < coefficient v -> -2 <= exponent v ->
  0 < coefficient (Dec.quantize v) /\ exponent (Dec.quantize v) = -2.
Proof.
  intros Hc He. unfold Dec.quantize.
  apply Z.leb_le in He. rewrite He. simpl. apply Z.leb_le in He.
  split; [|reflexivity]. apply Z.mul_pos_pos; [exact Hc|].
  apply Z.pow_pos_nonneg; lia.
Qed.

(** *** [create] *)

(** A validated create payload carries the SKU of the body in upper case. *)
Lemma validate_create_sku (raw : ProductoCreate.payload) (p : ProductoCreate.t) :
  ProductoCreate.validate raw = Ok p ->
  ProductoCreate.sku p = Str.upper (ProductoCreate.raw_sku raw).
Proof.
  unfold ProductoCreate.validate.
  destruct (ProductoBase.field_nombre _); [|discriminate].
  destruct (ProductoBase.field_sku _) as [u|] eqn:Hsku; [|discriminate].
  destruct (ProductoBase.field_categoria _); [|discriminate].
  destruct (ProductoBase.field_precio_unitario _); [|discriminate].
  destruct (ProductoBase.field_stock _); [|discriminate].
  intros H. injection H as <-. simpl.
  now apply field_sku_spec in Hsku.
Qed.

(** What the INSERT does: it is refused or it appends the row, which holds
    the fields of the payload, the price at scale 2, the next key and both
    time stamps. *)
Lemma insert_cases (db : Session) (now : Z) (producto : ProductoCreate.t) :
  (exists e, insert db now producto = (Err e, db)
             /\ ((e = DataError /\ bind db = postgresql)
                 \/ (e = IntegrityError
                     /\ existsb (fun r => Str.eqb (sku r) (ProductoCreate.sku producto))
                                (productos db) = true)))
  \/ (existsb (fun r => Str.eqb (sku r) (ProductoCreate.sku producto)) (productos db)
      = false
      /\ (bind db = postgresql ->
          (Str.len (ProductoCreate.nombre producto) <= 150)%nat
          /\ (Str.len (ProductoCreate.sku producto) <= 20)%nat
          /\ Dec.fits_10_2 (ProductoCreate.precio_unitario producto) = true
          /\ -2147483648 <= ProductoCreate.stock producto <= 2147483647)
      /\ insert db now producto
         = (Ok {| id := productos_id_seq db;
                  nombre := ProductoCreate.nombre producto;
                  sku := ProductoCreate.sku producto;
                  categoria := categoria_value (ProductoCreate.categoria producto);
                  precio_unitario := Dec.quantize (ProductoCreate.precio_unitario producto);
                  stock := ProductoCreate.stock producto;
                  disponible := ProductoCreate.disponible producto;
                  fecha_registro := now;
                  fecha_actualizacion := now |},
            {| bind := bind db;
               productos :=
                 productos db
                 ++ [{| id := productos_id_seq db;
                        nombre := ProductoCreate.nombre producto;
                        sku := ProductoCreate.sku producto;
                        categoria := categoria_value (ProductoCreate.categoria producto);
                        precio_unitario :=
                          Dec.quantize (ProductoCreate.precio_unitario producto);
                        stock := ProductoCreate.stock producto;
                        disponible := ProductoCreate.disponible producto;
                        fecha_registro := now;
                        fecha_actualizacion := now |}];
               productos_id_seq := productos_id_seq db + 1 |})).
Proof.
  unfold insert.
  assert (Hsqlite : forall n v, bind db = sqlite -> varchar n (bind db) v = Ok v).
  { intros n v ->. reflexivity. }
  destruct (varchar 150 (bind db) _) as [n|] eqn:En.
  2:{ left. exists DataError. split; [reflexivity|]. left. split; [reflexivity|].
      destruct (bind db) eqn:Eb; [reflexivity|]. rewrite Hsqlite in En; congruence. }
  destruct (varchar 20 (bind db) (ProductoCreate.sku producto)) as [s|] eqn:Es.
  2:{ left. exists DataError. split; [reflexivity|]. left. split; [reflexivity|].
      destruct (bind db) eqn:Eb; [reflexivity|]. rewrite Hsqlite in Es; congruence. }
  rewrite (varchar_fits 20 (bind db) _ (categoria_value_len _)).
  destruct (numeric_10_2 (bind db) _) as [p|] eqn:Ep.
  2:{ left. exists DataError. split; [reflexivity|]. left. split; [reflexivity|].
      destruct (bind db) eqn:Eb; [reflexivity | discriminate Ep]. }
  destruct (integer (bind db) _) as [k|] eqn:Ek.
  2:{ left. exists DataError. split; [reflexivity|]. left. split; [reflexivity|].
      destruct (bind db) eqn:Eb; [reflexivity | discriminate Ek]. }
  apply varchar_ok in En, Es. apply numeric_10_2_ok in Ep. apply integer_ok in Ek.
  destruct En as [-> Hn], Es as [-> Hs], Ep as [-> Hp], Ek as [-> Hk].
  destruct (existsb _ (productos db)) eqn:Ex.
  - left. exists IntegrityError. split; [reflexivity|]. right. now split.
  - right. split; [reflexivity|]. split; [|reflexivity]. intros Hb. auto.
Qed.

(** A SKU that a row already has: [create] raises its [ValueError] from the
    check it makes first, and writes nothing. *)
Lemma create_existing_sku (db : Session) (now : Z) (producto : ProductoCreate.t)
      (r : Producto) :
  In r (productos db) -> sku r = ProductoCreate.sku producto ->
  ProductoCRUD.create db now producto
  = (Err (ValueError (ProductoCreate.sku producto)), db).
Proof.
  intros Hin Hsku. unfold ProductoCRUD.create.
  destruct (first _ db) as [x|] eqn:E; [reflexivity|].
  apply first_none with (r := r) in E; [|exact Hin].
  rewrite Hsku, eqb_refl in E. discriminate E.
Qed.

(** A successful [create]: no row had the SKU, and the row that is
    returned is the one appended to the table, with the fields of the
    payload, the price at scale 2, the next key and both time stamps at
    [now]. *)
Lemma create_ok (db db' : Session) (now : Z) (producto : ProductoCreate.t)
      (r : Producto) :
  ProductoCRUD.create db now producto = (Ok r, db') ->
  first (fun x => Str.eqb (sku x) (ProductoCreate.sku producto)) db = None
  /\ r = {| id := productos_id_seq db;
            nombre := ProductoCreate.nombre producto;
            sku := ProductoCreate.sku producto;
            categoria := categoria_value (ProductoCreate.categoria producto);
            precio_unitario := Dec.quantize (ProductoCreate.precio_unitario producto);
            stock := ProductoCreate.stock producto;
            disponible := ProductoCreate.disponible producto;
            fecha_registro := now;
            fecha_actualizacion := now |}
  /\ db' = {| bind := bind db;
              productos := productos db ++ [r];
              productos_id_seq := productos_id_seq db + 1 |}
  /\ (bind db = postgresql ->
      (Str.len (ProductoCreate.sku producto) <= 20)%nat
      /\ Dec.fits_10_2 (ProductoCreate.precio_unitario producto) = true
      /\ -2147483648 <= ProductoCreate.stock producto <= 2147483647).
Proof.
  unfold ProductoCRUD.create.
  destruct (first _ db) as [x|] eqn:E; [discriminate|].
  destruct (insert_cases db now producto) as [(e & -> & _)|(_ & Hrange & ->)];
    [discriminate|].
  intros H. injection H as <- <-. repeat split; apply Hrange; assumption.
Qed.

(** Whatever error [create] ends with, it has written nothing; and the
    unique constraint of the table never fires under [create]: the check
    that [create] makes first covers it. *)
Lemma create_error (db : Session) (now : Z) (producto : ProductoCreate.t)
      (e : crud_error) :
  fst (ProductoCRUD.create db now producto) = Err e ->
  snd (ProductoCRUD.create db now producto) = db
  /\ (e = ValueError (ProductoCreate.sku producto)
      /\ (exists x, In x (productos db) /\ sku x = ProductoCreate.sku producto)
      \/ e = DataError /\ bind db = postgresql).
Proof.
  unfold ProductoCRUD.create.
  destruct (first _ db) as [x|] eqn:E; simpl.
  - intros H. injection H as <-. split; [reflexivity|]. left. split; [reflexivity|].
    apply first_some in E. destruct E as [Hin E]. apply eqb_eq in E. eauto.
  - unfold first in E. apply find_none_existsb in E.
    destruct (insert_cases db now producto)
      as [(e' & -> & [[-> Hb]|[_ Hx]])|(_ & _ & ->)]; simpl.
    + intros H. injection H as <-. split; [reflexivity|]. now right.
    + congruence.
    + discriminate.
Qed.


(** *** [update] *)

Lemma dec_eqb_refl (v : Decimal) : Dec.eqb v v = true.
Proof. unfold Dec.eqb. apply Z.eqb_refl. Qed.

(** The [setattr] loop over the dumped fields, attribute by attribute. *)
Lemma setattr_loop (u : ProductoUpdate.t) (r : Producto) :
  List.fold_left setattr (model_dump_exclude_unset u) (loaded r) =
  {| a_nombre := current (ProductoUpdate.nombre u) (nombre r);
     a_sku := current (ProductoUpdate.sku u) (sku r);
     a_categoria :=
       current (supplied_map categoria_value (ProductoUpdate.categoria u)) (categoria r);
     a_precio_unitario := current (ProductoUpdate.precio_unitario u) (precio_unitario r);
     a_stock := current (ProductoUpdate.stock u) (stock r);
     a_disponible := current (ProductoUpdate.disponible u) (disponible r) |}.
Proof.
  destruct u as [[|n] [|s] [|c] [|p] [|k] [|d]]; reflexivity.
Qed.

(** One column at flush time, read on the field of the update. *)
Lemma column_current {A} (is_equal : A -> A -> bool) (f : supplied A)
      (stored : A) (c : option A) :
  (forall x, is_equal x x = true) ->
  column is_equal (current f stored) stored = Ok c ->
  changes is_equal f stored = is_some c
  /\ retained f stored (or_keep c stored)
  /\ (forall v, f = Given (Some v) -> is_equal v (or_keep c stored) = true)
  /\ (f = Unset -> c = None)
  /\ (forall v, c = Some v -> f = Given (Some v) /\ is_equal v stored = false).
Proof.
  intros Hrefl. unfold column, current, changes, retained.
  destruct f as [|[v|]].
  - rewrite Hrefl. intros H. injection H as <-. simpl.
    split; [reflexivity|]. split; [reflexivity|].
    split; [discriminate|]. split; [reflexivity | discriminate].
  - destruct (is_equal v stored) eqn:E; intros H; injection H as <-; simpl.
    + split; [reflexivity|]. split; [discriminate|].
      split; [intros w Hw; injection Hw as <-; exact E|].
      split; [discriminate | discriminate].
    + split; [reflexivity|]. split; [discriminate|].
      split; [intros w Hw; injection Hw as <-; apply Hrefl|].
      split; [discriminate|].
      intros w Hw. injection Hw as <-. now split.
  - discriminate.
Qed.

(** The SET clause that the flush collects, column by column. *)
Lemma collect_update_columns (u : ProductoUpdate.t) (r0 : Producto) (s : set_clause) :
  collect_update (List.fold_left setattr (model_dump_exclude_unset u) (loaded r0)) r0
  = Ok s ->
  column Str.eqb (current (ProductoUpdate.nombre u) (nombre r0)) (nombre r0)
  = Ok (set_nombre s)
  /\ column Str.eqb (current (ProductoUpdate.sku u) (sku r0)) (sku r0)
     = Ok (set_sku s)
  /\ column Str.eqb
            (current (supplied_map categoria_value (ProductoUpdate.categoria u))
                     (categoria r0)) (categoria r0)
     = Ok (set_categoria s)
  /\ column Dec.eqb (current (ProductoUpdate.precio_unitario u) (precio_unitario r0))
            (precio_unitario r0)
     = Ok (set_precio_unitario s)
  /\ column Z.eqb (current (ProductoUpdate.stock u) (stock r0)) (stock r0)
     = Ok (set_stock s)
  /\ column Bool.eqb (current (ProductoUpdate.disponible u) (disponible r0))
            (disponible r0)
     = Ok (set_disponible s).
Proof.
  rewrite setattr_loop. unfold collect_update. simpl.
  destruct (column Str.eqb (current (ProductoUpdate.nombre u) _) _); [|discriminate].
  destruct (column Str.eqb (current (ProductoUpdate.sku u) _) _); [|discriminate].
  destruct (column Str.eqb (current (supplied_map _ _) _) _); [|discriminate].
  destruct (column Dec.eqb _ _); [|discriminate].
  destruct (column Z.eqb _ _); [|discriminate].
  destruct (column Bool.eqb _ _); [|discriminate].
  intros H. injection H as <-. simpl. repeat split.
Qed.

Lemma collect_update_error (o : attrs) (committed : Producto) (e : crud_error) :
  collect_update o committed = Err e -> e = IntegrityError.
Proof.
  unfold collect_update.
  destruct (column Str.eqb (a_nombre o) _); [|intros H; now injection H].
  destruct (column Str.eqb (a_sku o) _); [|intros H; now injection H].
  destruct (column Str.eqb (a_categoria o) _); [|intros H; now injection H].
  destruct (column Dec.eqb _ _); [|intros H; now injection H].
  destruct (column Z.eqb _ _); [|intros H; now injection H].
  destruct (column Bool.eqb _ _); [discriminate | intros H; now injection H].
Qed.

Lemma no_columns_is_some (s : set_clause) :
  no_columns s =
  negb (is_some (set_nombre s) || is_some (set_sku s) || is_some (set_categoria s)
        || is_some (set_precio_unitario s) || is_some (set_stock s)
        || is_some (set_disponible s)).
Proof. destruct s as [[|] [|] [|] [|] [|] [|]]; reflexivity. Qed.

(** Nothing is sent exactly when the update gives no field a value other
    than the stored one. *)
Lemma no_columns_supplies_change (u : ProductoUpdate.t) (r0 : Producto)
      (s : set_clause) :
  collect_update (List.fold_left setattr (model_dump_exclude_unset u) (loaded r0)) r0
  = Ok s ->
  no_columns s = negb (supplies_change u r0).
Proof.
  intros H. apply collect_update_columns in H.
  destruct H as (Hn & Hs & Hc & Hp & Hk & Hd).
  apply column_current in Hn; [|apply eqb_refl].
  apply column_current in Hs; [|apply eqb_refl].
  apply column_current in Hc; [|apply eqb_refl].
  apply column_current in Hp; [|apply dec_eqb_refl].
  apply column_current in Hk; [|apply Z.eqb_refl].
  apply column_current in Hd; [|intros []; reflexivity].
  rewrite no_columns_is_some. unfold supplies_change.
  destruct Hn as [-> _], Hs as [-> _], Hc as [-> _], Hp as [-> _],
           Hk as [-> _], Hd as [-> _].
  reflexivity.
Qed.

(** A column of the SET clause is refused, by PostgreSQL only, or held:
    as it is, or, for the price, at scale 2. *)
Lemma held_as_is {A} (type_ : A -> result crud_error A) (engine : dialect)
      (P : A -> Prop) (v : option A) :
  (forall a b, type_ a = Ok b -> b = a /\ (engine = postgresql -> P a)) ->
  (forall a, type_ a = Err DataError \/ exists b, type_ a = Ok b) ->
  (engine = sqlite -> forall a, exists b, type_ a = Ok b) ->
  (held type_ v = Err DataError /\ engine = postgresql)
  \/ (held type_ v = Ok v /\ (engine = postgresql -> forall a, v = Some a -> P a)).
Proof.
  intros Hok Hcases Hsqlite. destruct v as [a|]; simpl.
  2:{ right. split; [reflexivity|]. intros _ a H. discriminate H. }
  destruct (Hcases a) as [E|[b E]]; rewrite E.
  - left. split; [reflexivity|]. destruct engine; [reflexivity|].
    destruct (Hsqlite eq_refl a) as [b' E']. congruence.
  - destruct (Hok a b E) as [-> HP]. right. split; [reflexivity|].
    intros Hb a' H. injection H as <-. auto.
Qed.

Lemma held_varchar (n : nat) (engine : dialect) (v : option str) :
  (held (varchar n engine) v = Err DataError /\ engine = postgresql)
  \/ (held (varchar n engine) v = Ok v
      /\ (engine = postgresql -> forall a, v = Some a -> (Str.len a <= n)%nat)).
Proof.
  apply held_as_is.
  - intros a b. apply varchar_ok.
  - intros a. unfold varchar. destruct engine; [destruct (_ <=? _)%nat|]; eauto.
  - intros -> a. simpl. eauto.
Qed.

Lemma held_integer (engine : dialect) (v : option Z) :
  (held (integer engine) v = Err DataError /\ engine = postgresql)
  \/ (held (integer engine) v = Ok v
      /\ (engine = postgresql ->
          forall a, v = Some a -> -2147483648 <= a <= 2147483647)).
Proof.
  apply held_as_is.
  - intros a b. apply integer_ok.
  - intros a. unfold integer. destruct engine; [destruct (_ && _)|]; eauto.
  - intros -> a. simpl. eauto.
Qed.

Lemma held_numeric_10_2 (engine : dialect) (v : option Decimal) :
  (held (numeric_10_2 engine) v = Err DataError /\ engine = postgresql)
  \/ (held (numeric_10_2 engine) v = Ok (option_map Dec.quantize v)
      /\ (engine = postgresql -> forall a, v = Some a -> Dec.fits_10_2 a = true)).
Proof.
  destruct v as [a|]; simpl.
  2:{ right. split; [reflexivity|]. intros _ a H. discriminate H. }
  unfold numeric_10_2. destruct engine.
  - destruct (Dec.fits_10_2 a) eqn:E; [right | left; now split].
    split; [reflexivity|]. intros _ a' H. now injection H as <-.
  - right. split; [reflexivity | discriminate].
Qed.

(** The SET clause that the column types take is held as it is, the price
    at scale 2; only PostgreSQL refuses one. *)
Lemma coerce_cases (engine : dialect) (s : set_clause) :
  (coerce engine s = Err DataError /\ engine = postgresql)
  \/ (coerce engine s = Ok (at_scale s)
      /\ (engine = postgresql ->
          (forall v, set_nombre s = Some v -> (Str.len v <= 150)%nat)
          /\ (forall v, set_sku s = Some v -> (Str.len v <= 20)%nat)
          /\ (forall v, set_precio_unitario s = Some v -> Dec.fits_10_2 v = true)
          /\ (forall v, set_stock s = Some v -> -2147483648 <= v <= 2147483647))).
Proof.
  unfold coerce, at_scale.
  destruct (held_varchar 150 engine (set_nombre s)) as [[-> Hb]|[-> Hn]];
    [left; now split|].
  destruct (held_varchar 20 engine (set_sku s)) as [[-> Hb]|[-> Hk]];
    [left; now split|].
  destruct (held_varchar 20 engine (set_categoria s)) as [[-> Hb]|[-> Hc]];
    [left; now split|].
  destruct (held_numeric_10_2 engine (set_precio_unitario s)) as [[-> Hb]|[-> Hp]];
    [left; now split|].
  destruct (held_integer engine (set_stock s)) as [[-> Hb]|[-> Hq]];
    [left; now split|].
  right. split; [reflexivity|]. intros Hb. auto.
Qed.

(** *** Where the UPDATE leaves the row *)

Lemma find_map_key (k : Z) (g : Producto -> Producto) (l : list Producto)
      (r0 : Producto) :
  (forall r, id (g r) = id r) ->
  List.find (fun r => id r =? k) l = Some r0 ->
  List.find (fun r => id r =? k)
            (List.map (fun r => if id r =? k then g r else r) l) = Some (g r0).
Proof.
  intros Hid. induction l as [|x l IH]; simpl; [discriminate|].
  destruct (id x =? k) eqn:E.
  - intros H. injection H as <-. now rewrite Hid, E.
  - now rewrite E.
Qed.

Lemma find_app {A} (f : A -> bool) (l l' : list A) :
  List.find f (l ++ l') =
  match List.find f l with Some x => Some x | None => List.find f l' end.
Proof.
  induction l as [|x l IH]; simpl; [reflexivity|]. now destruct (f x).
Qed.

Lemma find_map_filter_key (k : Z) (g : Producto -> Producto) (l : list Producto) :
  (forall r, id (g r) = id r) ->
  List.find (fun r => id r =? k) (List.map g (List.filter (fun r => id r =? k) l))
  = option_map g (List.find (fun r => id r =? k) l).
Proof.
  intros Hid. induction l as [|x l IH]; simpl; [reflexivity|].
  destruct (id x =? k) eqn:E; simpl; [|exact IH]. now rewrite Hid, E.
Qed.

(** After the UPDATE, the key of the row finds its new version. *)
Lemma find_rewrite_key (engine : dialect) (k : Z) (g : Producto -> Producto)
      (l : list Producto) (r0 : Producto) :
  (forall r, id (g r) = id r) ->
  List.find (fun r => id r =? k) l = Some r0 ->
  List.find (fun r => id r =? k) (rewrite engine k g l) = Some (g r0).
Proof.
  intros Hid Hfind. destruct engine; simpl.
  - rewrite find_app, (find_filter_none (fun r => id r =? k)).
    now rewrite find_map_filter_key, Hfind.
  - now apply find_map_key.
Qed.

(** The other keys find what they found. *)
Lemma find_rewrite_other (engine : dialect) (k k' : Z) (g : Producto -> Producto)
      (l : list Producto) :
  (forall r, id (g r) = id r) -> k' <> k ->
  List.find (fun r => id r =? k') (rewrite engine k g l)
  = List.find (fun r => id r =? k') l.
Proof.
  intros Hid Hk. destruct engine; simpl.
  - rewrite find_app.
    assert (Hnone : List.find (fun r => id r =? k')
                              (List.map g (List.filter (fun r => id r =? k) l)) = None).
    { induction l as [|x l IH]; simpl; [reflexivity|].
      destruct (id x =? k) eqn:E; simpl; [|exact IH].
      rewrite Hid. apply Z.eqb_eq in E. rewrite E.
      replace (k =? k') with false; [exact IH|]. symmetry. apply Z.eqb_neq. congruence. }
    rewrite Hnone. clear Hnone.
    induction l as [|x l IH]; simpl; [reflexivity|].
    destruct (id x =? k) eqn:E; simpl.
    + apply Z.eqb_eq in E. rewrite E.
      replace (k =? k') with false; [exact IH|]. symmetry. apply Z.eqb_neq. congruence.
    + destruct (id x =? k'); [reflexivity | exact IH].
  - induction l as [|x l IH]; simpl; [reflexivity|].
    destruct (id x =? k) eqn:E.
    + rewrite Hid. apply Z.eqb_eq in E. rewrite E.
      replace (k =? k') with false; [exact IH|]. symmetry. apply Z.eqb_neq. congruence.
    + destruct (id x =? k'); [reflexivity | exact IH].
Qed.

(** The rows after the UPDATE: the rows with another key, and the new
    versions of the rows with the key. *)
Lemma in_rewrite (engine : dialect) (k : Z) (g : Producto -> Producto)
      (l : list Producto) (x : Producto) :
  In x (rewrite engine k g l) <->
  (In x l /\ id x <> k) \/ (exists y, In y l /\ id y = k /\ x = g y).
Proof.
  destruct engine; simpl.
  - rewrite in_app_iff, filter_In, in_map_iff, negb_true_iff, Z.eqb_neq.
    split.
    + intros [H|(y & <- & Hy)]; [now left|].
      apply filter_In in Hy. rewrite Z.eqb_eq in Hy. right. exists y. tauto.
    + intros [H|(y & Hy & Hk & ->)]; [now left|].
      right. exists y. split; [reflexivity|]. apply filter_In.
      rewrite Z.eqb_eq. tauto.
  - rewrite in_map_iff. split.
    + intros (y & <- & Hy). destruct (id y =? k) eqn:E.
      * apply Z.eqb_eq in E. right. eauto.
      * apply Z.eqb_neq in E. now left.
    + intros [[H Hk]|(y & Hy & Hk & ->)].
      * exists x. apply Z.eqb_neq in Hk. now rewrite Hk.
      * exists y. apply Z.eqb_eq in Hk. now rewrite Hk.
Qed.

Lemma filter_partition {A} (f : A -> bool) (l : list A) :
  Permutation (List.filter (fun x => negb (f x)) l ++ List.filter f l) l.
Proof.
  induction l as [|x l IH]; simpl; [constructor|].
  destruct (f x); simpl.
  - apply Permutation_sym, Permutation_cons_app, Permutation_sym, IH.
  - now constructor.
Qed.

(** The UPDATE keeps the keys of the table; SQLite keeps their order. *)
Lemma rewrite_keys (engine : dialect) (k : Z) (g : Producto -> Producto)
      (l : list Producto) :
  (forall r, id (g r) = id r) ->
  Permutation (List.map id (rewrite engine k g l)) (List.map id l)
  /\ (engine = sqlite -> List.map id (rewrite engine k g l) = List.map id l).
Proof.
  intros Hid.
  assert (Hsqlite : List.map id (rewrite sqlite k g l) = List.map id l).
  { simpl. rewrite map_map. apply map_ext. intros x. destruct (id x =? k); auto. }
  destruct engine.
  - split; [|discriminate]. simpl. rewrite map_app, map_map.
    rewrite (map_ext (fun x => id (g x)) id) by exact Hid.
    rewrite <- map_app. apply Permutation_map, filter_partition.
  - split; [now rewrite Hsqlite | intros _; exact Hsqlite].
Qed.

(** *** What [update] does *)

Lemma update_found (db : Session) (now producto_id : Z) (u : ProductoUpdate.t)
      (r0 : Producto) :
  ProductoCRUD.get_by_id db producto_id = Some r0 ->
  ProductoCRUD.update db now producto_id u =
  match ProductoCRUD.sku_changes u r0 with
  | Some s =>
      match first (fun r => Str.eqb (sku r) s && negb (id r =? producto_id)) db with
      | Some _ => (Err (ValueError s), db)
      | None =>
          match commit_update db now r0
                  (List.fold_left setattr (model_dump_exclude_unset u) (loaded r0)) with
          | (Err e, db') => (Err e, db')
          | (Ok _, db') => (Ok (Some (refresh db' r0)), db')
          end
      end
  | None =>
      match commit_update db now r0
              (List.fold_left setattr (model_dump_exclude_unset u) (loaded r0)) with
      | (Err e, db') => (Err e, db')
      | (Ok _, db') => (Ok (Some (refresh db' r0)), db')
      end
  end.
Proof.
  unfold ProductoCRUD.get_by_id, ProductoCRUD.update. intros ->.
  destruct (ProductoCRUD.sku_changes u r0) as [s|]; [|reflexivity].
  now destruct (first _ db).
Qed.

(** The three ways the commit of an update ends: refused, with the store as
    it was; nothing to write; or the UPDATE, with the SET clause as the
    columns hold it and a SKU that no other row has. *)
Lemma commit_update_cases (db : Session) (now : Z) (r0 : Producto) (o : attrs) :
  (exists e, commit_update db now r0 o = (Err e, db)
             /\ (e = IntegrityError \/ e = DataError /\ bind db = postgresql))
  \/ (exists s, collect_update o r0 = Ok s /\ no_columns s = true
                /\ commit_update db now r0 o = (Ok tt, db))
  \/ (exists s, collect_update o r0 = Ok s /\ no_columns s = false
                /\ coerce (bind db) s = Ok (at_scale s)
                /\ (forall v x, set_sku s = Some v -> In x (productos db) ->
                                sku x = v -> id x = id r0)
                /\ commit_update db now r0 o
                   = (Ok tt,
                      with_productos db
                        (rewrite (bind db) (id r0) (apply_update now (at_scale s))
                                 (productos db)))).
Proof.
  unfold commit_update.
  destruct (collect_update o r0) as [s|e] eqn:Hs.
  2:{ left. exists e. split; [reflexivity|]. left. now apply collect_update_error in Hs. }
  destruct (no_columns s) eqn:Hnone.
  { right. left. exists s. auto. }
  destruct (coerce_cases (bind db) s) as [[Hco Hb]|[Hco _]]; rewrite Hco.
  { left. exists DataError. split; [reflexivity|]. right. now split. }
  cbn [at_scale set_sku].
  destruct (match set_sku s with Some _ => _ | None => _ end) eqn:Hu.
  { left. exists IntegrityError. split; [reflexivity|]. now left. }
  right. right. exists s.
  split; [reflexivity|]. split; [exact Hnone|]. split; [exact Hco|].
  split; [|reflexivity].
  intros v x Hv Hx Hsku. rewrite Hv in Hu.
  destruct (id x =? id r0) eqn:E; [now apply Z.eqb_eq in E|].
  exfalso. assert (Hex : existsb
    (fun r => Str.eqb (sku r) v && negb (id r =? id r0)) (productos db) = true).
  { apply existsb_exists. exists x. split; [exact Hx|].
    now rewrite Hsku, eqb_refl, E. }
  rewrite Hex in Hu. discriminate Hu.
Qed.

Lemma get_by_id_key (db : Session) (producto_id : Z) (r0 : Producto) :
  ProductoCRUD.get_by_id db producto_id = Some r0 -> id r0 = producto_id.
Proof.
  unfold ProductoCRUD.get_by_id. intros H. apply first_some in H.
  destruct H as [_ H]. now apply Z.eqb_eq in H.
Qed.

(** A successful [update] is a commit that went through, read back. *)
Lemma update_commits (db db' : Session) (now producto_id : Z) (u : ProductoUpdate.t)
      (r0 r : Producto) :
  ProductoCRUD.get_by_id db producto_id = Some r0 ->
  ProductoCRUD.update db now producto_id u = (Ok (Some r), db') ->
  commit_update db now r0
    (List.fold_left setattr (model_dump_exclude_unset u) (loaded r0)) = (Ok tt, db')
  /\ r = refresh db' r0.
Proof.
  intros Hget. rewrite (update_found _ _ _ _ _ Hget).
  destruct (ProductoCRUD.sku_changes u r0) as [s|];
    [destruct (first _ db); [discriminate|]|];
    destruct (commit_update db now r0 _) as [[[]|e] d]; intros H;
    try discriminate H; injection H as <- <-; split; reflexivity.
Qed.

(** The two ways [update] succeeds on a row it finds: nothing has a net
    change and nothing is written, or the UPDATE goes out, rewrites the row
    and stamps it. *)
Lemma update_ok (db db' : Session) (now producto_id : Z) (u : ProductoUpdate.t)
      (r0 r : Producto) :
  ProductoCRUD.get_by_id db producto_id = Some r0 ->
  ProductoCRUD.update db now producto_id u = (Ok (Some r), db') ->
  exists s,
    collect_update (List.fold_left setattr (model_dump_exclude_unset u) (loaded r0)) r0
    = Ok s
    /\ ((no_columns s = true /\ db' = db /\ r = r0)
        \/ (no_columns s = false
            /\ coerce (bind db) s = Ok (at_scale s)
            /\ (forall v x, set_sku s = Some v -> In x (productos db) ->
                            sku x = v -> id x = producto_id)
            /\ r = apply_update now (at_scale s) r0
            /\ db' = with_productos db
                       (rewrite (bind db) producto_id (apply_update now (at_scale s))
                                (productos db))))
    /\ ProductoCRUD.get_by_id db' producto_id = Some r.
Proof.
  intros Hget Hupd.
  destruct (update_commits _ _ _ _ _ _ _ Hget Hupd) as [Hcommit ->].
  pose proof (get_by_id_key _ _ _ Hget) as Hid.
  unfold ProductoCRUD.get_by_id in *.
  destruct (commit_update_cases db now r0
              (List.fold_left setattr (model_dump_exclude_unset u) (loaded r0)))
    as [(e & He & _)|[(s & Hs & Hnone & He)|(s & Hs & Hnone & Hco & Hfree & He)]];
    rewrite He in Hcommit.
  - discriminate Hcommit.
  - injection Hcommit as <-. exists s. split; [exact Hs|].
    unfold refresh. rewrite Hid, Hget. simpl.
    split; [left; repeat split; assumption | reflexivity].
  - injection Hcommit as <-. rewrite Hid in *. exists s. split; [exact Hs|].
    assert (Hfound :
      first (fun x => id x =? producto_id)
            (with_productos db
               (rewrite (bind db) producto_id (apply_update now (at_scale s))
                        (productos db)))
      = Some (apply_update now (at_scale s) r0)).
    { unfold first. simpl. apply find_rewrite_key; [reflexivity | exact Hget]. }
    unfold refresh. rewrite Hid, Hfound. simpl.
    split; [right | reflexivity].
    split; [exact Hnone|]. split; [exact Hco|]. split; [exact Hfree|].
    split; reflexivity.
Qed.

(** The columns of the record that a successful [update] returns, on the
    SET clause that was collected: besides the time stamp of the update,
    each column is the one of the clause or the stored one. *)
Lemma update_columns (db db' : Session) (now producto_id : Z) (u : ProductoUpdate.t)
      (r0 r : Producto) :
  ProductoCRUD.get_by_id db producto_id = Some r0 ->
  ProductoCRUD.update db now producto_id u = (Ok (Some r), db') ->
  exists s,
    collect_update (List.fold_left setattr (model_dump_exclude_unset u) (loaded r0)) r0
    = Ok s
    /\ id r = id r0
    /\ fecha_registro r = fecha_registro r0
    /\ nombre r = or_keep (set_nombre s) (nombre r0)
    /\ sku r = or_keep (set_sku s) (sku r0)
    /\ categoria r = or_keep (set_categoria s) (categoria r0)
    /\ precio_unitario r
       = or_keep (option_map Dec.quantize (set_precio_unitario s)) (precio_unitario r0)
    /\ stock r = or_keep (set_stock s) (stock r0)
    /\ disponible r = or_keep (set_disponible s) (disponible r0).
Proof.
  intros Hget Hupd.
  destruct (update_ok _ _ _ _ _ _ _ Hget Hupd)
    as (s & Hs & [(Hnone & _ & ->)|(_ & _ & _ & -> & _)] & _);
    exists s; (split; [exact Hs|]).
  - destruct s as [[|] [|] [|] [|] [|] [|]]; try discriminate Hnone.
    simpl. repeat split.
  - simpl. repeat split.
Qed.



(** C2 (as the code has it): [fecha_actualizacion] comes from the
    [onupdate] of the column, which acts when an UPDATE goes out.  A
    successful [update] that gives some field a value other than the stored
    one stamps the record with the current time, so that the stamp moves
    forward when the clock has; one that gives no field, or only values
    equal to the stored ones, writes nothing and leaves the record, stamp
    included, as it was.  With a clock that is not behind the stamps of the
    record, [fecha_actualizacion] does not go back and stays at or after
    [fecha_registro]. *)
Theorem update_stamps_on_change
        (db db' : Session) (now producto_id : Z) (u : ProductoUpdate.t)
        (r0 r : Producto) :
  ProductoCRUD.get_by_id db producto_id = Some r0 ->
  ProductoCRUD.update db now producto_id u = (Ok (Some r), db') ->
  (supplies_change u r0 = true ->
   fecha_actualizacion r = now
   /\ (fecha_actualizacion r0 < now -> fecha_actualizacion r0 < fecha_actualizacion r))
  /\ (supplies_change u r0 = false -> r = r0 /\ db' = db)
  /\ (fecha_registro r0 <= fecha_actualizacion r0 <= now ->
      fecha_registro r <= fecha_actualizacion r
      /\ fecha_actualizacion r0 <= fecha_actualizacion r <= now).
Proof.
  intros Hget Hupd.
  destruct (update_ok _ _ _ _ _ _ _ Hget Hupd) as (s & Hs & Hcases & _).
  apply no_columns_supplies_change in Hs.
  destruct Hcases as [(Hnone & -> & ->)|(Hnone & _ & _ & -> & ->)];
    rewrite Hnone in Hs; destruct (supplies_change u r0); try discriminate Hs.
  - repeat split; try discriminate; lia.
  - simpl. repeat split; try discriminate; lia.
Qed.

Lemma update_stamps_on_change_witness :
  exists r db',
    ProductoCRUD.update panaderia 200 1 (stock_supplied 150) = (Ok (Some r), db')
    /\ fecha_actualizacion r = 200
    /\ fecha_registro r <= fecha_actualizacion r.
Proof.
  eexists. eexists. split; [reflexivity|].
  pose proof (update_stamps_on_change panaderia _ 200 1 (stock_supplied 150)
                pan_frances _ eq_refl eq_refl) as H.
  destruct H as (Hchange & _ & Hclock).
  split.
  - exact (proj1 (Hchange eq_refl)).
  - apply Hclock. simpl. lia.
Defined.

(** C2, the claim as stated fails: an update that supplies no field, and
    one that supplies the stored stock, succeed at time 200 on a record
    stamped 100 and return it stamped 100. *)
Lemma update_noop_keeps_fecha_actualizacion :
  ProductoCRUD.update panaderia 200 1 nothing_supplied = (Ok (Some pan_frances), panaderia)
  /\ ProductoCRUD.update panaderia 200 1 (stock_supplied 120)
     = (Ok (Some pan_frances), panaderia)
  /\ fecha_actualizacion pan_frances = 100.
Proof. repeat split. Qed.

(** ** The repository: searching *)

Lemma map_append (f : char -> char) (a b : str) :
  Str.map f (a ++ b) = Str.map f a ++ Str.map f b.
Proof. induction a as [|c a IH]; simpl; [reflexivity|]. now rewrite IH. Qed.

Lemma ilike_fold_append (engine : dialect) (a b : str) :
  ilike_fold engine (a ++ b) = ilike_fold engine a ++ ilike_fold engine b.
Proof. destruct engine; apply map_append. Qed.

Lemma ilike_fold_percent (engine : dialect) : ilike_fold engine "%" = "%".
Proof. now destruct engine. Qed.

Lemma percent_no_escape (engine : dialect) :
  is_escape (like_escape engine) "%" = false.
Proof. now destruct engine. Qed.

(** A plain text followed by [%] reads as its characters and a wildcard. *)
Lemma like_tokens_plain (escape : option char) (s : str) :
  is_escape escape "%" = false ->
  plain escape s = true ->
  like_tokens escape (s ++ "%") = Some (literals s ++ [any_string])%list.
Proof.
  intros Hesc. induction s as [|c s IH]; simpl.
  - intros _. now rewrite Hesc.
  - rewrite !andb_true_iff, !negb_true_iff. intros [[[H1 H2] H3] H4].
    rewrite H1, (IH H4). unfold wildcard. now rewrite H2, H3.
Qed.

Lemma like_match_any_string (s : str) : like_match [any_string] s = true.
Proof.
  induction s as [|c s IH]; [reflexivity|].
  simpl in *. exact IH.
Qed.

Lemma like_match_literals (needle s : str) :
  like_match (literals needle ++ [any_string]) s = starts_with needle s.
Proof.
  revert s. induction needle as [|c needle IH]; intros s.
  - simpl literals. simpl starts_with. destruct s; apply like_match_any_string.
  - destruct s as [|d s]; [reflexivity|].
    simpl. now rewrite <- IH.
Qed.

Lemma like_match_from (pattern : list like_token) (s : str) :
  like_match (any_string :: pattern) s =
  like_match pattern s
  || match s with
     | String _ s' => like_match (any_string :: pattern) s'
     | EmptyString => false
     end.
Proof. destruct s; reflexivity. Qed.

(** Between two wildcards, a plain text matches where it occurs. *)
Lemma like_match_contains (needle s : str) :
  like_match (any_string :: literals needle ++ [any_string]) s = contains needle s.
Proof.
  induction s as [|c s IH].
  - rewrite like_match_from, like_match_literals. reflexivity.
  - rewrite like_match_from, like_match_literals, IH. reflexivity.
Qed.

(** The pattern of [search_by_nombre], on a term that is plain once folded:
    a wildcard, the characters of the folded term, a wildcard. *)
Lemma search_pattern_plain (engine : dialect) (nombre_ : str) :
  plain (like_escape engine) (ilike_fold engine nombre_) = true ->
  like_tokens (like_escape engine) (ilike_fold engine ("%" ++ nombre_ ++ "%"))
  = Some (any_string :: literals (ilike_fold engine nombre_) ++ [any_string])%list.
Proof.
  intros Hplain.
  rewrite !ilike_fold_append, ilike_fold_percent.
  change ("%" ++ ilike_fold engine nombre_ ++ "%")
    with (String "%" (ilike_fold engine nombre_ ++ "%")).
  cbn [like_tokens]. rewrite (percent_no_escape engine).
  rewrite (like_tokens_plain _ _ (percent_no_escape engine) Hplain).
  reflexivity.
Qed.

(** On a search term without wildcard or escape characters,
    [search_by_nombre] pages the rows whose name contains the term, the
    letter case that the engine folds aside. *)
Lemma search_by_nombre_plain (db : Session) (nombre_ : str) (skip limit : Z) :
  plain (like_escape (bind db)) (ilike_fold (bind db) nombre_) = true ->
  ProductoCRUD.search_by_nombre db nombre_ skip limit =
  offset_limit (bind db) skip limit
    (List.filter (fun r => contains_folded (bind db) nombre_ (nombre r)) (productos db)).
Proof.
  intros Hplain. unfold ProductoCRUD.search_by_nombre. cbv zeta.
  rewrite (search_pattern_plain _ _ Hplain).
  f_equal. apply filter_ext'. intros r. apply like_match_contains.
Qed.

(** C9 (the code departs from the claim): the search term goes into the
    LIKE pattern as it is, so [_] and [%] in it are wildcards.  On either
    engine the search for ["_"], and the search for ["%"], return the
    record named "Pan Frances", whose name contains neither character. *)
Theorem search_by_nombre_wildcards :
  ProductoCRUD.search_by_nombre panaderia "_" 0 100 = Ok [pan_frances]
  /\ ProductoCRUD.search_by_nombre panaderia_sqlite "_" 0 100 = Ok [pan_frances]
  /\ ProductoCRUD.search_by_nombre panaderia "%" 0 100 = Ok [pan_frances]
  /\ ProductoCRUD.search_by_nombre panaderia_sqlite "%" 0 100 = Ok [pan_frances]
  /\ ProductoCRUD.search_by_nombre panaderia "P_n" 0 100 = Ok [pan_frances]
  /\ contains_ignoring_case "_" (nombre pan_frances) = false
  /\ contains_ignoring_case "%" (nombre pan_frances) = false
  /\ contains_ignoring_case "P_n" (nombre pan_frances) = false.
Proof. repeat split. Qed.

(** * Further properties *)

(** ** The schemas, as a whole *)

Lemma categoria_round_trip (c : CategoriaProducto) :
  categoria_of_value (categoria_value c) = Some c.
Proof. destruct c; reflexivity. Qed.

Lemma categoria_of_value_some (s : str) (c : CategoriaProducto) :
  categoria_of_value s = Some c -> s = categoria_value c.
Proof.
  unfold categoria_of_value.
  destruct (Str.eqb s (categoria_value PAN)) eqn:E1.
  { intros H. injection H as <-. now apply eqb_eq. }
  destruct (Str.eqb s (categoria_value PASTELERIA)) eqn:E2.
  { intros H. injection H as <-. now apply eqb_eq. }
  destruct (Str.eqb s (categoria_value BEBIDAS)) eqn:E3.
  { intros H. injection H as <-. now apply eqb_eq. }
  destruct (Str.eqb s (categoria_value OTROS)) eqn:E4; [|discriminate].
  intros H. injection H as <-. now apply eqb_eq.
Qed.

Lemma field_nombre_spec (v u : str) :
  ProductoBase.field_nombre v = Ok u <-> (1 <= Str.len v <= 150)%nat /\ u = v.
Proof.
  unfold ProductoBase.field_nombre, str_constraints.
  destruct (Str.len v <? 1)%nat eqn:Hmin.
  { apply Nat.ltb_lt in Hmin. split; [discriminate | lia]. }
  apply Nat.ltb_ge in Hmin.
  destruct (150 <? Str.len v)%nat eqn:Hmax.
  { apply Nat.ltb_lt in Hmax. split; [discriminate | lia]. }
  apply Nat.ltb_ge in Hmax. split.
  - intros H. injection H as <-. split; [lia | reflexivity].
  - intros [_ ->]. reflexivity.
Qed.

Lemma field_precio_unitario_ok (v w : Decimal) :
  ProductoBase.field_precio_unitario v = Ok w <-> precio_valid v /\ w = v.
Proof.
  rewrite field_precio_unitario_spec. unfold precio_valid.
  destruct (0 <? coefficient v) eqn:Hpos.
  - apply Z.ltb_lt in Hpos. destruct (exponent v <? -2) eqn:Hexp.
    + apply Z.ltb_lt in Hexp. split; [discriminate | lia].
    + apply Z.ltb_ge in Hexp. split.
      * intros H. injection H as <-. repeat split; lia.
      * intros [_ ->]. reflexivity.
  - apply Z.ltb_ge in Hpos. split; [discriminate | lia].
Qed.

Lemma field_stock_ok (v w : Z) :
  ProductoBase.field_stock v = Ok w <-> 0 <= v /\ w = v.
Proof.
  rewrite field_stock_spec. destruct (0 <=? v) eqn:H.
  - apply Z.leb_le in H. split.
    + intros E. injection E as <-. split; [lia | reflexivity].
    + intros [_ ->]. reflexivity.
  - apply Z.leb_gt in H. split; [discriminate | lia].
Qed.

Lemma field_categoria_ok (v : str) (c : CategoriaProducto) :
  ProductoBase.field_categoria v = Ok c <-> v = categoria_value c.
Proof.
  unfold ProductoBase.field_categoria, enum_member. split.
  - destruct (categoria_of_value v) as [c'|] eqn:E; [|discriminate].
    intros H. injection H as <-. now apply categoria_of_value_some.
  - intros ->. now rewrite categoria_round_trip.
Qed.

(** The five checks of a create body, one by one. *)
Lemma validate_create_fields (raw : ProductoCreate.payload) (p : ProductoCreate.t) :
  ProductoCreate.validate raw = Ok p <->
  ProductoBase.field_nombre (ProductoCreate.raw_nombre raw) = Ok (ProductoCreate.nombre p)
  /\ ProductoBase.field_sku (ProductoCreate.raw_sku raw) = Ok (ProductoCreate.sku p)
  /\ ProductoBase.field_categoria (ProductoCreate.raw_categoria raw)
     = Ok (ProductoCreate.categoria p)
  /\ ProductoBase.field_precio_unitario (ProductoCreate.raw_precio_unitario raw)
     = Ok (ProductoCreate.precio_unitario p)
  /\ ProductoBase.field_stock (ProductoCreate.raw_stock raw) = Ok (ProductoCreate.stock p)
  /\ ProductoCreate.disponible p = disponible_default (ProductoCreate.raw_disponible raw).
Proof.
  unfold ProductoCreate.validate, disponible_default. cbv zeta.
  destruct (ProductoBase.field_nombre _) as [n|].
  2:{ split; [discriminate | intros (H & _); discriminate H]. }
  destruct (ProductoBase.field_sku _) as [s|].
  2:{ split; [discriminate | intros (_ & H & _); discriminate H]. }
  destruct (ProductoBase.field_categoria _) as [c|].
  2:{ split; [discriminate | intros (_ & _ & H & _); discriminate H]. }
  destruct (ProductoBase.field_precio_unitario _) as [d|].
  2:{ split; [discriminate | intros (_ & _ & _ & H & _); discriminate H]. }
  destruct (ProductoBase.field_stock _) as [k|].
  2:{ split; [discriminate | intros (_ & _ & _ & _ & H & _); discriminate H]. }
  split.
  - intros H. injection H as <-. simpl. repeat split.
  - destruct p as [n' s' c' d' k' b']. simpl.
    intros (Hn & Hs & Hc & Hd & Hk & ->).
    injection Hn as ->. injection Hs as ->. injection Hc as ->.
    injection Hd as ->. injection Hk as ->. reflexivity.
Qed.

(** X1: a create body is accepted exactly when the name has 1 to 150
    characters, the SKU has 3 to 20 characters and one hyphen, the category
    is the value of a member of the enumeration, the price is positive with
    at most two digits after the point and the stock is not negative; the
    payload then has the fields of the body, the SKU in upper case and
    [disponible] true when the body leaves it out. *)
Theorem validate_create_spec (raw : ProductoCreate.payload) (p : ProductoCreate.t) :
  ProductoCreate.validate raw = Ok p <->
  (1 <= Str.len (ProductoCreate.raw_nombre raw) <= 150)%nat
  /\ (3 <= Str.len (ProductoCreate.raw_sku raw) <= 20)%nat
  /\ Str.count "-" (ProductoCreate.raw_sku raw) = 1%nat
  /\ ProductoCreate.raw_categoria raw = categoria_value (ProductoCreate.categoria p)
  /\ 0 < coefficient (ProductoCreate.raw_precio_unitario raw)
  /\ -2 <= exponent (ProductoCreate.raw_precio_unitario raw)
  /\ 0 <= ProductoCreate.raw_stock raw
  /\ p = ProductoCreate.mk
           (ProductoCreate.raw_nombre raw)
           (Str.upper (ProductoCreate.raw_sku raw))
           (ProductoCreate.categoria p)
           (ProductoCreate.raw_precio_unitario raw)
           (ProductoCreate.raw_stock raw)
           (disponible_default (ProductoCreate.raw_disponible raw)).
Proof.
  rewrite validate_create_fields, field_nombre_spec, field_sku_spec,
    field_categoria_ok, field_precio_unitario_ok, field_stock_ok.
  unfold precio_valid. destruct p as [n s c d k b]. simpl. split.
  - intros ((Hn & ->) & (Hs & Hc & ->) & -> & ((Hd & He) & ->) & (Hk & ->) & ->).
    repeat split; try lia; assumption.
  - intros (Hn & Hs & Hc & Hcat & Hd & He & Hk & H).
    injection H as -> -> -> -> ->.
    repeat split; try lia; assumption.
Qed.

(** The SKU that the schemas return from an ASCII text meets their own
    constraints. *)
Lemma field_sku_valid (v u : str) :
  Str.isascii v = true -> ProductoBase.field_sku v = Ok u -> sku_valid u.
Proof.
  intros Hascii H. apply field_sku_spec in H. destruct H as (Hlen & Hcount & ->).
  destruct (upper_isascii v Hascii) as (_ & H1 & H2 & H3).
  unfold sku_valid. now rewrite H1, H2, H3.
Qed.

Lemma sku_valid_field (s : str) :
  sku_valid s -> ProductoBase.field_sku s = Ok s.
Proof.
  intros (Hlen & Hcount & Hup). apply field_sku_spec. now rewrite Hup.
Qed.

(** X3: on a body whose SKU is ASCII text, validation normalises once and
    for all: the payload that the body validates to, written back as a body,
    validates to itself. *)
Theorem validate_create_round_trip (raw : ProductoCreate.payload) (p : ProductoCreate.t) :
  Str.isascii (ProductoCreate.raw_sku raw) = true ->
  ProductoCreate.validate raw = Ok p ->
  ProductoCreate.validate (body_of p) = Ok p.
Proof.
  rewrite !validate_create_fields. unfold body_of. simpl.
  intros Hascii (Hn & Hs & Hc & Hd & Hk & Hb).
  apply field_nombre_spec in Hn. destruct Hn as [Hn En].
  apply (field_sku_valid _ _ Hascii) in Hs.
  apply field_precio_unitario_ok in Hd. destruct Hd as [Hd Ed].
  apply field_stock_ok in Hk. destruct Hk as [Hk Ek].
  rewrite En, Ed, Ek.
  split. { apply field_nombre_spec. now split. }
  split. { now apply sku_valid_field. }
  split. { now apply field_categoria_ok. }
  split. { apply field_precio_unitario_ok. now split. }
  split. { apply field_stock_ok. now split. }
  reflexivity.
Qed.

Lemma update_field_nombre_value (v : str) :
  ProductoUpdate.field_nombre (Given (Some v)) =
  match ProductoBase.field_nombre v with
  | Ok u => Ok (Given (Some u))
  | Err e => Err e
  end.
Proof.
  unfold ProductoUpdate.field_nombre, ProductoUpdate.field, ProductoUpdate.nullable,
    ProductoBase.field_nombre, and_then.
  now destruct (str_constraints 1 150 v).
Qed.

Lemma update_field_categoria_value (v : str) :
  ProductoUpdate.field_categoria (Given (Some v)) =
  match ProductoBase.field_categoria v with
  | Ok c => Ok (Given (Some c))
  | Err e => Err e
  end.
Proof.
  unfold ProductoUpdate.field_categoria, ProductoUpdate.field, ProductoUpdate.nullable,
    ProductoBase.field_categoria, and_then.
  now destruct (enum_member v).
Qed.

(** X4: the update schema checks the fields it is given with the rules of
    the create schema: on a body that gives every field, it accepts what
    the create schema accepts, with the same values, and refuses what the
    create schema refuses, with the same errors. *)
Theorem validate_update_as_create (raw : ProductoCreate.payload) :
  ProductoUpdate.validate (full_update_body raw) =
  match ProductoCreate.validate raw with
  | Ok p => Ok (full_update p)
  | Err errors => Err errors
  end.
Proof.
  unfold ProductoUpdate.validate, ProductoCreate.validate, full_update_body, full_update.
  cbn [ProductoUpdate.raw_nombre ProductoUpdate.raw_sku ProductoUpdate.raw_categoria
       ProductoUpdate.raw_precio_unitario ProductoUpdate.raw_stock
       ProductoUpdate.raw_disponible].
  rewrite update_field_nombre_value, update_field_sku_value,
    update_field_categoria_value, update_field_precio_unitario_value,
    update_field_stock_value.
  destruct (ProductoBase.field_nombre _) as [n|en];
    destruct (ProductoBase.field_sku _) as [s|es];
    destruct (ProductoBase.field_categoria _) as [c|ec];
    destruct (ProductoBase.field_precio_unitario _) as [d|ed];
    destruct (ProductoBase.field_stock _) as [k|ek];
    reflexivity.
Qed.

(** What a validated update gives is what the schema returns. *)
Lemma update_field_nombre_valid (f : supplied str) (v : str) :
  ProductoUpdate.field_nombre f = Ok (Given (Some v)) -> (1 <= Str.len v <= 150)%nat.
Proof.
  destruct f as [|[w|]]; try discriminate.
  rewrite update_field_nombre_value.
  destruct (ProductoBase.field_nombre w) as [x|] eqn:E; [|discriminate].
  intros H. injection H as <-. apply field_nombre_spec in E. now destruct E as [E ->].
Qed.

Lemma update_field_sku_stored (f : supplied str) (v : str) :
  ProductoUpdate.field_sku f = Ok (Given (Some v)) -> sku_stored v.
Proof.
  destruct f as [|[w|]]; try discriminate.
  rewrite update_field_sku_value.
  destruct (ProductoBase.field_sku w) as [x|] eqn:E; [|discriminate].
  intros H. injection H as <-. apply field_sku_spec in E.
  destruct E as (Hlen & Hcount & ->). exists w. auto.
Qed.

Lemma update_field_precio_unitario_valid (f : supplied Decimal) (v : Decimal) :
  ProductoUpdate.field_precio_unitario f = Ok (Given (Some v)) -> precio_valid v.
Proof.
  destruct f as [|[w|]]; try discriminate.
  rewrite update_field_precio_unitario_value.
  destruct (ProductoBase.field_precio_unitario w) as [x|] eqn:E; [|discriminate].
  intros H. injection H as <-.
  apply field_precio_unitario_ok in E. now destruct E as [E ->].
Qed.

Lemma update_field_stock_valid (f : supplied Z) (v : Z) :
  ProductoUpdate.field_stock f = Ok (Given (Some v)) -> 0 <= v.
Proof.
  destruct f as [|[w|]]; try discriminate.
  rewrite update_field_stock_value.
  destruct (ProductoBase.field_stock w) as [x|] eqn:E; [|discriminate].
  intros H. injection H as <-.
  apply field_stock_ok in E. now destruct E as [E ->].
Qed.

Lemma validate_update_checked (raw : ProductoUpdate.payload) (u : ProductoUpdate.t) :
  ProductoUpdate.validate raw = Ok u -> update_checked u.
Proof.
  unfold ProductoUpdate.validate. cbv zeta.
  destruct (ProductoUpdate.field_nombre _) as [n|] eqn:Hn; [|discriminate].
  destruct (ProductoUpdate.field_sku _) as [s|] eqn:Hs; [|discriminate].
  destruct (ProductoUpdate.field_categoria _) as [c|]; [|discriminate].
  destruct (ProductoUpdate.field_precio_unitario _) as [d|] eqn:Hd; [|discriminate].
  destruct (ProductoUpdate.field_stock _) as [k|] eqn:Hk; [|discriminate].
  destruct (ProductoUpdate.field_disponible _) as [b|]; [|discriminate].
  intros H. injection H as <-. unfold update_checked. simpl.
  split; [|split; [|split]]; intros v ->.
  - exact (update_field_nombre_valid _ _ Hn).
  - exact (update_field_sku_stored _ _ Hs).
  - exact (update_field_precio_unitario_valid _ _ Hd).
  - exact (update_field_stock_valid _ _ Hk).
Qed.

(** ** The table as the service keeps it *)

Lemma nodup_snoc {A} (l : list A) (x : A) :
  NoDup l -> ~ In x l -> NoDup (l ++ [x]).
Proof.
  induction l as [|y l IH]; simpl; intros Hl Hx.
  - constructor; [intros [] | constructor].
  - inversion Hl as [|? ? Hy Hl']; subst. constructor.
    + rewrite in_app_iff. simpl. intros [H|[H|[]]]; [now apply Hy | subst; tauto].
    + apply IH; tauto.
Qed.

Lemma nodup_map_filter {A B} (g : A -> B) (f : A -> bool) (l : list A) :
  NoDup (List.map g l) -> NoDup (List.map g (List.filter f l)).
Proof.
  induction l as [|x l IH]; simpl; intros H; [constructor|].
  inversion H as [|? ? Hx Hl]; subst.
  destruct (f x); simpl; [|now apply IH].
  constructor; [|now apply IH].
  rewrite in_map_iff. intros (y & Hy & Hin). apply Hx.
  apply filter_In in Hin. rewrite <- Hy. apply in_map. tauto.
Qed.

Lemma nodup_map_same {A B} (g : A -> B) (l : list A) (x y : A) :
  NoDup (List.map g l) -> In x l -> In y l -> g x = g y -> x = y.
Proof.
  induction l as [|z l IH]; simpl; intros H Hx Hy E; [contradiction|].
  inversion H as [|? ? Hz Hl]; subst.
  destruct Hx as [->|Hx], Hy as [->|Hy]; auto.
  - exfalso. apply Hz. rewrite E. now apply in_map.
  - exfalso. apply Hz. rewrite <- E. now apply in_map.
Qed.

Lemma nodup_map_of_same {A B} (g : A -> B) (l : list A) :
  NoDup l ->
  (forall x y, In x l -> In y l -> g x = g y -> x = y) ->
  NoDup (List.map g l).
Proof.
  induction l as [|z l IH]; simpl; intros H Hinj; [constructor|].
  inversion H as [|? ? Hz Hl]; subst. constructor.
  - rewrite in_map_iff. intros (y & Hy & Hin).
    assert (y = z) by (apply Hinj; auto). subst. contradiction.
  - apply IH; [exact Hl|]. intros x y Hx Hy. apply Hinj; auto.
Qed.

(** The price that the column holds is within the ten digits of its
    type. *)
Lemma quantize_in_range (v : Decimal) :
  -2 <= exponent v -> Dec.fits_10_2 v = true ->
  coefficient (Dec.quantize v) < 10 ^ 10.
Proof.
  intros He. unfold Dec.fits_10_2, Dec.quantize.
  apply Z.leb_le in He. rewrite He. apply Z.leb_le in He.
  rewrite Z.ltb_lt. cbn [coefficient].
  assert (Hpow : 0 <= 10 ^ (exponent v + 2)) by (apply Z.pow_nonneg; lia).
  revert Hpow. generalize (10 ^ (exponent v + 2)). generalize (10 ^ 10).
  intros bound m Hm H. nia.
Qed.

(** The row that a validated payload becomes holds what the service
    writes. *)
Lemma created_row_stored (raw : ProductoCreate.payload) (p : ProductoCreate.t)
      (key now : Z) :
  ProductoCreate.validate raw = Ok p ->
  row_stored {| id := key;
                nombre := ProductoCreate.nombre p;
                sku := ProductoCreate.sku p;
                categoria := categoria_value (ProductoCreate.categoria p);
                precio_unitario := Dec.quantize (ProductoCreate.precio_unitario p);
                stock := ProductoCreate.stock p;
                disponible := ProductoCreate.disponible p;
                fecha_registro := now;
                fecha_actualizacion := now |}
  /\ -2 <= exponent (ProductoCreate.precio_unitario p).
Proof.
  intros H. apply validate_create_fields in H.
  destruct H as (Hn & Hs & _ & Hd & Hk & _).
  apply field_nombre_spec in Hn. destruct Hn as [Hn En].
  apply field_sku_spec in Hs. destruct Hs as (Hlen & Hcount & Es).
  apply field_precio_unitario_ok in Hd. destruct Hd as [[Hd He] Ed].
  apply field_stock_ok in Hk. destruct Hk as [Hk Ek].
  split; [|now rewrite Ed].
  unfold row_stored. simpl. rewrite En, Es, Ed, Ek.
  split; [exact Hn|].
  split; [exists (ProductoCreate.raw_sku raw); auto|].
  split; [now exists (ProductoCreate.categoria p)|].
  split; [now apply quantize_valid | exact Hk].
Qed.

(** [create] keeps the table. *)
Lemma create_keeps_catalog (db : Session) (now : Z) (raw : ProductoCreate.payload)
      (p : ProductoCreate.t) :
  ProductoCreate.validate raw = Ok p ->
  catalog_kept db -> catalog_kept (snd (ProductoCRUD.create db now p)).
Proof.
  intros Hv Hkept.
  destruct (ProductoCRUD.create db now p) as [[r|e] db'] eqn:Hc.
  2:{ pose proof (create_error db now p e) as H. rewrite Hc in H.
      destruct (H eq_refl) as [Hdb _]. simpl in *. now rewrite Hdb. }
  destruct Hkept as (Hids & Hseq & Hskus & Hrows).
  apply create_ok in Hc. destruct Hc as (Hnone & Hr & -> & Hrange). simpl.
  assert (Hkey : id r = productos_id_seq db) by now rewrite Hr.
  assert (Hsku : sku r = ProductoCreate.sku p) by now rewrite Hr.
  destruct (created_row_stored raw p (productos_id_seq db) now Hv) as [Hstored He].
  unfold catalog_kept. simpl. rewrite !map_app. simpl.
  split; [|split; [|split]].
  - apply nodup_snoc; [exact Hids|]. rewrite in_map_iff.
    intros (x & Hx & Hin). rewrite Forall_forall in Hseq.
    specialize (Hseq x Hin). lia.
  - apply Forall_app. split.
    + eapply Forall_impl; [|exact Hseq]. simpl. intros; lia.
    + constructor; [lia | constructor].
  - apply nodup_snoc; [exact Hskus|]. rewrite in_map_iff.
    intros (x & Hx & Hin). apply (first_none _ _ Hnone) in Hin.
    rewrite Hx, Hsku, eqb_refl in Hin. discriminate Hin.
  - apply Forall_app. split; [exact Hrows|].
    constructor; [|constructor]. rewrite Hr. split; [exact Hstored|].
    intros Hb. destruct (Hrange Hb) as (H1 & H2 & H3). simpl.
    split; [exact H1|]. split; [now apply quantize_in_range | lia].
Qed.

(** The next rowid is above the rowids in use. *)
Lemma next_rowid_above (rows : list Producto) :
  Forall (fun r => id r < next_rowid rows) rows.
Proof.
  unfold next_rowid. induction rows as [|x rows IH]; simpl; constructor.
  - lia.
  - eapply Forall_impl; [|exact IH]. intros a Ha. simpl in *. lia.
Qed.

(** What [delete] leaves: the store as it was, when no row has the key, or
    the store without the rows that have it. *)
Lemma delete_store (db : Session) (producto_id : Z) :
  snd (ProductoCRUD.delete db producto_id) = db
  \/ snd (ProductoCRUD.delete db producto_id) = delete_from db producto_id.
Proof.
  unfold ProductoCRUD.delete.
  destruct (first _ db) as [r|] eqn:E; [right | now left].
  apply first_some in E. destruct E as [_ E]. apply Z.eqb_eq in E. simpl. now rewrite E.
Qed.

(** [delete] keeps the table. *)
Lemma delete_keeps_catalog (db : Session) (producto_id : Z) :
  catalog_kept db -> catalog_kept (snd (ProductoCRUD.delete db producto_id)).
Proof.
  intros Hkept. destruct (delete_store db producto_id) as [->| ->]; [exact Hkept|].
  destruct Hkept as (Hids & Hseq & Hskus & Hrows).
  unfold catalog_kept, delete_from. simpl. split; [|split; [|split]].
  - now apply nodup_map_filter.
  - destruct (bind db).
    + rewrite Forall_forall in *. intros x Hx. apply filter_In in Hx. now apply Hseq.
    + apply next_rowid_above.
  - now apply nodup_map_filter.
  - rewrite Forall_forall in *. intros x Hx. apply filter_In in Hx. now apply Hrows.
Qed.

(** The SET clause that the column types take is within them. *)
Lemma coerce_ok_range (engine : dialect) (s s' : set_clause) :
  coerce engine s = Ok s' ->
  s' = at_scale s
  /\ (engine = postgresql ->
      (forall v, set_nombre s = Some v -> (Str.len v <= 150)%nat)
      /\ (forall v, set_sku s = Some v -> (Str.len v <= 20)%nat)
      /\ (forall v, set_precio_unitario s = Some v -> Dec.fits_10_2 v = true)
      /\ (forall v, set_stock s = Some v -> -2147483648 <= v <= 2147483647)).
Proof.
  destruct (coerce_cases engine s) as [[-> _]|[-> H]]; [discriminate|].
  intros E. injection E as <-. now split.
Qed.

(** What the flush collects from a checked update is what the update
    gives. *)
Lemma collect_update_checked (u : ProductoUpdate.t) (r0 : Producto) (s : set_clause) :
  update_checked u ->
  collect_update (List.fold_left setattr (model_dump_exclude_unset u) (loaded r0)) r0
  = Ok s ->
  (forall v, set_nombre s = Some v -> (1 <= Str.len v <= 150)%nat)
  /\ (forall v, set_sku s = Some v -> sku_stored v)
  /\ (forall v, set_categoria s = Some v -> exists c, v = categoria_value c)
  /\ (forall v, set_precio_unitario s = Some v -> precio_valid v)
  /\ (forall v, set_stock s = Some v -> 0 <= v).
Proof.
  intros (Vn & Vs & Vp & Vk) H. apply collect_update_columns in H.
  destruct H as (Hn & Hs & Hc & Hp & Hk & _).
  apply column_current in Hn; [|apply eqb_refl].
  apply column_current in Hs; [|apply eqb_refl].
  apply column_current in Hc; [|apply eqb_refl].
  apply column_current in Hp; [|apply dec_eqb_refl].
  apply column_current in Hk; [|apply Z.eqb_refl].
  destruct Hn as (_ & _ & _ & _ & Hn), Hs as (_ & _ & _ & _ & Hs),
           Hc as (_ & _ & _ & _ & Hc), Hp as (_ & _ & _ & _ & Hp),
           Hk as (_ & _ & _ & _ & Hk).
  split; [|split; [|split; [|split]]]; intros v Hv.
  - apply Vn. now apply Hn.
  - apply Vs. now apply Hs.
  - destruct (Hc v Hv) as [Hc' _].
    destruct (ProductoUpdate.categoria u) as [|[c|]]; simpl in Hc'; try discriminate Hc'.
    injection Hc' as <-. now exists c.
  - apply Vp. now apply Hp.
  - apply Vk. now apply Hk.
Qed.

(** What [update] leaves in the store: the store as it was, or the table
    rewritten by an UPDATE that the column types take and whose new SKU no
    row with another key has. *)
Lemma update_store (db : Session) (now producto_id : Z) (u : ProductoUpdate.t) :
  snd (ProductoCRUD.update db now producto_id u) = db
  \/ exists r0 s,
      ProductoCRUD.get_by_id db producto_id = Some r0
      /\ collect_update (List.fold_left setattr (model_dump_exclude_unset u) (loaded r0)) r0
         = Ok s
      /\ coerce (bind db) s = Ok (at_scale s)
      /\ (forall v x, set_sku s = Some v -> In x (productos db) -> sku x = v ->
                      id x = producto_id)
      /\ snd (ProductoCRUD.update db now producto_id u)
         = with_productos db
             (rewrite (bind db) producto_id (apply_update now (at_scale s))
                      (productos db)).
Proof.
  destruct (ProductoCRUD.get_by_id db producto_id) as [r0|] eqn:Hget.
  2:{ left. unfold ProductoCRUD.update. unfold ProductoCRUD.get_by_id in Hget.
      now rewrite Hget. }
  rewrite (update_found _ _ _ _ _ Hget).
  pose proof (get_by_id_key _ _ _ Hget) as Hid.
  assert (Hcommit :
    snd (let '(res, db') :=
           commit_update db now r0
             (List.fold_left setattr (model_dump_exclude_unset u) (loaded r0)) in
         match res with
         | Err e => (Err e, db')
         | Ok _ => (@Ok crud_error _ (Some (refresh db' r0)), db')
         end) = db
    \/ exists s,
        collect_update (List.fold_left setattr (model_dump_exclude_unset u) (loaded r0)) r0
        = Ok s
        /\ coerce (bind db) s = Ok (at_scale s)
        /\ (forall v x, set_sku s = Some v -> In x (productos db) -> sku x = v ->
                        id x = producto_id)
        /\ snd (let '(res, db') :=
                  commit_update db now r0
                    (List.fold_left setattr (model_dump_exclude_unset u) (loaded r0)) in
                match res with
                | Err e => (Err e, db')
                | Ok _ => (@Ok crud_error _ (Some (refresh db' r0)), db')
                end)
           = with_productos db
               (rewrite (bind db) producto_id (apply_update now (at_scale s))
                        (productos db))).
  { destruct (commit_update_cases db now r0
                (List.fold_left setattr (model_dump_exclude_unset u) (loaded r0)))
      as [(e & -> & _)|[(s & _ & _ & ->)|(s & Hs & _ & Hco & Hfree & ->)]];
      [now left | now left|].
    right. exists s. rewrite Hid in *. auto. }
  destruct (ProductoCRUD.sku_changes u r0) as [k|];
    [destruct (first _ db); [now left|]|];
    (destruct Hcommit as [H|(s & Hs & Hco & Hfree & H)];
     [left | right; exists r0, s; repeat (split; [assumption|])]);
    revert H;
    destruct (commit_update db now r0 _) as [[[]|e] d]; simpl; auto.
Qed.

(** The UPDATE of PostgreSQL and the one of SQLite leave the same rows. *)
Lemma rewrite_permutation (k : Z) (g : Producto -> Producto) (l : list Producto) :
  Permutation (rewrite sqlite k g l) (rewrite postgresql k g l).
Proof.
  simpl. induction l as [|x l IH]; simpl; [constructor|].
  destruct (id x =? k); simpl.
  - now apply Permutation_cons_app.
  - now constructor.
Qed.

Lemma rewrite_any_engine (engine : dialect) (k : Z) (g : Producto -> Producto)
      (l : list Producto) :
  Permutation (rewrite sqlite k g l) (rewrite engine k g l).
Proof. destruct engine; [apply rewrite_permutation | apply Permutation_refl]. Qed.

Lemma apply_update_stored (engine : dialect) (now : Z) (s : set_clause) (x : Producto) :
  (forall v, set_nombre s = Some v -> (1 <= Str.len v <= 150)%nat) ->
  (forall v, set_sku s = Some v -> sku_stored v) ->
  (forall v, set_categoria s = Some v -> exists c, v = categoria_value c) ->
  (forall v, set_precio_unitario s = Some v -> precio_valid v) ->
  (forall v, set_stock s = Some v -> 0 <= v) ->
  coerce engine s = Ok (at_scale s) ->
  row_stored x /\ row_in_range engine x ->
  row_stored (apply_update now (at_scale s) x)
  /\ row_in_range engine (apply_update now (at_scale s) x).
Proof.
  intros Vn Vs Vc Vp Vk Hco [(Hn & Hs & Hc & Hp & Hk) Hrange].
  apply coerce_ok_range in Hco. destruct Hco as [_ Hco]. split.
  - unfold row_stored. simpl.
    split; [|split; [|split; [|split]]].
    + destruct (set_nombre s) as [v|]; simpl; [now apply Vn | exact Hn].
    + destruct (set_sku s) as [v|]; simpl; [now apply Vs | exact Hs].
    + destruct (set_categoria s) as [v|]; simpl; [now apply Vc | exact Hc].
    + destruct (set_precio_unitario s) as [v|]; simpl; [|exact Hp].
      destruct (Vp v eq_refl). now apply quantize_valid.
    + destruct (set_stock s) as [v|]; simpl; [now apply Vk | exact Hk].
  - intros Hb. destruct (Hrange Hb) as (R1 & R2 & R3).
    destruct (Hco Hb) as (_ & C2 & C3 & C4). unfold row_in_range. simpl.
    split; [|split].
    + destruct (set_sku s) as [v|]; simpl; [now apply C2 | exact R1].
    + destruct (set_precio_unitario s) as [v|]; simpl; [|exact R2].
      destruct (Vp v eq_refl). apply quantize_in_range; auto.
    + destruct (set_stock s) as [v|]; simpl; [|exact R3].
      destruct (C4 v eq_refl). lia.
Qed.

(** [update] keeps the table. *)
Lemma update_keeps_catalog (db : Session) (now producto_id : Z) (u : ProductoUpdate.t) :
  update_checked u ->
  catalog_kept db -> catalog_kept (snd (ProductoCRUD.update db now producto_id u)).
Proof.
  intros Hu Hkept.
  destruct (update_store db now producto_id u)
    as [->|(r0 & s & Hget & Hs & Hco & Hfree & ->)]; [exact Hkept|].
  destruct Hkept as (Hids & Hseq & Hskus & Hrows).
  destruct (collect_update_checked u r0 s Hu Hs) as (Vn & Vs & Vc & Vp & Vk).
  pose proof (rewrite_any_engine (bind db) producto_id (apply_update now (at_scale s))
                                 (productos db)) as Hperm.
  set (F := fun x => if id x =? producto_id then apply_update now (at_scale s) x else x).
  assert (HidF : forall x, id (F x) = id x).
  { intros x. unfold F. now destruct (id x =? producto_id). }
  unfold catalog_kept. cbn [with_productos productos bind productos_id_seq].
  split; [|split; [|split]].
  - apply (Permutation_NoDup (Permutation_map id Hperm)).
    simpl. rewrite map_map. erewrite map_ext; [exact Hids | exact HidF].
  - apply (Permutation_Forall Hperm). simpl.
    rewrite Forall_forall in *. intros y Hy. apply in_map_iff in Hy.
    destruct Hy as (x & <- & Hx). fold (F x). rewrite HidF. now apply Hseq.
  - apply (Permutation_NoDup (Permutation_map sku Hperm)). simpl.
    apply nodup_map_of_same.
    { apply (NoDup_map_inv id). rewrite map_map.
      erewrite map_ext; [exact Hids | exact HidF]. }
    intros x' y' Hx' Hy'. apply in_map_iff in Hx', Hy'.
    destruct Hx' as (x & <- & Hx), Hy' as (y & <- & Hy). intros E.
    assert (Hxy : x = y); [|now rewrite Hxy].
    fold (F x) in E. fold (F y) in E. unfold F in E.
    destruct (id x =? producto_id) eqn:Ex, (id y =? producto_id) eqn:Ey.
    + apply Z.eqb_eq in Ex, Ey. apply (nodup_map_same id _ x y Hids Hx Hy). congruence.
    + simpl in E. destruct (set_sku s) as [v|] eqn:Hv; simpl in E.
      * apply Z.eqb_neq in Ey. exfalso. apply Ey. now apply (Hfree v y).
      * now apply (nodup_map_same sku _ x y Hskus).
    + simpl in E. destruct (set_sku s) as [v|] eqn:Hv; simpl in E.
      * apply Z.eqb_neq in Ex. exfalso. apply Ex. now apply (Hfree v x).
      * now apply (nodup_map_same sku _ x y Hskus).
    + now apply (nodup_map_same sku _ x y Hskus).
  - apply (Permutation_Forall Hperm). simpl.
    rewrite Forall_forall in *. intros y Hy. apply in_map_iff in Hy.
    destruct Hy as (x & <- & Hx).
    destruct (id x =? producto_id); [|now apply Hrows].
    apply apply_update_stored; auto.
Qed.

Lemma catalog_kept_no_rows (seq : Z) (engine : dialect) :
  catalog_kept (no_rows seq engine).
Proof. repeat split; constructor. Qed.

(** What each writing route leaves in the store. *)
Lemma crear_producto_store (db : Session) (now : Z) (body : ProductoCreate.payload) :
  snd (Routes.crear_producto db now body) =
  match ProductoCreate.validate body with
  | Ok p => snd (ProductoCRUD.create db now p)
  | Err _ => db
  end.
Proof.
  unfold Routes.crear_producto. destruct (ProductoCreate.validate body) as [p|]; [|reflexivity].
  now destruct (ProductoCRUD.create db now p) as [[r|[s| |]] db'].
Qed.

Lemma actualizar_producto_store (db : Session) (now producto_id : Z)
      (body : ProductoUpdate.payload) :
  snd (Routes.actualizar_producto db now producto_id body) =
  match ProductoUpdate.validate body with
  | Ok u => snd (ProductoCRUD.update db now producto_id u)
  | Err _ => db
  end.
Proof.
  unfold Routes.actualizar_producto.
  destruct (ProductoUpdate.validate body) as [u|]; [|reflexivity].
  now destruct (ProductoCRUD.update db now producto_id u) as [[[r|]|[s| |]] db'].
Qed.

Lemma eliminar_producto_store (db : Session) (producto_id : Z) :
  snd (Routes.eliminar_producto db producto_id) = snd (ProductoCRUD.delete db producto_id).
Proof.
  unfold Routes.eliminar_producto.
  now destruct (ProductoCRUD.delete db producto_id) as [[|] db'].
Qed.

Lemma serve_keeps_catalog (db : Session) (timed : Z * request) :
  catalog_kept db -> catalog_kept (serve db timed).
Proof.
  intros Hok. destruct timed as [now [body|producto_id body|producto_id]]; simpl.
  - rewrite crear_producto_store.
    destruct (ProductoCreate.validate body) as [p|] eqn:Hv; [|exact Hok].
    now apply create_keeps_catalog with (raw := body).
  - rewrite actualizar_producto_store.
    destruct (ProductoUpdate.validate body) as [u|] eqn:Hv; [|exact Hok].
    apply update_keeps_catalog; [|exact Hok]. now apply validate_update_checked in Hv.
  - rewrite eliminar_producto_store. now apply delete_keeps_catalog.
Qed.

(** X5: whatever requests to create, update and delete the routes serve,
    with whatever bodies, on either engine, the table stays as the service
    keeps it: no two rows share a key or a SKU, every key is below the value
    the next key is taken from, and every row holds what the service writes:
    a name of 1 to 150 characters, as SKU the upper case of a text of 3 to
    20 characters with one hyphen, a category of the enumeration, a positive
    price with two digits after the point and a stock that is not negative;
    on PostgreSQL, also a SKU, a price and a stock within the types of their
    columns. *)
Theorem serve_all_keeps_catalog (db : Session) (requests : list (Z * request)) :
  catalog_kept db -> catalog_kept (serve_all db requests).
Proof.
  unfold serve_all. revert db.
  induction requests as [|timed requests IH]; intros db Hok; simpl; [exact Hok|].
  apply IH. now apply serve_keeps_catalog.
Qed.

Lemma stamps_until_later (now now' : Z) (db : Session) :
  now <= now' -> stamps_until now db -> stamps_until now' db.
Proof.
  intros Hle. unfold stamps_until. apply Forall_impl. intros r. lia.
Qed.

Lemma serve_stamps (db : Session) (start now : Z) (req : request) :
  start <= now -> stamps_until start db -> stamps_until now (serve db (now, req)).
Proof.
  intros Hle H. pose proof (stamps_until_later _ _ _ Hle H) as H'.
  destruct req as [body|producto_id body|producto_id]; simpl.
  - rewrite crear_producto_store.
    destruct (ProductoCreate.validate body) as [p|]; [|exact H'].
    destruct (ProductoCRUD.create db now p) as [[r|e] db'] eqn:Hc.
    + apply create_ok in Hc. destruct Hc as (_ & Hr & -> & _). simpl.
      unfold stamps_until. simpl. apply Forall_app. split; [exact H'|].
      constructor; [|constructor]. rewrite Hr. simpl. lia.
    + pose proof (create_error db now p e) as He. rewrite Hc in He.
      destruct (He eq_refl) as [Hdb _]. simpl in *. now rewrite Hdb.
  - rewrite actualizar_producto_store.
    destruct (ProductoUpdate.validate body) as [u|]; [|exact H'].
    destruct (update_store db now producto_id u)
      as [->|(r0 & s & _ & _ & _ & _ & ->)]; [exact H'|].
    unfold stamps_until in *. simpl. rewrite Forall_forall in *.
    intros y Hy. apply in_rewrite in Hy.
    destruct Hy as [[Hy _]|(x & Hx & _ & ->)]; [now apply H'|].
    specialize (H x Hx). simpl. lia.
  - rewrite eliminar_producto_store. unfold stamps_until in *.
    rewrite delete_productos, Forall_forall in *.
    intros x Hx. apply filter_In in Hx. now apply H'.
Qed.

(** X6: when the clock of the store does not go back from one request to
    the next, every row keeps [fecha_registro <= fecha_actualizacion],
    whatever requests to create, update and delete are served. *)
Theorem serve_all_stamps_ordered (db : Session) (start : Z)
        (requests : list (Z * request)) :
  stamps_until start db -> clock_monotone start requests ->
  stamps_ordered (serve_all db requests).
Proof.
  unfold serve_all. revert db start.
  induction requests as [|[now req] requests IH]; intros db start H Hclock; simpl.
  - unfold stamps_ordered. eapply Forall_impl; [|exact H]. intros r. simpl. lia.
  - destruct Hclock as [Hle Hclock]. apply (IH _ now); [|exact Hclock].
    now apply serve_stamps with (start := start).
Qed.

(** ** Looking rows up *)

Lemma find_unique {A} (p : A -> bool) (l : list A) (r : A) :
  (forall x y, In x l -> In y l -> p x = true -> p y = true -> x = y) ->
  In r l -> p r = true -> List.find p l = Some r.
Proof.
  intros Huniq Hin Hp. destruct (List.find p l) as [x|] eqn:E.
  - apply List.find_some in E. destruct E as [Hx Hpx]. f_equal. now apply Huniq.
  - apply (List.find_none _ _ E) in Hin. congruence.
Qed.

Lemma find_app_not_last {A} (p : A -> bool) (l : list A) (x : A) :
  p x = false -> List.find p (l ++ [x]) = List.find p l.
Proof.
  intros Hx. induction l as [|y l IH]; simpl; [now rewrite Hx|].
  now destruct (p y).
Qed.

(** X7: on a table in which no two rows share a key or a SKU, [get_by_id]
    finds a row exactly when the row is in the table under that key, and
    [get_by_sku] finds a row exactly when the row is in the table under the
    upper case of the SKU asked for; two SKUs with the same upper case find
    the same row, so the letter case of the SKU asked for does not matter. *)
Theorem lookups_on_catalog (db : Session) (r : Producto) (producto_id : Z)
        (sku_ : str) :
  NoDup (List.map id (productos db)) ->
  NoDup (List.map sku (productos db)) ->
  (ProductoCRUD.get_by_id db producto_id = Some r
   <-> In r (productos db) /\ id r = producto_id)
  /\ (ProductoCRUD.get_by_sku db sku_ = Some r
      <-> In r (productos db) /\ sku r = Str.upper sku_)
  /\ (forall other, Str.upper other = Str.upper sku_ ->
                    ProductoCRUD.get_by_sku db other = ProductoCRUD.get_by_sku db sku_).
Proof.
  intros Hids Hskus.
  unfold ProductoCRUD.get_by_id, ProductoCRUD.get_by_sku, first.
  split; [|split].
  - split.
    + intros H. apply List.find_some in H. now rewrite Z.eqb_eq in H.
    + intros [Hin <-]. apply find_unique; [|exact Hin | apply Z.eqb_refl].
      intros x y Hx Hy Ex Ey. apply Z.eqb_eq in Ex, Ey.
      apply (nodup_map_same id _ x y Hids Hx Hy). congruence.
  - split.
    + intros H. apply List.find_some in H. now rewrite eqb_eq in H.
    + intros [Hin <-]. apply find_unique; [|exact Hin | apply eqb_refl].
      intros x y Hx Hy Ex Ey. apply eqb_eq in Ex, Ey.
      apply (nodup_map_same sku _ x y Hskus Hx Hy). congruence.
  - intros other ->. reflexivity.
Qed.

Lemma create_get_by_id (db db' : Session) (now : Z) (p : ProductoCreate.t)
      (r : Producto) :
  Forall (fun x => id x < productos_id_seq db) (productos db) ->
  ProductoCRUD.create db now p = (Ok r, db') ->
  ProductoCRUD.get_by_id db' (id r) = Some r.
Proof.
  intros Hseq Hc. apply create_ok in Hc. destruct Hc as (_ & Hr & -> & _).
  assert (Hkey : id r = productos_id_seq db) by now rewrite Hr.
  unfold ProductoCRUD.get_by_id, first. simpl.
  rewrite find_app_last; [now rewrite Z.eqb_refl|].
  destruct (List.find _ (productos db)) as [x|] eqn:E; [|reflexivity].
  apply List.find_some in E. destruct E as [Hin E]. apply Z.eqb_eq in E.
  rewrite Forall_forall in Hseq. specialize (Hseq x Hin). lia.
Qed.

(** X8: on a table whose keys are below the next value of the sequence, the
    record that [create] returns is the one [get_by_id] finds under its key
    afterwards; the other keys answer as before and the table has one row
    more. *)
Theorem create_then_get_by_id (db db' : Session) (now : Z) (p : ProductoCreate.t)
        (r : Producto) :
  Forall (fun x => id x < productos_id_seq db) (productos db) ->
  ProductoCRUD.create db now p = (Ok r, db') ->
  ProductoCRUD.get_by_id db' (id r) = Some r
  /\ (forall k, k <> id r -> ProductoCRUD.get_by_id db' k = ProductoCRUD.get_by_id db k)
  /\ ProductoCRUD.count_all db' None None = ProductoCRUD.count_all db None None + 1.
Proof.
  intros Hseq Hc. split; [exact (create_get_by_id _ _ _ _ _ Hseq Hc)|].
  apply create_ok in Hc. destruct Hc as (_ & Hr & -> & _).
  assert (Hkey : id r = productos_id_seq db) by now rewrite Hr.
  unfold ProductoCRUD.get_by_id, ProductoCRUD.count_all, first.
  simpl. split.
  - intros k Hk. apply find_app_not_last. now apply Z.eqb_neq.
  - rewrite length_app. simpl. lia.
Qed.

Lemma create_then_get_by_id_witness :
  exists r db',
    ProductoCRUD.create panaderia 150
      (ProductoCreate.mk "Croissant" "PAS-0101" PASTELERIA (mkDecimal 275 (-2)) 60 true)
    = (Ok r, db')
    /\ ProductoCRUD.get_by_id db' (id r) = Some r.
Proof.
  eexists. eexists. split; [reflexivity|].
  refine (proj1 (create_then_get_by_id panaderia _ 150
    (ProductoCreate.mk "Croissant" "PAS-0101" PASTELERIA (mkDecimal 275 (-2)) 60 true)
    _ _ _)); [repeat constructor | reflexivity].
Defined.

(** ** The errors of [update] *)

(** The commit of an update that ends with an error has written nothing. *)
Lemma commit_update_error (db : Session) (now : Z) (committed : Producto) (o : attrs)
      (e : crud_error) :
  fst (commit_update db now committed o) = Err e ->
  (e = IntegrityError \/ e = DataError /\ bind db = postgresql)
  /\ snd (commit_update db now committed o) = db.
Proof.
  destruct (commit_update_cases db now committed o)
    as [(e' & -> & He)|[(s & _ & _ & ->)|(s & _ & _ & _ & _ & ->)]]; simpl;
    try discriminate.
  intros H. injection H as <-. now split.
Qed.

(** The SKU that [update] finds taken, if any. *)
Lemma sku_changes_some (u : ProductoUpdate.t) (r0 : Producto) (s : str) :
  ProductoCRUD.sku_changes u r0 = Some s <->
  attr (ProductoUpdate.sku u) = Some s /\ s <> "" /\ s <> sku r0.
Proof.
  unfold ProductoCRUD.sku_changes, ProductoCRUD.truthy.
  destruct (attr (ProductoUpdate.sku u)) as [s'|].
  2:{ split; [discriminate | intros (H & _); discriminate H]. }
  destruct (Str.eqb s' (sku r0)) eqn:E.
  - apply eqb_eq in E. rewrite andb_false_r. split; [discriminate|].
    intros (H & _ & Hd). injection H as <-. contradiction.
  - apply eqb_neq in E. destruct s' as [|c s']; simpl.
    + split; [discriminate|]. intros (H & Hn & _). injection H as <-. now contradiction Hn.
    + split.
      * intros H. injection H as <-. repeat split; [discriminate | exact E].
      * intros (H & _). now rewrite H.
Qed.

Lemma after_commit_error (db : Session) (now : Z) (r0 : Producto) (o : attrs)
      (e : crud_error) :
  fst (match commit_update db now r0 o with
       | (Err e', db') => (Err e', db')
       | (Ok _, db') => (Ok (Some (refresh db' r0)), db')
       end) = Err e ->
  (e = IntegrityError \/ e = DataError /\ bind db = postgresql)
  /\ snd (match commit_update db now r0 o with
          | (Err e', db') => (Err e', db')
          | (Ok _, db') => (Ok (Some (refresh db' r0)), db')
          end) = db.
Proof.
  pose proof (commit_update_error db now r0 o) as H.
  destruct (commit_update db now r0 o) as [[[]|e'] db']; simpl in *; [discriminate|].
  intros E. injection E as <-. now apply H.
Qed.

(** Whatever error [update] ends with, it has written nothing. *)
Lemma update_error_store (db : Session) (now producto_id : Z) (u : ProductoUpdate.t)
      (e : crud_error) :
  fst (ProductoCRUD.update db now producto_id u) = Err e ->
  snd (ProductoCRUD.update db now producto_id u) = db.
Proof.
  destruct (ProductoCRUD.get_by_id db producto_id) as [r0|] eqn:Hget.
  2:{ unfold ProductoCRUD.update. unfold ProductoCRUD.get_by_id in Hget.
      now rewrite Hget. }
  rewrite (update_found _ _ _ _ _ Hget).
  destruct (ProductoCRUD.sku_changes u r0) as [s|].
  - destruct (first _ db); [reflexivity|].
    intros H. now apply after_commit_error in H.
  - intros H. now apply after_commit_error in H.
Qed.

(** X9: [update] raises the duplicate-SKU [ValueError] exactly when the row
    exists, the SKU given is not empty and not the one the row has, and a
    row with another key has it; the SKU that the row already has is never
    a duplicate.  Whatever error [update] ends with, the store is as it
    was. *)
Theorem update_duplicate_sku (db : Session) (now producto_id : Z)
        (u : ProductoUpdate.t) (s : str) :
  (fst (ProductoCRUD.update db now producto_id u) = Err (ValueError s)
   <-> exists r0,
        ProductoCRUD.get_by_id db producto_id = Some r0
        /\ attr (ProductoUpdate.sku u) = Some s
        /\ s <> "" /\ s <> sku r0
        /\ exists x, In x (productos db) /\ sku x = s /\ id x <> producto_id)
  /\ (forall e, fst (ProductoCRUD.update db now producto_id u) = Err e ->
                snd (ProductoCRUD.update db now producto_id u) = db).
Proof.
  split; [|intros e; apply update_error_store].
  destruct (ProductoCRUD.get_by_id db producto_id) as [r0|] eqn:Hget.
  2:{ unfold ProductoCRUD.update. unfold ProductoCRUD.get_by_id in Hget. rewrite Hget.
      split; [discriminate | intros (r0 & H & _); discriminate H]. }
  rewrite (update_found _ _ _ _ _ Hget).
  destruct (ProductoCRUD.sku_changes u r0) as [s'|] eqn:Hch.
  - apply sku_changes_some in Hch. destruct Hch as (Hattr & Hne & Hdiff).
    destruct (first _ db) as [x|] eqn:Hx.
    + simpl. split.
      * intros H. injection H as <-. exists r0. repeat split; try assumption.
        apply first_some in Hx. destruct Hx as [Hin Hx].
        apply andb_true_iff in Hx. destruct Hx as [Hs Hid].
        exists x. split; [exact Hin|]. split; [now apply eqb_eq|].
        apply negb_true_iff in Hid. now apply Z.eqb_neq.
      * intros (r1 & _ & H & _). congruence.
    + split.
      * intros H. apply after_commit_error in H.
        destruct H as [[H|[H _]] _]; discriminate H.
      * intros (r1 & _ & H & _ & _ & x & Hin & Hsku & Hid).
        assert (s' = s) by congruence. subst s'.
        exfalso. apply (first_none _ _ Hx) in Hin.
        rewrite Hsku, eqb_refl in Hin. simpl in Hin.
        apply negb_false_iff in Hin. apply Z.eqb_eq in Hin. contradiction.
  - split.
    + intros H. apply after_commit_error in H.
      destruct H as [[H|[H _]] _]; discriminate H.
    + intros (r1 & H1 & H & Hne & Hdiff & _).
      assert (r1 = r0) by congruence. subst r1.
      assert (Hs : ProductoCRUD.sku_changes u r0 = Some s)
        by now apply sku_changes_some.
      congruence.
Qed.

Lemma update_duplicate_sku_witness :
  fst (ProductoCRUD.update dos_productos 200 2 (sku_supplied "PAN-0001"))
  = Err (ValueError "PAN-0001")
  /\ fst (ProductoCRUD.update dos_productos 200 1 (sku_supplied "PAN-0001"))
     = Ok (Some pan_frances).
Proof.
  split; [|reflexivity].
  apply (proj2 (proj1 (update_duplicate_sku dos_productos 200 2
                         (sku_supplied "PAN-0001") "PAN-0001"))).
  exists croissant. repeat split; try discriminate.
  exists pan_frances. repeat split; [now left | discriminate].
Defined.

Lemma column_is_null {A} (is_equal : A -> A -> bool) (f : supplied A) (stored : A) :
  (forall x, is_equal x x = true) ->
  (exists c, column is_equal (current f stored) stored = Ok c) <-> is_null f = false.
Proof.
  intros Hrefl. unfold column, current, is_null. destruct f as [|[v|]].
  - rewrite Hrefl. split; [reflexivity | now exists None].
  - split; [reflexivity|]. intros _. destruct (is_equal v stored); eauto.
  - split; [intros [c H]; discriminate H | discriminate].
Qed.

Lemma is_null_supplied_map {A B} (g : A -> B) (f : supplied A) :
  is_null (supplied_map g f) = is_null f.
Proof. now destruct f as [|[v|]]. Qed.

(** The flush collects a SET clause exactly when no field is given [null]. *)
Lemma collect_update_has_null (u : ProductoUpdate.t) (r0 : Producto) :
  (exists s,
      collect_update (List.fold_left setattr (model_dump_exclude_unset u) (loaded r0)) r0
      = Ok s)
  <-> has_null u = false.
Proof.
  rewrite setattr_loop. unfold collect_update, has_null. simpl.
  pose proof (column_is_null Str.eqb (ProductoUpdate.nombre u) (nombre r0)
                eqb_refl) as Hn.
  pose proof (column_is_null Str.eqb (ProductoUpdate.sku u) (sku r0)
                eqb_refl) as Hs.
  pose proof (column_is_null Str.eqb
                (supplied_map categoria_value (ProductoUpdate.categoria u))
                (categoria r0) eqb_refl) as Hc.
  rewrite is_null_supplied_map in Hc.
  pose proof (column_is_null Dec.eqb (ProductoUpdate.precio_unitario u)
                (precio_unitario r0) dec_eqb_refl) as Hp.
  pose proof (column_is_null Z.eqb (ProductoUpdate.stock u) (stock r0) Z.eqb_refl) as Hk.
  pose proof (column_is_null Bool.eqb (ProductoUpdate.disponible u) (disponible r0)
                (fun b => Bool.eqb_reflx b)) as Hd.
  destruct (column Str.eqb (current (ProductoUpdate.nombre u) _) _) as [cn|].
  2:{ destruct (is_null (ProductoUpdate.nombre u)).
      - split; [intros [s H]; discriminate H | discriminate].
      - destruct (proj2 Hn eq_refl) as [c H]. discriminate H. }
  rewrite (proj1 Hn (ex_intro _ cn eq_refl)).
  destruct (column Str.eqb (current (ProductoUpdate.sku u) _) _) as [cs|].
  2:{ destruct (is_null (ProductoUpdate.sku u)).
      - split; [intros [s H]; discriminate H | discriminate].
      - destruct (proj2 Hs eq_refl) as [c H]. discriminate H. }
  rewrite (proj1 Hs (ex_intro _ cs eq_refl)).
  destruct (column Str.eqb (current (supplied_map _ _) _) _) as [cc|].
  2:{ destruct (is_null (ProductoUpdate.categoria u)).
      - split; [intros [s H]; discriminate H | discriminate].
      - destruct (proj2 Hc eq_refl) as [c H]. discriminate H. }
  rewrite (proj1 Hc (ex_intro _ cc eq_refl)).
  destruct (column Dec.eqb _ _) as [cp|].
  2:{ destruct (is_null (ProductoUpdate.precio_unitario u)).
      - split; [intros [s H]; discriminate H | discriminate].
      - destruct (proj2 Hp eq_refl) as [c H]. discriminate H. }
  rewrite (proj1 Hp (ex_intro _ cp eq_refl)).
  destruct (column Z.eqb _ _) as [ck|].
  2:{ destruct (is_null (ProductoUpdate.stock u)).
      - split; [intros [s H]; discriminate H | discriminate].
      - destruct (proj2 Hk eq_refl) as [c H]. discriminate H. }
  rewrite (proj1 Hk (ex_intro _ ck eq_refl)).
  destruct (column Bool.eqb _ _) as [cd|].
  2:{ destruct (is_null (ProductoUpdate.disponible u)).
      - split; [intros [s H]; discriminate H | discriminate].
      - destruct (proj2 Hd eq_refl) as [c H]. discriminate H. }
  rewrite (proj1 Hd (ex_intro _ cd eq_refl)).
  split; [reflexivity | eauto].
Qed.

(** With a field given as [null], the commit is refused and writes nothing. *)
Lemma commit_update_null (db : Session) (now : Z) (u : ProductoUpdate.t) (r0 : Producto) :
  has_null u = true ->
  commit_update db now r0
    (List.fold_left setattr (model_dump_exclude_unset u) (loaded r0))
  = (Err IntegrityError, db).
Proof.
  intros Hnull. unfold commit_update.
  destruct (collect_update _ r0) as [c|e] eqn:Hc.
  - assert (has_null u = false) by (apply (collect_update_has_null u r0); eauto).
    congruence.
  - apply collect_update_error in Hc. now subst e.
Qed.



(** ASCII or not, the upper case of a text with a hyphen is not empty. *)
Lemma sku_stored_not_empty (v : str) : sku_stored v -> v <> "".
Proof.
  intros (w & _ & Hcount & ->) E.
  assert (H : Str.is_empty (Str.upper w) = false)
    by (apply upper_not_empty; rewrite Hcount; discriminate).
  rewrite E in H. discriminate H.
Qed.

(** The errors of the commit of a checked update without [null], past the
    duplicate check: none but the refusal of a column type. *)
Lemma commit_update_checked (db : Session) (now producto_id : Z) (u : ProductoUpdate.t)
      (r0 : Producto) (e : crud_error) :
  update_checked u -> has_null u = false ->
  ProductoCRUD.get_by_id db producto_id = Some r0 ->
  (forall s, ProductoCRUD.sku_changes u r0 = Some s ->
             first (fun r => Str.eqb (sku r) s && negb (id r =? producto_id)) db
             = None) ->
  fst (commit_update db now r0
         (List.fold_left setattr (model_dump_exclude_unset u) (loaded r0))) = Err e ->
  e = DataError /\ bind db = postgresql.
Proof.
  intros Hchecked Hnull Hget Hfree.
  pose proof (get_by_id_key _ _ _ Hget) as Hid.
  destruct (proj2 (collect_update_has_null u r0) Hnull) as [c Hc].
  unfold commit_update. rewrite Hc.
  destruct (no_columns c); [discriminate|].
  destruct (coerce_cases (bind db) c) as [[-> Hb]|[-> _]].
  { simpl. intros H. injection H as <-. now split. }
  cbn [at_scale set_sku].
  destruct (set_sku c) as [v|] eqn:Hv; [|discriminate].
  destruct (collect_update_checked u r0 c Hchecked Hc) as (_ & Vs & _).
  pose proof (sku_stored_not_empty v (Vs v Hv)) as Hne.
  apply collect_update_columns in Hc. destruct Hc as (_ & Hs & _).
  apply column_current in Hs; [|apply eqb_refl].
  destruct Hs as (_ & _ & _ & _ & Hs). destruct (Hs v Hv) as [Hgiven Hdiff].
  assert (Hch : ProductoCRUD.sku_changes u r0 = Some v).
  { apply sku_changes_some. rewrite Hgiven. simpl.
    split; [reflexivity|]. split; [exact Hne|]. now apply eqb_neq. }
  specialize (Hfree v Hch). unfold first in Hfree.
  apply find_none_existsb in Hfree. rewrite Hid, Hfree. discriminate.
Qed.


(** ** Pages *)

Lemma firstn_plus {A} (n m : nat) (l : list A) :
  firstn (n + m) l = (firstn n l ++ firstn m (skipn n l))%list.
Proof.
  revert l. induction n as [|n IH]; intros l; [reflexivity|].
  destruct l as [|x l]; simpl; [now rewrite firstn_nil | now rewrite IH].
Qed.

(** With [skip] and [limit] not negative, both engines page alike. *)
Lemma offset_limit_nonneg (engine : dialect) (skip limit : Z) (query : list Producto) :
  0 <= skip -> 0 <= limit ->
  offset_limit engine skip limit query
  = Ok (firstn (Z.to_nat limit) (skipn (Z.to_nat skip) query)).
Proof.
  intros Hs Hl. unfold offset_limit.
  replace (skip <? 0) with false by (symmetry; apply Z.ltb_ge; lia).
  replace (limit <? 0) with false by (symmetry; apply Z.ltb_ge; lia).
  now destruct engine.
Qed.

Lemma offset_limit_concat (engine : dialect) (skip limit1 limit2 : Z)
      (query : list Producto) :
  0 <= skip -> 0 <= limit1 -> 0 <= limit2 ->
  exists a b,
    offset_limit engine skip limit1 query = Ok a
    /\ offset_limit engine (skip + limit1) limit2 query = Ok b
    /\ offset_limit engine skip (limit1 + limit2) query = Ok (a ++ b)%list.
Proof.
  intros Hs H1 H2. rewrite !offset_limit_nonneg by lia.
  eexists. eexists. split; [reflexivity|]. split; [reflexivity|].
  rewrite !Z2Nat.inj_add by lia. rewrite firstn_plus, skipn_skipn.
  now rewrite (Nat.add_comm (Z.to_nat limit1)).
Qed.



(** ** Searching, on every term *)

Lemma like_tokens_total (escape : option char) (s : str) :
  is_escape escape "%" = false ->
  forall c,
    (exists t, like_tokens escape (String c (s ++ "%")) = Some t)
    /\ (exists t, like_tokens escape (s ++ "%") = Some t).
Proof.
  intros Hesc. induction s as [|d s IH]; intros c.
  - split.
    + simpl. destruct (is_escape escape c); [eauto|]. rewrite Hesc. simpl. eauto.
    + simpl. rewrite Hesc. simpl. eauto.
  - destruct (IH d) as [[t1 H1] [t2 H2]]. split; [|eauto].
    change (String d s ++ "%") with (String d (s ++ "%")).
    cbn [like_tokens]. destruct (is_escape escape c).
    + rewrite H2. simpl. eauto.
    + cbn [like_tokens] in H1. rewrite H1. simpl. eauto.
Qed.

(** Every search term makes a pattern that the engine reads. *)
Lemma search_pattern_tokens (engine : dialect) (nombre_ : str) :
  exists tokens,
    like_tokens (like_escape engine) (ilike_fold engine ("%" ++ nombre_ ++ "%"))
    = Some tokens.
Proof.
  rewrite !ilike_fold_append, ilike_fold_percent.
  change ("%" ++ ilike_fold engine nombre_ ++ "%")
    with (String "%" (ilike_fold engine nombre_ ++ "%")).
  apply like_tokens_total, percent_no_escape.
Qed.

Lemma in_page (skip limit : Z) (all items : list Producto) (r : Producto) :
  page_of skip limit all items -> In r items -> In r all.
Proof.
  intros (before & after & -> & _) Hr.
  apply in_or_app. right. apply in_or_app. now left.
Qed.



(** ** The responses *)

Lemma field_nombre_valid (v : str) :
  (1 <= Str.len v <= 150)%nat -> ProductoBase.field_nombre v = Ok v.
Proof. intros H. now apply field_nombre_spec. Qed.

Lemma validate_row (r : Producto) (c : CategoriaProducto) :
  row_valid r -> categoria r = categoria_value c ->
  ProductoResponse.validate r
  = Ok (ProductoResponse.mk (id r) (nombre r) (sku r) c (precio_unitario r)
                            (stock r) (disponible r)
                            (fecha_registro r) (fecha_actualizacion r)).
Proof.
  intros (Hn & Hs & _ & Hp & Hk) Hc.
  destruct r as [i n s cat p k d fr fa]. simpl in *. subst cat.
  rewrite (field_nombre_valid _ Hn), (sku_valid_field _ Hs).
  rewrite (proj2 (field_categoria_ok _ c) eq_refl).
  rewrite (proj2 (field_precio_unitario_ok p p) (conj Hp eq_refl)).
  rewrite (proj2 (field_stock_ok k k) (conj Hk eq_refl)).
  reflexivity.
Qed.

Lemma validate_row_id (r : Producto) :
  row_valid r ->
  exists b, ProductoResponse.validate r = Ok b /\ ProductoResponse.id b = id r.
Proof.
  intros H. pose proof H as (_ & _ & (c & Hc) & _).
  rewrite (validate_row r c H Hc). eauto.
Qed.

(** X15: a row within the constraints of the schemas goes through the
    response schema unchanged: [ProductoResponse] validates it and every
    field of the response is the column of the row. *)
Theorem response_of_valid_row (r : Producto) :
  row_valid r ->
  exists c,
    categoria r = categoria_value c
    /\ ProductoResponse.validate r
       = Ok (ProductoResponse.mk (id r) (nombre r) (sku r) c (precio_unitario r)
                                 (stock r) (disponible r)
                                 (fecha_registro r) (fecha_actualizacion r)).
Proof.
  intros H. pose proof H as (_ & _ & (c & Hc) & _).
  exists c. split; [exact Hc | now apply validate_row].
Qed.

Lemma respond_valid (status_code : Z) (r : Producto) :
  row_valid r -> exists body, Routes.respond status_code r = Respond status_code body.
Proof.
  intros H. destruct (validate_row_id r H) as (b & Hv & _).
  unfold Routes.respond. rewrite Hv. eauto.
Qed.

Lemma validate_all_valid (rows : list Producto) :
  Forall row_valid rows ->
  exists items,
    ProductoResponse.validate_all rows = Ok items
    /\ List.map ProductoResponse.id items = List.map id rows.
Proof.
  induction rows as [|r rows IH]; intros H; simpl.
  - now exists [].
  - inversion H as [|? ? Hr Hrows]; subst.
    destruct (validate_row_id r Hr) as (b & -> & Hb).
    destruct (IH Hrows) as (items & -> & Hids).
    eexists. split; [reflexivity|]. simpl. now rewrite Hids, Hb.
Qed.

Lemma response_id (r : Producto) (b : ProductoResponse.t) :
  ProductoResponse.validate r = Ok b -> ProductoResponse.id b = id r.
Proof.
  destruct r as [i n s c p k d fr fa]. unfold ProductoResponse.validate. cbv zeta.
  destruct (ProductoBase.field_nombre n); [|discriminate].
  destruct (ProductoBase.field_sku s); [|discriminate].
  destruct (ProductoBase.field_categoria c); [|discriminate].
  destruct (ProductoBase.field_precio_unitario p); [|discriminate].
  destruct (ProductoBase.field_stock k); [|discriminate].
  intros H. injection H as <-. reflexivity.
Qed.

(** ** The routes *)

(** The three ways [create] ends: the SKU is taken; PostgreSQL refuses a
    value outside the type of its column; the row is appended. *)
Lemma create_cases (db : Session) (now : Z) (p : ProductoCreate.t) :
  (exists x, first (fun r => Str.eqb (sku r) (ProductoCreate.sku p)) db = Some x
             /\ ProductoCRUD.create db now p
                = (Err (ValueError (ProductoCreate.sku p)), db))
  \/ (first (fun r => Str.eqb (sku r) (ProductoCreate.sku p)) db = None
      /\ ProductoCRUD.create db now p = (Err DataError, db)
      /\ bind db = postgresql)
  \/ (first (fun r => Str.eqb (sku r) (ProductoCreate.sku p)) db = None
      /\ exists r,
          r = {| id := productos_id_seq db;
                 nombre := ProductoCreate.nombre p;
                 sku := ProductoCreate.sku p;
                 categoria := categoria_value (ProductoCreate.categoria p);
                 precio_unitario := Dec.quantize (ProductoCreate.precio_unitario p);
                 stock := ProductoCreate.stock p;
                 disponible := ProductoCreate.disponible p;
                 fecha_registro := now;
                 fecha_actualizacion := now |}
          /\ ProductoCRUD.create db now p
             = (Ok r, {| bind := bind db;
                         productos := productos db ++ [r];
                         productos_id_seq := productos_id_seq db + 1 |})).
Proof.
  unfold ProductoCRUD.create.
  destruct (first _ db) as [x|] eqn:E; [left; eauto|]. right.
  pose proof E as Hnone. unfold first in Hnone. apply find_none_existsb in Hnone.
  destruct (insert_cases db now p) as [(e & -> & [[-> Hb]|[_ Hx]])|(_ & _ & ->)].
  - left. auto.
  - congruence.
  - right. split; [reflexivity|]. eexists. split; reflexivity.
Qed.

(** The record that a body whose SKU is ASCII text becomes goes through the
    response schema as it is. *)
Lemma created_row_response (raw : ProductoCreate.payload) (p : ProductoCreate.t)
      (key now : Z) :
  ProductoCreate.validate raw = Ok p ->
  Str.isascii (ProductoCreate.raw_sku raw) = true ->
  ProductoResponse.validate
    {| id := key;
       nombre := ProductoCreate.nombre p;
       sku := ProductoCreate.sku p;
       categoria := categoria_value (ProductoCreate.categoria p);
       precio_unitario := Dec.quantize (ProductoCreate.precio_unitario p);
       stock := ProductoCreate.stock p;
       disponible := ProductoCreate.disponible p;
       fecha_registro := now;
       fecha_actualizacion := now |}
  = Ok (ProductoResponse.mk key (ProductoCreate.nombre p) (ProductoCreate.sku p)
          (ProductoCreate.categoria p) (Dec.quantize (ProductoCreate.precio_unitario p))
          (ProductoCreate.stock p) (ProductoCreate.disponible p) now now).
Proof.
  intros Hv Hascii.
  destruct (created_row_stored raw p key now Hv) as [(Hn & _ & Hc & Hp & Hk) _].
  apply validate_create_fields in Hv. destruct Hv as (_ & Hs & _).
  apply (field_sku_valid _ _ Hascii) in Hs.
  refine (validate_row
            {| id := key;
               nombre := ProductoCreate.nombre p;
               sku := ProductoCreate.sku p;
               categoria := categoria_value (ProductoCreate.categoria p);
               precio_unitario := Dec.quantize (ProductoCreate.precio_unitario p);
               stock := ProductoCreate.stock p;
               disponible := ProductoCreate.disponible p;
               fecha_registro := now;
               fecha_actualizacion := now |}
            (ProductoCreate.categoria p) _ eq_refl).
  unfold row_valid, precio_valid. simpl in *.
  destruct Hp as [Hp He]. rewrite He.
  split; [exact Hn|]. split; [exact Hs|]. split; [exact Hc|].
  split; [split; [exact Hp | lia] | exact Hk].
Qed.


Lemma find_filter_other (l : list Producto) (producto_id k : Z) :
  k <> producto_id ->
  List.find (fun x => id x =? k) (List.filter (fun x => negb (id x =? producto_id)) l)
  = List.find (fun x => id x =? k) l.
Proof.
  intros Hk. induction l as [|x l IH]; simpl; [reflexivity|].
  destruct (id x =? producto_id) eqn:E; simpl.
  - apply Z.eqb_eq in E. replace (id x =? k) with false; [exact IH|].
    symmetry. apply Z.eqb_neq. congruence.
  - now rewrite IH.
Qed.


Lemma query_bounds (skip limit : Z) :
  (Routes.query_skip skip ++ Routes.query_limit limit)%list = []
  <-> 0 <= skip /\ 1 <= limit <= 1000.
Proof.
  unfold Routes.query_skip, Routes.query_limit.
  destruct (skip <? 0) eqn:Es; [apply Z.ltb_lt in Es | apply Z.ltb_ge in Es];
    destruct (limit <? 1) eqn:E1; [apply Z.ltb_lt in E1 | apply Z.ltb_ge in E1
                                   | apply Z.ltb_lt in E1 | apply Z.ltb_ge in E1];
    destruct (1000 <? limit) eqn:E2;
    try apply Z.ltb_lt in E2; try apply Z.ltb_ge in E2;
    simpl; split; try discriminate; try lia; try reflexivity.
Qed.

(** The query parameters are refused exactly when they are out of bounds. *)
Lemma query_refused (skip limit : Z) :
  if (skip <? 0) || (limit <? 1) || (1000 <? limit)
  then exists q qs, (Routes.query_skip skip ++ Routes.query_limit limit)%list = q :: qs
  else (Routes.query_skip skip ++ Routes.query_limit limit)%list = []
       /\ 0 <= skip /\ 1 <= limit <= 1000.
Proof.
  pose proof (query_bounds skip limit) as Hq.
  destruct ((skip <? 0) || (limit <? 1) || (1000 <? limit)) eqn:Hb.
  - destruct (Routes.query_skip skip ++ Routes.query_limit limit)%list as [|q qs] eqn:E;
      [|eauto].
    exfalso. destruct (proj1 Hq eq_refl) as [Hs [Hl1 Hl2]].
    apply orb_true_iff in Hb. destruct Hb as [Hb|Hb].
    + apply orb_true_iff in Hb. destruct Hb as [Hb|Hb]; apply Z.ltb_lt in Hb; lia.
    + apply Z.ltb_lt in Hb. lia.
  - apply orb_false_iff in Hb. destruct Hb as [Hb H3].
    apply orb_false_iff in Hb. destruct Hb as [H1 H2].
    apply Z.ltb_ge in H1, H2, H3. split; [apply Hq|]; lia.
Qed.

Lemma page_of_valid (skip limit : Z) (all items : list Producto) :
  page_of skip limit all items ->
  Forall row_valid all ->
  Forall row_valid items /\ (List.length items <= List.length all)%nat.
Proof.
  intros (before & after & Heq & _ & Hlen) Hall. split; [|lia].
  rewrite Heq in Hall. apply Forall_app in Hall. destruct Hall as [_ Hall].
  now apply Forall_app in Hall.
Qed.

(** X18: GET /productos/ on a table whose rows are within the constraints
    of the schemas, with a [skip] within 64 bits: it answers 422 exactly
    when [skip] is negative or [limit] is outside 1 to 1000, and otherwise
    200 with the rows of [get_all] as items, the count of [count_all] as
    total, [limit] as size and [skip // limit + 1] as page; there are at
    most [size] items and at most [total], and the page is the one [skip]
    falls in: [(page - 1) * size <= skip < page * size]. *)
Theorem listar_productos_outcome (db : Session) (skip limit : Z)
        (categoria_ : option str) (disponible_ : option bool) :
  Forall row_valid (productos db) ->
  skip < 2 ^ 63 ->
  if (skip <? 0) || (limit <? 1) || (1000 <? limit)
  then exists errors,
      errors <> []
      /\ Routes.listar_productos db skip limit categoria_ disponible_
         = Unprocessable [] errors
  else exists items rows,
      Routes.listar_productos db skip limit categoria_ disponible_
      = Respond 200
          (ProductoListResponse.mk items
             (ProductoCRUD.count_all db categoria_ disponible_)
             (skip / limit + 1) limit)
      /\ ProductoCRUD.get_all db skip limit categoria_ disponible_ = Ok rows
      /\ List.map ProductoResponse.id items = List.map id rows
      /\ Z.of_nat (List.length items) <= limit
      /\ Z.of_nat (List.length items) <= ProductoCRUD.count_all db categoria_ disponible_
      /\ (skip / limit + 1 - 1) * limit <= skip < (skip / limit + 1) * limit.
Proof.
  intros Hrows _. unfold Routes.listar_productos.
  pose proof (query_refused skip limit) as Hq.
  destruct ((skip <? 0) || (limit <? 1) || (1000 <? limit)).
  - destruct Hq as (q & qs & ->). exists (q :: qs). split; [discriminate | reflexivity].
  - destruct Hq as (-> & H1 & H2 & H3).
    rewrite get_all_selects, count_all_selects.
    set (all := List.filter _ _).
    destruct (offset_limit_page (bind db) skip limit all) as (rows & -> & Hpage); try lia.
    assert (Hall : Forall row_valid all).
    { unfold all. rewrite Forall_forall in *. intros x Hx.
      apply filter_In in Hx. now apply Hrows. }
    destruct (page_of_valid _ _ _ _ Hpage Hall) as [Hvalid Hlen].
    destruct (validate_all_valid rows Hvalid) as (items & -> & Hids).
    exists items, rows. split; [reflexivity|]. split; [reflexivity|].
    split; [exact Hids|].
    assert (Hsame : List.length items = List.length rows).
    { rewrite <- (List.length_map ProductoResponse.id), Hids. apply List.length_map. }
    destruct Hpage as (_ & _ & _ & _ & Hmin).
    split; [lia|]. split; [lia|].
    pose proof (Z.mul_div_le skip limit ltac:(lia)).
    pose proof (Z.mul_succ_div_gt skip limit ltac:(lia)).
    split; nia.
Qed.

(** The ways [update] ends on a row it finds, with a checked update that
    gives no [null]. *)
Lemma update_checked_cases (db : Session) (now producto_id : Z)
      (u : ProductoUpdate.t) (r0 : Producto) :
  update_checked u -> has_null u = false ->
  ProductoCRUD.get_by_id db producto_id = Some r0 ->
  (exists r db', ProductoCRUD.update db now producto_id u = (Ok (Some r), db'))
  \/ (exists s, ProductoCRUD.update db now producto_id u = (Err (ValueError s), db))
  \/ (ProductoCRUD.update db now producto_id u = (Err DataError, db)
      /\ bind db = postgresql).
Proof.
  intros Hchecked Hnull Hget. rewrite (update_found _ _ _ _ _ Hget).
  pose proof (commit_update_checked db now producto_id u r0) as Hcommit.
  pose proof (commit_update_error db now r0
                (List.fold_left setattr (model_dump_exclude_unset u) (loaded r0)))
    as Hstore.
  assert (Hcases :
    (forall s, ProductoCRUD.sku_changes u r0 = Some s ->
               first (fun r => Str.eqb (sku r) s && negb (id r =? producto_id)) db
               = None) ->
    (exists r db',
        match commit_update db now r0
                (List.fold_left setattr (model_dump_exclude_unset u) (loaded r0)) with
        | (Err e, d) => (Err e, d)
        | (Ok _, d) => (Ok (Some (refresh d r0)), d)
        end = (Ok (Some r), db'))
    \/ (match commit_update db now r0
                (List.fold_left setattr (model_dump_exclude_unset u) (loaded r0)) with
        | (Err e, d) => (Err e, d)
        | (Ok _, d) => (@Ok crud_error _ (Some (refresh d r0)), d)
        end = (Err DataError, db)
        /\ bind db = postgresql)).
  { intros Hfree.
    destruct (commit_update db now r0 _) as [[[]|e] d]; [left; eauto|]. right.
    destruct (Hcommit e Hchecked Hnull Hget Hfree eq_refl) as [-> Hb].
    destruct (Hstore DataError eq_refl) as [_ Hd]. simpl in Hd. now rewrite Hd. }
  destruct (ProductoCRUD.sku_changes u r0) as [s|].
  - destruct (first _ db) as [x|] eqn:Hx; [right; left; eauto|].
    destruct Hcases as [H|H]; [|now left | now right; right].
    intros s' E. injection E as <-. exact Hx.
  - destruct Hcases as [H|H]; [|now left | now right; right].
    intros s' E. discriminate E.
Qed.



(** X21: on a table whose keys are below the next value of the sequence,
    the record that POST /productos/ answers with 201 is the record that
    GET /productos/{id} answers with 200 for its key, on the store the POST
    left. *)
Theorem crear_then_obtener (db db' : Session) (now : Z) (body : ProductoCreate.payload)
        (b : ProductoResponse.t) :
  Forall (fun x => id x < productos_id_seq db) (productos db) ->
  Routes.crear_producto db now body = (Respond 201 b, db') ->
  Routes.obtener_producto db' (ProductoResponse.id b) = Respond 200 b.
Proof.
  intros Hseq. unfold Routes.crear_producto.
  destruct (ProductoCreate.validate body) as [p|]; [|discriminate].
  destruct (ProductoCRUD.create db now p) as [[r|[s| |]] d] eqn:Hc; try discriminate.
  unfold Routes.respond.
  destruct (ProductoResponse.validate r) as [b'|] eqn:Hb; [|discriminate].
  intros H. injection H as <- <-.
  pose proof (create_get_by_id _ _ _ _ _ Hseq Hc) as Hget.
  unfold Routes.obtener_producto. rewrite (response_id _ _ Hb), Hget.
  unfold Routes.respond. now rewrite Hb.
Qed.

(** ** Seeding *)

Lemma seeded_rows_valid (seq now : Z) (engine : dialect) :
  Forall row_valid (productos (seed_database (mkSession engine [] seq) now)).
Proof.
  destruct engine; simpl; unfold row_valid, sku_valid, precio_valid;
    repeat (constructor;
            [simpl; repeat split; try lia; try reflexivity;
             first [now exists PAN | now exists PASTELERIA
                   | now exists BEBIDAS | now exists OTROS]|]);
    constructor.
Qed.

(** X22: [seed_database] fills an empty table only.  A store that has a row
    is left as it is.  A store without rows receives the four sample
    products under four successive keys of the sequence, with SKUs
    PAN-0001, PAS-0101, BEB-0201 and EMP-0301, all within the constraints of
    the schemas, and a table in order stays in order.  Seeding again changes
    nothing. *)
Theorem seed_database_spec (db : Session) (now now' : Z) :
  (productos db <> [] -> seed_database db now = db)
  /\ (productos db = [] ->
      List.map sku (productos (seed_database db now))
      = ["PAN-0001"; "PAS-0101"; "BEB-0201"; "EMP-0301"]
      /\ List.map id (productos (seed_database db now))
         = [productos_id_seq db; productos_id_seq db + 1;
            productos_id_seq db + 2; productos_id_seq db + 3]
      /\ productos_id_seq (seed_database db now) = productos_id_seq db + 4)
  /\ (catalog_ok db -> catalog_ok (seed_database db now))
  /\ seed_database (seed_database db now) now' = seed_database db now.
Proof.
  destruct db as [engine rows seq]. destruct rows as [|r rows].
  - assert (Hskus : List.map sku (productos (seed_database (mkSession engine [] seq) now))
                    = ["PAN-0001"; "PAS-0101"; "BEB-0201"; "EMP-0301"]).
    { now destruct engine. }
    assert (Hids : List.map id (productos (seed_database (mkSession engine [] seq) now))
                   = [seq; seq + 1; seq + 2; seq + 3]).
    { destruct engine; simpl; rewrite <- !Z.add_assoc; reflexivity. }
    assert (Hseq : productos_id_seq (seed_database (mkSession engine [] seq) now)
                   = seq + 4).
    { destruct engine; simpl; lia. }
    split; [intros H; now contradiction H|].
    split; [intros _; split; [exact Hskus | split; [exact Hids | exact Hseq]]|].
    split; [|now destruct engine].
    intros _. unfold catalog_ok. rewrite Hids, Hseq, Hskus.
    split; [|split; [|split]].
    + repeat constructor; simpl; intuition lia.
    + apply Forall_forall. intros x Hx. apply (in_map id) in Hx. rewrite Hids in Hx.
      simpl in Hx. intuition lia.
    + repeat constructor; simpl; intuition discriminate.
    + apply seeded_rows_valid.
  - split; [reflexivity|]. split; [discriminate|]. split; [tauto | reflexivity].
Qed.

(** ** What [update] and [delete] leave alone *)

Lemma is_some_find_keys (k : Z) (l l' : list Producto) :
  Permutation (List.map id l) (List.map id l') ->
  is_some (List.find (fun x => id x =? k) l)
  = is_some (List.find (fun x => id x =? k) l').
Proof.
  intros Hperm.
  assert (Hin : forall m, is_some (List.find (fun x => id x =? k) m) = true
                          <-> In k (List.map id m)).
  { intros m. rewrite in_map_iff. split.
    - destruct (List.find _ m) as [x|] eqn:E; [|discriminate]. intros _.
      apply List.find_some in E. destruct E as [Hx E]. apply Z.eqb_eq in E. eauto.
    - intros (x & Hx & Hm). destruct (List.find _ m) as [y|] eqn:E; [reflexivity|].
      apply (List.find_none _ _ E) in Hm. rewrite Hx, Z.eqb_refl in Hm. discriminate Hm. }
  destruct (is_some (List.find _ l)) eqn:E1, (is_some (List.find _ l')) eqn:E2;
    try reflexivity.
  - apply Hin in E1. apply (Permutation_in _ Hperm) in E1. apply Hin in E1. congruence.
  - apply Hin in E2. apply (Permutation_in _ (Permutation_sym Hperm)) in E2.
    apply Hin in E2. congruence.
Qed.


Lemma filter_one_out (l : list Producto) (r : Producto) :
  NoDup (List.map id l) -> In r l ->
  S (List.length (List.filter (fun x => negb (id x =? id r)) l)) = List.length l.
Proof.
  induction l as [|y l IH]; simpl; intros Hnd Hin; [contradiction|].
  inversion Hnd as [|? ? Hy Hl]; subst. destruct Hin as [->|Hin].
  - rewrite Z.eqb_refl. simpl. f_equal.
    rewrite (filter_none_found (fun x => id x =? id r) l); [reflexivity|].
    destruct (List.find (fun x => id x =? id r) l) as [z|] eqn:E; [|reflexivity].
    apply List.find_some in E. destruct E as [Hz E]. apply Z.eqb_eq in E.
    exfalso. apply Hy. rewrite <- E. now apply in_map.
  - destruct (id y =? id r) eqn:E.
    + apply Z.eqb_eq in E. exfalso. apply Hy. rewrite E. now apply in_map.
    + simpl. f_equal. now apply IH.
Qed.

(** X24: on a table whose keys do not repeat, deleting a key that exists
    removes that one row: the table has one row less, every other row is
    still there, and every other key answers [get_by_id] as before. *)
Theorem delete_removes_one (db : Session) (producto_id : Z) (r : Producto) :
  NoDup (List.map id (productos db)) ->
  ProductoCRUD.get_by_id db producto_id = Some r ->
  ProductoCRUD.count_all (snd (ProductoCRUD.delete db producto_id)) None None
  = ProductoCRUD.count_all db None None - 1
  /\ (forall x, In x (productos db) -> x <> r ->
                In x (productos (snd (ProductoCRUD.delete db producto_id))))
  /\ (forall k, k <> producto_id ->
                ProductoCRUD.get_by_id (snd (ProductoCRUD.delete db producto_id)) k
                = ProductoCRUD.get_by_id db k).
Proof.
  intros Hnd Hget. unfold ProductoCRUD.get_by_id in Hget.
  apply first_some in Hget. destruct Hget as [Hin Hid]. apply Z.eqb_eq in Hid.
  unfold ProductoCRUD.count_all, ProductoCRUD.get_by_id, first. cbv zeta.
  rewrite delete_productos. split; [|split].
  - pose proof (filter_one_out _ _ Hnd Hin) as H. rewrite Hid in H. lia.
  - intros x Hx Hne. apply filter_In. split; [exact Hx|].
    apply negb_true_iff, Z.eqb_neq. intros E. apply Hne.
    apply (nodup_map_same id _ x r Hnd Hx Hin). congruence.
  - intros k Hk. now apply find_filter_other.
Qed.

End Properties.

(** * Examples

    The properties that depend on the case tables, each at a concrete
    input, with the tables of [latin1]. *)

Section Examples.

#[local] Existing Instance latin1.

Lemma dos_productos_ids : NoDup (List.map id (productos dos_productos)).
Proof. repeat constructor; simpl; intuition discriminate. Qed.

Lemma dos_productos_skus : NoDup (List.map sku (productos dos_productos)).
Proof. repeat constructor; simpl; intuition discriminate. Qed.

Lemma dos_productos_rows : Forall row_valid (productos dos_productos).
Proof.
  repeat constructor; simpl; try lia; solve [now exists PAN | now exists OTROS].
Qed.


Lemma validate_create_spec_witness :
  ProductoCreate.validate body_enie_lower
  = Ok (ProductoCreate.mk "Pan de Ñame" "ÑAM-0001" PAN (mkDecimal 15 (-1)) 12 true).
Proof.
  apply (proj2 (validate_create_spec body_enie_lower _)).
  simpl. repeat split; try lia; reflexivity.
Defined.

Lemma validate_create_round_trip_witness :
  ProductoCreate.validate
    (body_of (ProductoCreate.mk "Pan Frances" "PAN-0001" PAN (mkDecimal 125 (-2)) 120 true))
  = Ok (ProductoCreate.mk "Pan Frances" "PAN-0001" PAN (mkDecimal 125 (-2)) 120 true).
Proof.
  apply (validate_create_round_trip body_lower); reflexivity.
Defined.

Lemma serve_all_keeps_catalog_witness :
  catalog_kept
    (serve_all (no_rows 1 postgresql)
       [(100, POST body_enie_lower); (200, POST body_enie_upper);
        (300, PUT 1 (ProductoUpdate.mkPayload Unset (Given (Some "pas-0101")) Unset
                                             Unset (Given (Some 150)) Unset));
        (400, DELETE 7)]).
Proof.
  apply (serve_all_keeps_catalog (no_rows 1 postgresql)). apply catalog_kept_no_rows.
Defined.

Lemma serve_all_stamps_ordered_witness :
  stamps_ordered
    (serve_all panaderia
       [(150, POST body_upper); (150, PUT 1 (ProductoUpdate.mkPayload
           Unset Unset Unset Unset (Given (Some 7)) Unset));
        (180, DELETE 2)]).
Proof.
  apply (serve_all_stamps_ordered panaderia 100).
  - repeat constructor; simpl; lia.
  - simpl. lia.
Defined.

Lemma lookups_on_catalog_witness :
  ProductoCRUD.get_by_sku dos_productos "pas-0101" = Some croissant.
Proof.
  apply (proj2 (proj1 (proj2
    (lookups_on_catalog dos_productos croissant 2 "pas-0101"
       dos_productos_ids dos_productos_skus)))).
  split; [right; left; reflexivity | reflexivity].
Defined.




Lemma response_of_valid_row_witness :
  exists c,
    categoria pan_frances = categoria_value c
    /\ ProductoResponse.validate pan_frances
       = Ok (ProductoResponse.mk 1 "Pan Frances" "PAN-0001" c (mkDecimal 125 (-2))
                                 120 true 100 100).
Proof.
  apply (response_of_valid_row pan_frances).
  unfold row_valid, sku_valid, precio_valid. simpl.
  repeat split; try lia. now exists PAN.
Defined.



Lemma listar_productos_outcome_witness :
  exists items rows,
    Routes.listar_productos dos_productos 1 1 None None
    = Respond 200 (ProductoListResponse.mk items 2 2 1)
    /\ ProductoCRUD.get_all dos_productos 1 1 None None = Ok rows
    /\ List.map ProductoResponse.id items = List.map id rows.
Proof.
  pose proof (listar_productos_outcome dos_productos 1 1 None None
                dos_productos_rows eq_refl) as H.
  simpl in H. destruct H as (items & rows & H1 & H2 & H3 & _).
  exists items, rows. repeat split; assumption.
Defined.



Lemma crear_then_obtener_witness :
  exists b db',
    Routes.crear_producto (no_rows 1 sqlite) 100 body_lower = (Respond 201 b, db')
    /\ Routes.obtener_producto db' (ProductoResponse.id b) = Respond 200 b.
Proof.
  eexists. eexists. split; [reflexivity|].
  apply (crear_then_obtener (no_rows 1 sqlite) _ 100 body_lower);
    [constructor | reflexivity].
Defined.

Lemma seed_database_spec_witness :
  List.map sku (productos (seed_database (no_rows 1 sqlite) 100))
  = ["PAN-0001"; "PAS-0101"; "BEB-0201"; "EMP-0301"]
  /\ seed_database panaderia 100 = panaderia.
Proof.
  destruct (seed_database_spec (no_rows 1 sqlite) 100 100) as (_ & H & _).
  destruct (seed_database_spec panaderia 100 100) as (H' & _).
  split; [exact (proj1 (H eq_refl)) | apply H'; discriminate].
Defined.


Lemma delete_removes_one_witness :
  ProductoCRUD.count_all (snd (ProductoCRUD.delete dos_productos 1)) None None = 1
  /\ ProductoCRUD.get_by_id (snd (ProductoCRUD.delete dos_productos 1)) 2 = Some croissant.
Proof.
  destruct (delete_removes_one dos_productos 1 pan_frances
              dos_productos_ids eq_refl) as (H1 & _ & H3).
  split; [exact H1 | exact (H3 2 ltac:(discriminate))].
Defined.

End Examples.
